(** * File-system connector of the GA pipeline: a shallow embedding

    The development follows
    [python/pfs/ga/pipeline/data/filesystemconnector.py] (class
    [FileSystemConnector]), [python/pfs/ga/pipeline/util/hexidfilter.py]
    (class [HexIDFilter]) and [python/pfs/ga/pipeline/scripts/script.py]
    (class [Script]).

    Conventions of the embedding.
    - A Python reference that may be [None] is an [option]; [None] is Python's
      [None].
    - A raised exception is the [Raise] branch of [result]; the exception
      carries its class and its message.
    - Logging and file-system calls are recorded, in order, in a trace that
      the connector's methods thread through ([M]).
    - A [dict] (and the [__dict__] of a [SimpleNamespace]) is an association
      list in insertion order; Python keeps its keys distinct.
    - Strings are sequences of code points below 256. *)

From Stdlib Require Import List String Ascii ZArith Lia Bool.
Import ListNotations.
Local Open Scope string_scope.
Local Open Scope Z_scope.

(** ** Exceptions and results *)

Inductive exn : Type :=
| ValueError (msg : string)
| TypeError (msg : string)
| FileNotFoundError (msg : string)
| IndexError (msg : string)
| KeyError (msg : string)
| AttributeError (msg : string)
| NotImplementedError
| ParseError (msg : string)          (* raised by the filter classes *)
| FormattingError (msg : string)
| InvalidQueryError (msg : string).

(** The class of an exception, that is what an [except] clause selects on. *)
Inductive exn_class : Type :=
| CValueError | CTypeError | CFileNotFoundError | CIndexError | CKeyError
| CAttributeError | CNotImplementedError | CParseError | CFormattingError
| CInvalidQueryError.

Definition class_of (e : exn) : exn_class :=
  match e with
  | ValueError _ => CValueError
  | TypeError _ => CTypeError
  | FileNotFoundError _ => CFileNotFoundError
  | IndexError _ => CIndexError
  | KeyError _ => CKeyError
  | AttributeError _ => CAttributeError
  | NotImplementedError => CNotImplementedError
  | ParseError _ => CParseError
  | FormattingError _ => CFormattingError
  | InvalidQueryError _ => CInvalidQueryError
  end.

Inductive result (A : Type) : Type :=
| Ok (a : A)
| Raise (e : exn).
Arguments Ok {A} a.
Arguments Raise {A} e.

Definition rbind {A B} (r : result A) (f : A -> result B) : result B :=
  match r with
  | Ok a => f a
  | Raise e => Raise e
  end.

Declare Scope res_scope.
Delimit Scope res_scope with res.
Notation "x <- r ;; k" := (rbind r (fun x => k))
  (at level 61, r at next level, right associativity) : res_scope.
Notation "' p <- r ;; k" := (rbind r (fun x => match x with p => k end))
  (at level 61, p pattern, r at next level, right associativity) : res_scope.

Definition is_ok {A} (r : result A) : bool :=
  match r with Ok _ => true | Raise _ => false end.

(** ** Python built-ins on strings and integers *)

Module Py.

(** [str.isspace] on code points below 256 (what [int] strips). *)
Definition is_space (c : ascii) : bool :=
  let n := nat_of_ascii c in
  ((9 <=? n) && (n <=? 13))%nat || ((28 <=? n) && (n <=? 32))%nat
  || (n =? 133)%nat || (n =? 160)%nat.

Fixpoint lstrip (s : string) : string :=
  match s with
  | String c r => if is_space c then lstrip r else s
  | EmptyString => s
  end.

Fixpoint all_space (s : string) : bool :=
  match s with
  | String c r => is_space c && all_space r
  | EmptyString => true
  end.

(** Value of a character as a digit: [0-9], then letters of either case
    from 10 on; [None] when the value is not below the base. *)
Definition digit_val (base : Z) (c : ascii) : option Z :=
  let n := Z.of_nat (nat_of_ascii c) in
  let v :=
    if (48 <=? n) && (n <=? 57) then Some (n - 48)
    else if (97 <=? n) && (n <=? 122) then Some (n - 87)
    else if (65 <=? n) && (n <=? 90) then Some (n - 55)
    else None in
  match v with
  | Some d => if d <? base then Some d else None
  | None => None
  end.

(** The digits after the first: each is a digit, or one underscore followed
    by a digit.  Returns the number read and the text left. *)
Fixpoint int_body (base : Z) (s : string) (acc : Z) : option (Z * string) :=
  match s with
  | EmptyString => Some (acc, s)
  | String c r =>
      match digit_val base c with
      | Some d => int_body base r (acc * base + d)
      | None =>
          if Ascii.eqb c "_" then
            match r with
            | String c2 r2 =>
                match digit_val base c2 with
                | Some d => int_body base r2 (acc * base + d)
                | None => None
                end
            | EmptyString => None
            end
          else Some (acc, s)
      end
  end.

Definition int_sign (s : string) : bool * string :=
  match s with
  | String "-" r => (true, r)
  | String "+" r => (false, r)
  | _ => (false, s)
  end.

(** In base 16 a [0x] or [0X] may precede the digits, and one underscore may
    follow it. *)
Definition int_prefix (base : Z) (s : string) : string :=
  if base =? 16 then
    match s with
    | String "0" (String c r) =>
        if Ascii.eqb c "x" || Ascii.eqb c "X" then
          match r with
          | String "_" r' => r'
          | _ => r
          end
        else s
    | _ => s
    end
  else s.

Definition invalid_literal (base : Z) (s : string) : exn :=
  ValueError ("invalid literal for int() with base "
              ++ (if base =? 16 then "16" else "10") ++ ": " ++ s).

(** [int(s, base)] for a string [s] and base 10 or 16. *)
Definition int_of_str (base : Z) (s : string) : result Z :=
  let '(neg, s1) := int_sign (lstrip s) in
  match int_prefix base s1 with
  | String c r =>
      match digit_val base c with
      | Some d =>
          match int_body base r d with
          | Some (n, rest) =>
              if all_space rest then Ok (if neg then - n else n)
              else Raise (invalid_literal base s)
          | None => Raise (invalid_literal base s)
          end
      | None => Raise (invalid_literal base s)
      end
  | EmptyString => Raise (invalid_literal base s)
  end.

(** [int(x, base)] where [x] may be [None]. *)
Definition int (x : option string) (base : Z) : result Z :=
  match x with
  | Some s => int_of_str base s
  | None => Raise (TypeError "int() can't convert non-string with explicit base")
  end.

(** Lower-case digit of a value below 16. *)
Definition digit_char (d : Z) : ascii :=
  if d <? 10 then ascii_of_nat (Z.to_nat (48 + d))
  else ascii_of_nat (Z.to_nat (87 + d)).

(** Digits of a non-negative number, most significant first. *)
Fixpoint digits (base : Z) (fuel : nat) (v : Z) : list Z :=
  match fuel with
  | O => []
  | S f =>
      if v <? base then [v]
      else (digits base f (v / base) ++ [v mod base])%list
  end.

Definition to_digits (base : Z) (v : Z) : list Z :=
  digits base (S (Z.to_nat (Z.log2 v))) v.

Definition string_of_digits (ds : list Z) : string :=
  string_of_list_ascii (map digit_char ds).

(** [format(v, '0Nx')] (base 16) and [format(v, '0Nd')] (base 10) for an
    integer [v]: sign, then zeros up to the width, then the digits. *)
Definition format_zero (base : Z) (width : nat) (v : Z) : string :=
  let ds := to_digits base (Z.abs v) in
  let sign := if v <? 0 then "-" else "" in
  let pad := (width - String.length sign - List.length ds)%nat in
  sign ++ string_of_digits (repeat 0 pad ++ ds)%list.

(** A digit of base 16, and the number that a list of digits, most
    significant first, stands for. *)
Definition is_digit16 (d : Z) : Prop := 0 <= d < 16.

Definition horner (base : Z) (ds : list Z) (acc : Z) : Z :=
  fold_left (fun a d => a * base + d) ds acc.

(** [s[:n]] and [s[n:]]. *)
Fixpoint take (n : nat) (s : string) : string :=
  match n, s with
  | S n', String c r => String c (take n' r)
  | _, _ => ""
  end.

Fixpoint drop (n : nat) (s : string) : string :=
  match n, s with
  | S n', String _ r => drop n' r
  | _, _ => s
  end.

End Py.

(** ** Dictionaries

    [dict] in insertion order.  [set] keeps the position of a key that is
    present and appends a new one, as Python does. *)

Module Dict.

Definition t (V : Type) : Type := list (string * V).

Fixpoint get {V} (d : t V) (k : string) : option V :=
  match d with
  | [] => None
  | (k', v) :: d' => if String.eqb k' k then Some v else get d' k
  end.

Fixpoint set {V} (d : t V) (k : string) (v : V) : t V :=
  match d with
  | [] => [(k, v)]
  | (k', v') :: d' =>
      if String.eqb k' k then (k', v) :: d' else (k', v') :: set d' k v
  end.

Definition keys {V} (d : t V) : list string := map fst d.
Definition values {V} (d : t V) : list V := map snd d.

Definition mem {V} (d : t V) (k : string) : bool :=
  match get d k with Some _ => true | None => false end.

(** [d[k]]. *)
Definition item {V} (d : t V) (k : string) : result V :=
  match get d k with
  | Some v => Ok v
  | None => Raise (KeyError k)
  end.

End Dict.

(** ** The trace monad of the connector *)

Inductive event : Type :=
| LogWarning (msg : string)            (* logger.warning(msg) *)
| Glob (pattern : string)              (* glob(pattern): lists directories *)
| Read (product : string) (dir : string). (* <Product>.read(..., dirName=dir) *)

Definition M (A : Type) : Type := list event -> result A * list event.

Definition ret {A} (a : A) : M A := fun w => (Ok a, w).
Definition raise {A} (e : exn) : M A := fun w => (Raise e, w).
Definition lift {A} (r : result A) : M A := fun w => (r, w).
Definition emit (ev : event) : M unit := fun w => (Ok tt, (w ++ [ev])%list).

Definition bind {A B} (m : M A) (f : A -> M B) : M B :=
  fun w =>
    match m w with
    | (Ok a, w') => f a w'
    | (Raise e, w') => (Raise e, w')
    end.

Declare Scope conn_scope.
Delimit Scope conn_scope with conn.
Notation "x <- m ;; k" := (bind m (fun x => k))
  (at level 61, m at next level, right associativity) : conn_scope.
Notation "' p <- m ;; k" := (bind m (fun x => match x with p => k end))
  (at level 61, p pattern, m at next level, right associativity) : conn_scope.
Notation "m ;; k" := (bind m (fun _ => k))
  (at level 61, right associativity) : conn_scope.

(** ** What the connector uses from the rest of the package

    The filter classes ([IntFilter], [HexFilter], [DateFilter],
    [StringFilter], imported from sibling modules), [Constants], the
    [pfs.datamodel] readers and the [os], [re] and [glob] modules enter the
    connector only through the operations below. *)

(** The filter interface: the members of a filter object that the connector
    touches.  [obj] is the type of Python objects other than [None]. *)
Class FilterOps (Filter obj : Type) : Type := {
  (** the four constructors, called with [name=] and [format=] only *)
  IntFilter : option string -> option string -> Filter;
  HexFilter : option string -> option string -> Filter;
  DateFilter : option string -> option string -> Filter;
  StringFilter : option string -> option string -> Filter;
  (** [f.values = v] *)
  set_values : Filter -> option obj -> result Filter;
  (** [f.get_glob_pattern()] *)
  get_glob_pattern : Filter -> result string;
  (** [f.parse_value(s)] *)
  parse_value : Filter -> option string -> result (option obj);
  (** [f.match(v)] *)
  match_ : Filter -> option obj -> bool;
  (** a filter, and a string, as objects *)
  filter_obj : Filter -> obj;
  str_obj : string -> obj
}.

(** Modules [os], [re], [glob] and [str.format]. *)
Class Platform (obj : Type) : Type := {
  regex : Type;
  (** [re.search(regex, s)]: [None], or the named groups of the match, each
      the text it matched or [None] when it took no part in the match *)
  re_search : regex -> string -> option (Dict.t (option string));
  os_sep : ascii;
  (** [os.path.join] of [a] and the further arguments *)
  os_path_join : string -> list string -> string;
  os_path_abspath : string -> string;
  os_path_split : string -> string * string;
  os_path_dirname : string -> string;
  (** [template.format] with keyword arguments *)
  str_format : string -> Dict.t (option obj) -> result string;
  (** the state of the file system, as [glob] sees it *)
  fs_glob : string -> list string;
  os_environ : Dict.t string
}.

(** Class [Constants]. *)
Class ConstantsT (obj : Type) `{Platform obj} : Type := {
  PFSDESIGN_DIR_GLOB : string;
  PFSDESIGN_DIR_FORMAT : string;
  PFSDESIGN_FILENAME_GLOB : string;
  PFSDESIGN_FILENAME_REGEX : regex;
  PFSCONFIG_DIR_GLOB : string;
  PFSCONFIG_DIR_FORMAT : string;
  PFSCONFIG_FILENAME_GLOB : string;
  PFSCONFIG_FILENAME_REGEX : regex;
  PFSCONFIG_PATH_REGEX : regex;
  PFSSINGLE_DIR_GLOB : string;
  PFSSINGLE_DIR_FORMAT : string;
  PFSSINGLE_FILENAME_GLOB : string;
  PFSSINGLE_FILENAME_REGEX : regex
}.

(** The readers of [pfs.datamodel]. *)
Class Datamodel (obj : Type) : Type := {
  product : Type;
  PfsDesign_read : option obj -> string -> result product;
  PfsConfig_read : option obj -> option obj -> string -> result product;
  PfsSingle_read : Dict.t (option obj) -> string -> result product
}.

(** The attributes of a connector instance other than its properties: its
    methods, its fields under their mangled names, what [object] provides.
    [None] when the instance has no attribute of that name. *)
Class InstanceAttrs (obj : Type) : Type := {
  other_attr : string -> option (option obj)
}.

(** ** String helpers of the connector *)

(** [s.split(sep)] for a one-character separator. *)
Fixpoint split (sep : ascii) (s : string) : list string :=
  match s with
  | EmptyString => [""]
  | String c r =>
      if Ascii.eqb c sep then "" :: split sep r
      else match split sep r with
           | h :: t => String c h :: t
           | [] => [String c ""]
           end
  end.

(** [sep.join(l)]. *)
Definition join (sep : string) (l : list string) : string := String.concat sep l.

(** [x in l], and [l.index(x)] for an [x] that is in [l]. *)
Definition contains (l : list string) (x : string) : bool :=
  existsb (String.eqb x) l.

Fixpoint index (l : list string) (x : string) : Z :=
  match l with
  | [] => 0
  | y :: l' => if String.eqb y x then 0 else 1 + index l' x
  end.

(** [l[:i]] for [i >= 0]. *)
Definition slice_to {A} (l : list A) (i : Z) : list A := firstn (Z.to_nat i) l.

(** ** The connector *)

Section Connector.

Context {Filter obj : Type}.
Context {FO : FilterOps Filter obj} {PF : Platform obj}.
Context {CS : ConstantsT obj} {DM : Datamodel obj} {IA : InstanceAttrs obj}.

(** A [SimpleNamespace] of filters, of parsed values, of lists of parsed
    values; keyword arguments. *)
Definition Params : Type := Dict.t Filter.
Definition Identity : Type := Dict.t (option obj).
Definition Ids : Type := Dict.t (list (option obj)).
Definition Kwargs : Type := Dict.t (option obj).

Record FileSystemConnector : Type := {
  __datadir : option string;
  __rerundir : option string;
  __pfsDesignId : Filter;
  __catId : Filter;
  __tract : Filter;
  __patch : option obj;      (* has a setter: any object *)
  __objId : Filter;
  __visit : Filter;
  __date : Filter
}.

Definition __get_envvar (key : string) : option string :=
  if Dict.mem os_environ key then Dict.get os_environ key else None.

(** [__init__]; [orig] is [Some] for an instance of the class. *)
Definition __init__ (datadir rerundir : option string)
    (orig : option FileSystemConnector) : FileSystemConnector :=
  match orig with
  | None =>
      {| __datadir := match datadir with
                      | Some _ => datadir
                      | None => __get_envvar "GAPIPE_DATADIR"
                      end;
         __rerundir := match rerundir with
                       | Some _ => rerundir
                       | None => __get_envvar "GAPIPE_RERUNDIR"
                       end;
         __pfsDesignId := HexFilter (Some "pfsDesignId") (Some "{:016x}");
         __catId := IntFilter (Some "catid") (Some "{:05d}");
         __tract := IntFilter (Some "tract") (Some "{:05d}");
         __patch := Some (filter_obj (StringFilter (Some "patch") None));
         __objId := HexFilter (Some "objid") (Some "{:016x}");
         __visit := IntFilter (Some "visit") (Some "{:06d}");
         __date := DateFilter (Some "date") (Some "{:%Y-%m-%d}") |}
  | Some o =>
      {| __datadir := match datadir with
                      | Some _ => datadir
                      | None => __datadir o
                      end;
         __rerundir := match rerundir with
                       | Some _ => rerundir
                       | None => __rerundir o
                       end;
         __pfsDesignId := __pfsDesignId o;
         __catId := __catId o;
         __tract := __tract o;
         __patch := __patch o;
         __objId := __objId o;
         __visit := __visit o;
         __date := __date o |}
  end.

(** [getattr(self, k)], [None] when [hasattr(self, k)] is false.  The
    properties are [datadir], [rerundir], [pfsDesignId], [catId], [tract],
    [patch], [objId] and [visit]; there is none for the date filter. *)
Definition getattr_ (self : FileSystemConnector) (k : string)
  : option (option obj) :=
  if String.eqb k "datadir" then Some (option_map str_obj (__datadir self))
  else if String.eqb k "rerundir" then Some (option_map str_obj (__rerundir self))
  else if String.eqb k "pfsDesignId" then Some (Some (filter_obj (__pfsDesignId self)))
  else if String.eqb k "catId" then Some (Some (filter_obj (__catId self)))
  else if String.eqb k "tract" then Some (Some (filter_obj (__tract self)))
  else if String.eqb k "patch" then Some (__patch self)
  else if String.eqb k "objId" then Some (Some (filter_obj (__objId self)))
  else if String.eqb k "visit" then Some (Some (filter_obj (__visit self)))
  else other_attr k.

(** *** Utility functions *)

Definition __throw_or_warn (message : string) (required : bool)
    (exception_type : string -> exn) : M unit :=
  if required then raise (exception_type message)
  else emit (LogWarning message).

Definition is_not_None {X} (x : option X) : bool :=
  match x with Some _ => true | None => false end.

Definition __ensure_one_param {X} (kwargs : Dict.t (option X)) : result unit :=
  if negb (Nat.eqb (List.length (filter is_not_None (Dict.values kwargs))) 1)
  then
    let names := join ", " (Dict.keys kwargs) in
    Raise (ValueError ("Only one of the parameters " ++ names
                       ++ " can be specified ."))
  else Ok tt.

(** [match.group(k)]. *)
Definition group (m : Dict.t (option string)) (k : string)
  : result (option string) :=
  match Dict.get m k with
  | Some g => Ok g
  | None => Raise (IndexError "no such group")
  end.

(** [{ k: p.parse_value(match.group(k)) for k, p in params.items() }]. *)
Fixpoint parse_groups (m : Dict.t (option string)) (params : Params)
  : result Identity :=
  match params with
  | [] => Ok []
  | (k, p) :: rest =>
      (g <- group m k ;;
       v <- parse_value p g ;;
       vs <- parse_groups m rest ;;
       Ok ((k, v) :: vs))%res
  end.

Definition format_mismatch (path : string) : string :=
  "Filename does not match expected format: " ++ path.

Definition __parse_filename_params (path : string) (params : Params)
    (regex_ : regex) (required : bool) : M (option Identity) :=
  match re_search regex_ path with
  | Some m =>
      (ident <- lift (parse_groups m params) ;;
       ret (Some ident))%conn
  | None =>
      (__throw_or_warn (format_mismatch path) required ValueError ;;
       ret None)%conn
  end.

(** *** Discovery: [__find_files_and_match_params] *)

(** [params[k].values = v]: the filter object under [k] changes state. *)
Definition assign_values (params : Params) (k : string) (v : option obj)
  : result Params :=
  (p <- Dict.item params k ;;
   p' <- set_values p v ;;
   Ok (Dict.set params k p'))%res.

(** One turn of the loop "Update the parameters with the values". *)
Definition update_param (self : FileSystemConnector) (params : Params)
    (k : string) (v : option obj) : result Params :=
  if Dict.mem params k then
    match v with
    | Some _ => assign_values params k v
    | None =>
        match getattr_ self k with
        | Some a => assign_values params k a
        | None => Ok params
        end
    end
  else Ok params.

Fixpoint update_params (self : FileSystemConnector) (params : Params)
    (param_values : Kwargs) : result Params :=
  match param_values with
  | [] => Ok params
  | (k, v) :: rest =>
      (params' <- update_param self params k v ;;
       update_params self params' rest)%res
  end.

(** [{ k: p.get_glob_pattern() for k, p in params.items() }]. *)
Fixpoint glob_pattern_parts (params : Params) : result Kwargs :=
  match params with
  | [] => Ok []
  | (k, p) :: rest =>
      (g <- get_glob_pattern p ;;
       gs <- glob_pattern_parts rest ;;
       Ok ((k, Some (str_obj g)) :: gs))%res
  end.

(** Each pattern formatted with [glob_pattern_parts] as keyword arguments. *)
Fixpoint format_patterns (patterns : list string) (parts : Kwargs)
  : result (list string) :=
  match patterns with
  | [] => Ok []
  | p :: rest =>
      (s <- str_format p parts ;;
       ss <- format_patterns rest parts ;;
       Ok (s :: ss))%res
  end.

(** [os.path.join] of the unpacked list. *)
Definition path_join (l : list string) : result string :=
  match l with
  | [] => Raise (TypeError "join() missing 1 required positional argument: 'a'")
  | a :: rest => Ok (os_path_join a rest)
  end.

(** [glob(pattern)]. *)
Definition glob (pattern : string) : M (list string) :=
  (emit (Glob pattern) ;; ret (fs_glob pattern))%conn.

(** The loop over the filters of one candidate (source lines 254-261):
    parse the group of each filter into [values], and accumulate in [good]
    whether each filter accepts its value. *)
Fixpoint match_filters (m : Dict.t (option string)) (items : Params)
    (values : Identity) (good : bool) : result (Identity * bool) :=
  match items with
  | [] => Ok (values, good)
  | (k, param) :: rest =>
      (g <- group m k ;;
       v <- parse_value param g ;;
       let values' := Dict.set values k v in
       x <- Dict.item values' k ;;
       match_filters m rest values' (good && match_ param x))%res
  end.

(** [for k, v in values.items(): ids[k].append(v)]. *)
Fixpoint append_ids (ids : Ids) (items : Identity) : result Ids :=
  match items with
  | [] => Ok ids
  | (k, v) :: rest =>
      (l <- Dict.item ids k ;;
       append_ids (Dict.set ids k (l ++ [v])%list) rest)%res
  end.

(** The loop over the candidate paths (source lines 248-266).  [values]
    is created once, before the loop, and lives through it. *)
Fixpoint scan_paths (params : Params) (regex_ : regex) (paths : list string)
    (ids : Ids) (values : Identity) (filenames : list string)
  : result (list string * Ids) :=
  match paths with
  | [] => Ok (filenames, ids)
  | path :: rest =>
      match re_search regex_ path with
      | Some m =>
          ('(values', good) <- match_filters m params values true ;;
           if good : bool then
             (ids' <- append_ids ids values' ;;
              scan_paths params regex_ rest ids' values'
                         (filenames ++ [path])%list)
           else scan_paths params regex_ rest ids values' filenames)%res
      | None => scan_paths params regex_ rest ids values filenames
      end
  end.

(** Source lines 245-268, from the list of candidates on. *)
Definition match_candidates (params : Params) (regex_ : regex)
    (paths : list string) : result (list string * Ids) :=
  let ids := map (fun k => (k, @nil (option obj))) (Dict.keys params) in
  let values := map (fun k => (k, @None obj)) (Dict.keys params) in
  scan_paths params regex_ paths ids values [].

(** The glob expression of a query (source lines 236-239). *)
Definition glob_expression (patterns : list string) (params : Params)
  : result string :=
  (parts <- glob_pattern_parts params ;;
   l <- format_patterns patterns parts ;;
   path_join l)%res.

Definition __find_files_and_match_params (self : FileSystemConnector)
    (patterns : list string) (params : Params) (param_values : Kwargs)
    (regex_ : regex) : M (list string * Ids) :=
  (params' <- lift (update_params self params param_values) ;;
   glob_pattern <- lift (glob_expression patterns params') ;;
   paths <- glob glob_pattern ;;
   lift (match_candidates params' regex_ paths))%conn.

(** [v[0]]. *)
Definition first {A} (l : list A) : result A :=
  match l with
  | x :: _ => Ok x
  | [] => Raise (IndexError "list index out of range")
  end.

(** [{ k: v[0] for k, v in ids.__dict__.items() }]. *)
Fixpoint first_of_each (ids : Ids) : result Identity :=
  match ids with
  | [] => Ok []
  | (k, v) :: rest =>
      (x <- first v ;;
       xs <- first_of_each rest ;;
       Ok ((k, x) :: xs))%res
  end.

Definition __get_single_file (files : list string) (ids : Ids)
  : result (string * Identity) :=
  if Nat.eqb (List.length files) 0 then
    Raise (FileNotFoundError "No file found matching the query.")
  else if Nat.ltb 1 (List.length files) then
    Raise (FileNotFoundError "Multiple files found matching the query.")
  else
    (f <- first files ;;
     ident <- first_of_each ids ;;
     Ok (f, ident))%res.

(** *** Repository location functions *)

(** [os.path.abspath(p)] where [p] may be [None]. *)
Definition abspath (p : option string) : result string :=
  match p with
  | Some s => Ok (os_path_abspath s)
  | None =>
      Raise (TypeError "expected str, bytes or os.PathLike object, not NoneType")
  end.

(** [os.path.join] of arguments that may be [None]. *)
Definition path_join_opt (l : list (option string)) : result string :=
  if forallb is_not_None l then
    path_join (flat_map (fun x => match x with Some s => [s] | None => [] end) l)
  else
    Raise (TypeError "expected str, bytes or os.PathLike object, not NoneType").

Definition get_datadir (self : FileSystemConnector)
    (reference_path : option string) (required : bool) : M string :=
  let rerun_index := -1 in
  ('(dirs, rerun_index) <-
      match reference_path with
      | Some p =>
          let dirs := split os_sep p in
          if contains dirs "rerun" then ret (dirs, index dirs "rerun")
          else if contains dirs "pfsConfig" then ret (dirs, index dirs "pfsConfig")
          else if contains dirs "pfsDesign" then ret (dirs, index dirs "pfsDesign")
          else
            (__throw_or_warn
               "Data directory cannot be inferred from reference path."
               required ValueError ;;
             ret (dirs, rerun_index))
      | None => ret ([], rerun_index)
      end ;;
   if negb (rerun_index =? -1) then
     lift (abspath (Some (join (String os_sep "") (slice_to dirs rerun_index))))
   else
     lift (abspath (__datadir self)))%conn.

(** The [for ... break] of [get_rerundir]. *)
Fixpoint first_product (products dirs : list string) : Z :=
  match products with
  | [] => -1
  | product_ :: rest =>
      if contains dirs product_ then index dirs product_
      else first_product rest dirs
  end.

Definition get_rerundir (self : FileSystemConnector)
    (reference_path : option string) (required : bool) : M string :=
  let rerun_index := -1 in
  ('(dirs, rerun_index) <-
      match reference_path with
      | Some p =>
          let dirs := split os_sep p in
          let rerun_index :=
            first_product
              ["pfsArm"; "pfsMerged"; "pfsSingle"; "pfsObject"; "pfsGAObject"]
              dirs in
          if rerun_index =? -1 then
            (__throw_or_warn
               "Rerun directory cannot be inferred from reference path."
               required ValueError ;;
             ret (dirs, rerun_index))
          else ret (dirs, rerun_index)
      | None => ret ([], rerun_index)
      end ;;
   if negb (rerun_index =? -1) then
     lift (abspath (Some (join (String os_sep "") (slice_to dirs rerun_index))))
   else
     (p <- lift (path_join_opt [__datadir self; __rerundir self]) ;;
      lift (abspath (Some p))))%conn.

(** *** Identities *)

(** [identity.k]. *)
Definition attr (identity : Identity) (k : string) : result (option obj) :=
  match Dict.get identity k with
  | Some v => Ok v
  | None =>
      Raise (AttributeError
               ("'types.SimpleNamespace' object has no attribute '" ++ k ++ "'"))
  end.

(** [identity.__dict__] where [identity] may be [None]. *)
Definition dict_of (identity : option Identity) : result Identity :=
  match identity with
  | Some d => Ok d
  | None =>
      Raise (AttributeError "'NoneType' object has no attribute '__dict__'")
  end.

(** The two arguments of a [load_*] method, as [__ensure_one_param] receives
    them. *)
Definition load_args (filename : option string) (identity : option Identity)
  : Dict.t (option (string + Identity)) :=
  [("filename", option_map inl filename); ("identity", option_map inr identity)].

(** *** PfsDesign *)

Definition __get_pfsDesign_identity_fields : Params :=
  [("pfsDesignId", HexFilter (Some "pfsDesignId") (Some "{:016x}"))].

Definition parse_pfsDesign (path : string) : M (option Identity) :=
  let '(dir, basename) := os_path_split path in
  __parse_filename_params basename __get_pfsDesign_identity_fields
    PFSDESIGN_FILENAME_REGEX true.

Definition find_pfsDesign (self : FileSystemConnector)
    (reference_path : option string) (kwargs : Kwargs)
  : M (list string * Ids) :=
  (datadir <- get_datadir self reference_path false ;;
   __find_files_and_match_params self
     [datadir; PFSDESIGN_DIR_GLOB; PFSDESIGN_FILENAME_GLOB]
     __get_pfsDesign_identity_fields kwargs PFSDESIGN_FILENAME_REGEX)%conn.

Definition locate_pfsDesign (self : FileSystemConnector)
    (reference_path : option string) (kwargs : Kwargs)
  : M (string * Identity) :=
  ('(files, ids) <- find_pfsDesign self reference_path kwargs ;;
   lift (__get_single_file files ids))%conn.

Definition load_pfsDesign (self : FileSystemConnector)
    (filename : option string) (identity : option Identity)
  : M (product * option Identity) :=
  (lift (__ensure_one_param (load_args filename identity)) ;;
   identity <-
     match filename with
     | Some fn =>
         let '(dir, basename) := os_path_split fn in
         __parse_filename_params basename
           [("pfsDesignId", HexFilter None None)]
           PFSDESIGN_FILENAME_REGEX true
     | None => ret identity
     end ;;
   d <- lift (dict_of identity) ;;
   sub <- lift (str_format PFSDESIGN_DIR_FORMAT d) ;;
   dir <- lift (path_join_opt [__datadir self; Some sub]) ;;
   pfsDesignId <- lift (attr d "pfsDesignId") ;;
   emit (Read "PfsDesign" dir) ;;
   o <- lift (PfsDesign_read pfsDesignId dir) ;;
   ret (o, identity))%conn.

(** *** PfsConfig *)

Definition __get_pfsConfig_identity_fields : Params :=
  [("pfsDesignId", HexFilter (Some "pfsDesignId") (Some "{:016x}"));
   ("visit", IntFilter (Some "visit") (Some "{:06d}"));
   ("date", DateFilter (Some "date") (Some "{:%Y-%m-%d}"))].

Definition parse_pfsConfig (path : string) : M (option Identity) :=
  let '(dir, basename) := os_path_split path in
  if negb (String.eqb dir "") then
    __parse_filename_params path __get_pfsConfig_identity_fields
      PFSCONFIG_PATH_REGEX true
  else
    __parse_filename_params basename
      [("pfsDesignId", HexFilter None None); ("visit", IntFilter None None)]
      PFSCONFIG_FILENAME_REGEX true.

Definition find_pfsConfig (self : FileSystemConnector)
    (reference_path : option string) (kwargs : Kwargs)
  : M (list string * Ids) :=
  (datadir <- get_datadir self reference_path false ;;
   __find_files_and_match_params self
     [datadir; PFSCONFIG_DIR_GLOB; PFSCONFIG_FILENAME_GLOB]
     __get_pfsConfig_identity_fields kwargs PFSCONFIG_PATH_REGEX)%conn.

Definition locate_pfsConfig (self : FileSystemConnector)
    (reference_path : option string) (kwargs : Kwargs)
  : M (string * Identity) :=
  ('(files, ids) <- find_pfsConfig self reference_path kwargs ;;
   lift (__get_single_file files ids))%conn.

Definition load_pfsConfig (self : FileSystemConnector)
    (filename : option string) (identity : option Identity)
  : M (product * option Identity) :=
  (lift (__ensure_one_param (load_args filename identity)) ;;
   '(dir, identity) <-
     match filename with
     | Some fn =>
         (identity <- parse_pfsConfig fn ;;
          d <- lift (dict_of identity) ;;
          '(filename', identity') <- locate_pfsConfig self (Some fn) d ;;
          ret (os_path_dirname filename', Some identity'))
     | None =>
         match identity with
         | Some d =>
             (datadir <- get_datadir self None false ;;
              sub <- lift (str_format PFSCONFIG_DIR_FORMAT d) ;;
              dir <- lift (path_join [datadir; sub]) ;;
              ret (dir, identity))
         | None =>
             raise (AttributeError
                      "'NoneType' object has no attribute 'pfsDesignId'")
         end
     end ;;
   d <- lift (dict_of identity) ;;
   pfsDesignId <- lift (attr d "pfsDesignId") ;;
   visit <- lift (attr d "visit") ;;
   emit (Read "PfsConfig" dir) ;;
   o <- lift (PfsConfig_read pfsDesignId visit dir) ;;
   ret (o, identity))%conn.

(** *** Products without a finder *)

Definition find_pfsArm (catId tract patch objId visit arm : option obj)
  : M (list string * Ids) := raise NotImplementedError.

Definition find_pfsMerged (visit : option obj) : M (list string * Ids) :=
  raise NotImplementedError.

Definition find_pfsObject
    (catId tract patch objId nVisit pfsVisitHash : option obj)
    (reference_path : option string) : M (list string * Ids) :=
  raise NotImplementedError.

(** *** PfsSingle *)

Definition __get_identity_fields_pfsSingle : Params :=
  [("catId", IntFilter (Some "catId") (Some "{:05d}"));
   ("tract", IntFilter (Some "tract") (Some "{:05d}"));
   ("patch", StringFilter (Some "patch") None);
   ("objId", HexFilter (Some "objId") (Some "{:016x}"));
   ("visit", IntFilter (Some "visit") (Some "{:06d}"))].

Definition parse_pfsSingle (path : string) : M (option Identity) :=
  let '(dir, basename) := os_path_split path in
  __parse_filename_params basename __get_identity_fields_pfsSingle
    PFSSINGLE_FILENAME_REGEX true.

Definition find_pfsSingle (self : FileSystemConnector)
    (reference_path : option string) (kwargs : Kwargs)
  : M (list string * Ids) :=
  (datadir <- get_datadir self reference_path false ;;
   rerundir <- get_rerundir self reference_path false ;;
   __find_files_and_match_params self
     [datadir; rerundir; PFSSINGLE_DIR_GLOB; PFSSINGLE_FILENAME_GLOB]
     __get_identity_fields_pfsSingle kwargs PFSSINGLE_FILENAME_REGEX)%conn.

Definition locate_pfsSingle (self : FileSystemConnector)
    (reference_path : option string) (kwargs : Kwargs)
  : M (string * Identity) :=
  ('(files, ids) <- find_pfsSingle self reference_path kwargs ;;
   lift (__get_single_file files ids))%conn.

Definition load_pfsSingle (self : FileSystemConnector)
    (filename : option string) (identity : option Identity)
  : M (product * option Identity) :=
  (lift (__ensure_one_param (load_args filename identity)) ;;
   '(dir, identity) <-
     match filename with
     | Some fn =>
         let '(dir, basename) := os_path_split fn in
         (identity <- __parse_filename_params basename
                        __get_identity_fields_pfsSingle
                        PFSSINGLE_FILENAME_REGEX true ;;
          ret (dir, identity))
     | None => ret ("", identity)
     end ;;
   d <- lift (dict_of identity) ;;
   sub <- lift (str_format PFSSINGLE_DIR_FORMAT d) ;;
   dir <- lift (path_join_opt
                  [__datadir self; __rerundir self; Some sub; Some dir]) ;;
   emit (Read "PfsSingle" dir) ;;
   o <- lift (PfsSingle_read d dir) ;;
   ret (o, identity))%conn.

(** *** Vocabulary of the statements *)

(** What the filter [f] makes of the group named [k] of a match. *)
Definition parsed (m : Dict.t (option string)) (k : string) (f : Filter)
  : result (option obj) :=
  (g <- group m k ;; parse_value f g)%res.

(** The filter under [k] accepts the value it parses from its group. *)
Definition accepts (m : Dict.t (option string)) (kf : string * Filter) : bool :=
  match parsed m (fst kf) (snd kf) with
  | Ok v => match_ (snd kf) v
  | Raise _ => false
  end.

(** The regular expression matches the path, and every filter accepts the
    value parsed from its group. *)
Definition keeps (params : Params) (regex_ : regex) (path : string) : bool :=
  match re_search regex_ path with
  | Some m => forallb (accepts m) params
  | None => false
  end.

Definition passes (params : Params) (regex_ : regex) (path : string) : Prop :=
  exists m,
    re_search regex_ path = Some m
    /\ forall k f, In (k, f) params ->
         exists v, parsed m k f = Ok v /\ match_ f v = true.

(** If the regular expression matches the path, every filter can parse its
    group. *)
Definition parses (params : Params) (regex_ : regex) (path : string) : Prop :=
  forall m, re_search regex_ path = Some m ->
    forall k f, In (k, f) params -> exists v, parsed m k f = Ok v.

(** The same as a test. *)
Definition can_parse (params : Params) (regex_ : regex) (path : string)
  : bool :=
  match re_search regex_ path with
  | Some m => forallb (fun kf => is_ok (parsed m (fst kf) (snd kf))) params
  | None => true
  end.

(** Some filter fails, with [e], to parse its group in the match of the
    path. *)
Definition fails_to_parse (params : Params) (regex_ : regex) (path : string)
    (e : exn) : Prop :=
  exists m k f,
    re_search regex_ path = Some m /\ In (k, f) params
    /\ parsed m k f = Raise e.

(** [e] is the failure of the first of the candidates that cannot be
    parsed. *)
Definition first_failure (params : Params) (regex_ : regex)
    (paths : list string) (e : exn) : Prop :=
  exists before path after,
    paths = (before ++ path :: after)%list
    /\ Forall (parses params regex_) before
    /\ fails_to_parse params regex_ path e.

(** [v] is what the filter under [k] parses from [path]. *)
Definition parsed_from (regex_ : regex) (k : string) (f : Filter)
    (path : string) (v : option obj) : Prop :=
  exists m, re_search regex_ path = Some m /\ parsed m k f = Ok v.

(** The lists of identifiers are aligned with the list of files: the same
    keys as the filters, and under each key the values parsed from the
    files, file by file. *)
Definition aligned (params : Params) (regex_ : regex) (files : list string)
    (ids : Ids) : Prop :=
  Dict.keys ids = Dict.keys params
  /\ forall k f, In (k, f) params ->
       exists l, Dict.get ids k = Some l
                 /\ Forall2 (parsed_from regex_ k f) files l.

(** What one turn of the update loop does to the filter under its key. *)
Definition turn (self : FileSystemConnector) (k : string) (v : option obj)
    (f f' : Filter) : Prop :=
  match v with
  | Some _ => set_values f v = Ok f'
  | None =>
      match getattr_ self k with
      | Some a => set_values f a = Ok f'
      | None => f' = f
      end
  end.

(** The filter that the update loop leaves under a key: [f'] comes from [f]
    by the override [v] of the caller, or by the attribute of the instance
    when the override is [None], or is [f] itself. *)
Definition updated (self : FileSystemConnector) (kwargs : Kwargs)
    (k : string) (f f' : Filter) : Prop :=
  match Dict.get kwargs k with
  | Some (Some v) => set_values f (Some v) = Ok f'
  | Some None =>
      match getattr_ self k with
      | Some a => set_values f a = Ok f'
      | None => f' = f
      end
  | None => f' = f
  end.

(** The message of [__ensure_one_param] for the arguments of a loader. *)
Definition only_one : string :=
  "Only one of the parameters filename, identity can be specified .".

End Connector.

(** ** The filter classes

    Of the filter classes only [HexIDFilter] is at hand, with its default
    format and its [_parse_value]; the base class and the integer, date and
    string filters are described by sections 3 and 4.1 of the
    specification. *)

Module FilterModel.

Inductive variant : Type :=
| IntVariant | HexVariant | DateVariant | StringVariant.

(** A typed value of an identity dimension. *)
Inductive value : Type :=
| VInt (z : Z)
| VStr (s : string)
| VDate (y m d : Z).

(** Modelled from the spec: the query state of a filter (the base class of the
    filters is missing), "exactly one of: unconstrained, single value, set of
    values, inclusive range (min, max)". *)
Inductive query : Type :=
| Unconstrained
| Single (v : value)
| OneOf (vs : list value)
| Range (lo hi : value).

(** Modelled from the spec: the attributes of a filter (the base class of the
    filters is missing): name, print format and query state. *)
Record Filter : Type := mkFilter {
  variant_of : variant;
  name : option string;
  print_format : string;
  values : query
}.

(** The Python objects of the model. *)
Inductive obj : Type :=
| OValue (v : value)
| OList (vs : list value)          (* a list of values *)
| OTuple (lo hi : value)           (* a pair (min, max) *)
| OFilter (f : Filter)
| OMethod (name : string).         (* a bound method *)

Definition value_eqb (a b : value) : bool :=
  match a, b with
  | VInt x, VInt y => x =? y
  | VStr x, VStr y => String.eqb x y
  | VDate y1 m1 d1, VDate y2 m2 d2 => (y1 =? y2) && (m1 =? m2) && (d1 =? d2)
  | _, _ => false
  end.

(** Order within one domain: integers by size, strings and dates
    lexicographically; values of different domains are unrelated. *)
Definition value_leb (a b : value) : bool :=
  match a, b with
  | VInt x, VInt y => x <=? y
  | VStr x, VStr y => String.leb x y
  | VDate y1 m1 d1, VDate y2 m2 d2 =>
      (y1 <? y2) || ((y1 =? y2) && ((m1 <? m2) || ((m1 =? m2) && (d1 <=? d2))))
  | _, _ => false
  end.

(** [HexIDFilter.__init__]: the format defaults to ['0x{:x}']. *)
Definition HexIDFilter (name format : option string) : Filter :=
  let format := match format with Some f => f | None => "0x{:x}" end in
  mkFilter HexVariant name format Unconstrained.

(** Modelled from the spec: the constructors of the integer, date and string
    filters (their modules are missing): a fresh filter is unconstrained; a
    format that is not given is the plain ['{}']. *)
Definition new_filter (v : variant) (name format : option string) : Filter :=
  let format := match format with Some f => f | None => "{}" end in
  mkFilter v name format Unconstrained.

(** Modelled from the spec: [set_query] (the [values] setter of the missing
    base class): "stores the query mode", replacing the former one.  [None]
    is no constraint, a value a single-value query, a list a set, a pair a
    range; given another filter, the filter takes over that filter's query. *)
Definition set_query (f : Filter) (o : option obj) : result Filter :=
  let put q := Ok (mkFilter (variant_of f) (name f) (print_format f) q) in
  match o with
  | None => put Unconstrained
  | Some (OValue v) => put (Single v)
  | Some (OList vs) => put (OneOf vs)
  | Some (OTuple lo hi) => put (Range lo hi)
  | Some (OFilter g) => put (values g)
  | Some (OMethod _) => Raise (InvalidQueryError "not a query")
  end.

Definition iso_date (y m d : Z) : string :=
  Py.format_zero 10 4 y ++ "-" ++ Py.format_zero 10 2 m ++ "-"
  ++ Py.format_zero 10 2 d.

(** [str(v)]. *)
Definition str (v : value) : string :=
  match v with
  | VInt z => Py.format_zero 10 0 z
  | VStr s => s
  | VDate y m d => iso_date y m d
  end.

(** Modelled from the spec: [format_value] (of the missing base class):
    "renders a concrete value using print_format; fails with FormattingError
    on type mismatch".  The print formats are those the connector and
    [HexIDFilter] use. *)
Definition format_value (f : Filter) (v : value) : result string :=
  let fmt := print_format f in
  let mismatch := Raise (FormattingError fmt) in
  if String.eqb fmt "{:016x}" then
    match v with VInt z => Ok (Py.format_zero 16 16 z) | _ => mismatch end
  else if String.eqb fmt "0x{:x}" then
    match v with VInt z => Ok ("0x" ++ Py.format_zero 16 0 z) | _ => mismatch end
  else if String.eqb fmt "{:05d}" then
    match v with VInt z => Ok (Py.format_zero 10 5 z) | _ => mismatch end
  else if String.eqb fmt "{:06d}" then
    match v with VInt z => Ok (Py.format_zero 10 6 z) | _ => mismatch end
  else if String.eqb fmt "{:%Y-%m-%d}" then
    match v with VDate y m d => Ok (iso_date y m d) | _ => mismatch end
  else if String.eqb fmt "{}" then Ok (str v)
  else mismatch.

(** Modelled from the spec: [glob_fragment] (the [get_glob_pattern] of the
    missing base class): the formatted value for a single-value query, else
    the wildcard of the variant. *)
Definition glob_fragment (f : Filter) : result string :=
  match values f with
  | Single v => format_value f v
  | _ =>
      Ok match variant_of f with
         | HexVariant => "[0-9a-f]*"
         | IntVariant => "[0-9]*"
         | DateVariant => "????-??-??"
         | StringVariant => "*"
         end
  end.

(** [HexIDFilter._parse_value]. *)
Definition _parse_value (raw : option string) : result Z := Py.int raw 16.

Fixpoint all_digits (s : string) : bool :=
  match s with
  | EmptyString => true
  | String c r =>
      match Py.digit_val 10 c with
      | Some _ => all_digits r
      | None => false
      end
  end.

Definition days_in_month (y m : Z) : Z :=
  if (m =? 4) || (m =? 6) || (m =? 9) || (m =? 11) then 30
  else if m =? 2 then
    if ((y mod 4 =? 0) && negb (y mod 100 =? 0)) || (y mod 400 =? 0)
    then 29 else 28
  else 31.

(** A sequence of decimal digits as a number. *)
Definition number (s : string) : option Z :=
  if all_digits s then
    match Py.int_of_str 10 s with Ok z => Some z | Raise _ => None end
  else None.

(** Modelled from the spec: the date filter's parser (its module is
    missing): "parse against the ISO YYYY-MM-DD pattern". *)
Definition parse_date (s : string) : option value :=
  if (String.length s =? 10)%nat
     && String.eqb (Py.take 1 (Py.drop 4 s)) "-"
     && String.eqb (Py.take 1 (Py.drop 7 s)) "-"
  then
    match number (Py.take 4 s), number (Py.take 2 (Py.drop 5 s)),
          number (Py.drop 8 s) with
    | Some y, Some m, Some d =>
        if (1 <=? y) && (1 <=? m) && (m <=? 12) && (1 <=? d)
           && (d <=? days_in_month y m)
        then Some (VDate y m d) else None
    | _, _, _ => None
    end
  else None.

(** Modelled from the spec: [parse_value] (of the missing base class and of
    the integer, date and string filters): "Integer variant: base-10 parse.
    Hex variant: base-16 parse.  Date variant: parse against the ISO
    YYYY-MM-DD pattern.  String variant: identity.  Fails with ParseError if
    the raw token is not well-formed for the variant".  The hex variant is
    [HexIDFilter._parse_value], with the exceptions of [int]. *)
Definition parse_value_ (f : Filter) (raw : option string)
  : result (option obj) :=
  match variant_of f with
  | HexVariant =>
      (z <- _parse_value raw ;; Ok (Some (OValue (VInt z))))%res
  | IntVariant =>
      match Py.int raw 10 with
      | Ok z => Ok (Some (OValue (VInt z)))
      | Raise _ => Raise (ParseError "not an integer")
      end
  | DateVariant =>
      match raw with
      | Some s =>
          match parse_date s with
          | Some v => Ok (Some (OValue v))
          | None => Raise (ParseError "not a date")
          end
      | None => Raise (ParseError "not a date")
      end
  | StringVariant => Ok (option_map (fun s => OValue (VStr s)) raw)
  end.

(** Modelled from the spec: [matches] on a query state (the [match] of the
    missing base class): "unconstrained: always true.  Single: equality.
    Set: membership.  Range: min <= value <= max (inclusive both ends)". *)
Definition matches_query (q : query) (v : value) : bool :=
  match q with
  | Unconstrained => true
  | Single x => value_eqb v x
  | OneOf vs => existsb (value_eqb v) vs
  | Range lo hi => value_leb lo v && value_leb v hi
  end.

(** [f.match(x)] for an object; only a typed value can satisfy a
    constraint. *)
Definition matches (f : Filter) (x : option obj) : bool :=
  match values f, x with
  | Unconstrained, _ => true
  | q, Some (OValue v) => matches_query q v
  | _, _ => false
  end.

(** The filters as the connector sees them.  Its [HexFilter] comes from a
    module that is missing; the hexadecimal filter at hand stands for it. *)
#[export] Instance filter_ops : FilterOps Filter obj := {
  IntFilter := new_filter IntVariant;
  HexFilter := HexIDFilter;
  DateFilter := new_filter DateVariant;
  StringFilter := new_filter StringVariant;
  set_values := set_query;
  get_glob_pattern := glob_fragment;
  parse_value := parse_value_;
  match_ := matches;
  filter_obj := OFilter;
  str_obj := fun s => OValue (VStr s)
}.

End FilterModel.

(** ** A platform to run the connector on

    The connector takes its regular expressions, its templates and the state
    of the file system from outside.  What follows is one such outside: file
    name patterns of fixed length, POSIX paths, and a small directory tree. *)

(** Regular expressions of the shape [p1 p2 ... pn\Z], where each [pi] is
    literal text, [c{n}] for a character class [c], or a named group
    [(?P<name>...)] of such.  A match has a fixed length and ends where the
    string ends, so [re.search] has one place to look at. *)
Module Regex.

Inductive cls : Type :=
| Digit      (* [0-9] *)
| Hex        (* [0-9a-fA-F] *)
| AnyChar.   (* . *)

Inductive atom : Type :=
| Chars (c : cls) (n : nat)
| Text (s : string).

Inductive piece : Type :=
| Plain (a : atom)
| Named (name : string) (body : list atom).

Definition pattern : Type := list piece.

Definition in_cls (c : cls) (a : ascii) : bool :=
  match c with
  | Digit => match Py.digit_val 10 a with Some _ => true | None => false end
  | Hex => match Py.digit_val 16 a with Some _ => true | None => false end
  | AnyChar => negb (Ascii.eqb a "010")
  end.

Fixpoint match_chars (c : cls) (n : nat) (s : string) : option string :=
  match n with
  | O => Some s
  | S n' =>
      match s with
      | String a r => if in_cls c a then match_chars c n' r else None
      | EmptyString => None
      end
  end.

Fixpoint match_text (t s : string) : option string :=
  match t with
  | EmptyString => Some s
  | String a t' =>
      match s with
      | String b r => if Ascii.eqb a b then match_text t' r else None
      | EmptyString => None
      end
  end.

Definition match_atom (a : atom) (s : string) : option string :=
  match a with
  | Chars c n => match_chars c n s
  | Text t => match_text t s
  end.

Fixpoint match_atoms (l : list atom) (s : string) : option string :=
  match l with
  | [] => Some s
  | a :: l' =>
      match match_atom a s with
      | Some r => match_atoms l' r
      | None => None
      end
  end.

Definition atom_len (a : atom) : nat :=
  match a with
  | Chars _ n => n
  | Text t => String.length t
  end.

Definition atoms_len (l : list atom) : nat :=
  fold_right (fun a n => (atom_len a + n)%nat) O l.

Definition piece_len (p : piece) : nat :=
  match p with
  | Plain a => atom_len a
  | Named _ body => atoms_len body
  end.

Definition pattern_len (p : pattern) : nat :=
  fold_right (fun x n => (piece_len x + n)%nat) O p.

(** Match the pieces at the head of [s]; collect the text of the groups. *)
Fixpoint match_pieces (p : pattern) (s : string) (groups : Dict.t (option string))
  : option (string * Dict.t (option string)) :=
  match p with
  | [] => Some (s, groups)
  | Plain a :: p' =>
      match match_atom a s with
      | Some r => match_pieces p' r groups
      | None => None
      end
  | Named name body :: p' =>
      match match_atoms body s with
      | Some r =>
          match_pieces p' r
            (Dict.set groups name (Some (Py.take (atoms_len body) s)))
      | None => None
      end
  end.

(** [re.search(p, s)]. *)
Definition search (p : pattern) (s : string) : option (Dict.t (option string)) :=
  let l := pattern_len p in
  let n := String.length s in
  if (l <=? n)%nat then
    match match_pieces p (Py.drop (n - l) s) [] with
    | Some (EmptyString, groups) => Some groups
    | _ => None
    end
  else None.

End Regex.

(** [posixpath]. *)
Module Posix.

Definition starts_with (p s : string) : bool := String.prefix p s.

Definition ends_with_slash (s : string) : bool :=
  match rev (list_ascii_of_string s) with
  | c :: _ => Ascii.eqb c "/"
  | [] => false
  end.

Definition join2 (path b : string) : string :=
  if starts_with "/" b then b
  else if String.eqb path "" || ends_with_slash path then path ++ b
  else path ++ "/" ++ b.

Definition join_all (a : string) (rest : list string) : string :=
  fold_left join2 rest a.

Fixpoint drop_slashes (l : list ascii) : list ascii :=
  match l with
  | c :: l' => if Ascii.eqb c "/" then drop_slashes l' else l
  | [] => []
  end.

Definition rstrip_slashes (s : string) : string :=
  string_of_list_ascii (rev (drop_slashes (rev (list_ascii_of_string s)))).

Definition norm_step (rooted : bool) (acc : list string) (comp : string)
  : list string :=
  if String.eqb comp "" || String.eqb comp "." then acc
  else if negb (String.eqb comp "..")
          || (negb rooted && Nat.eqb (List.length acc) 0)
          || String.eqb (last acc "") ".."
  then (acc ++ [comp])%list
  else removelast acc.

Definition normpath (path : string) : string :=
  if String.eqb path "" then "." else
  let slashes :=
    if starts_with "/" path then
      if starts_with "//" path && negb (starts_with "///" path)
      then "//" else "/"
    else "" in
  let rooted := negb (String.eqb slashes "") in
  let comps := fold_left (norm_step rooted) (split "/" path) [] in
  let p := slashes ++ String.concat "/" comps in
  if String.eqb p "" then "." else p.

(** [abspath] in the working directory [cwd]. *)
Definition absolute (cwd path : string) : string :=
  if starts_with "/" path then normpath path
  else normpath (join2 cwd path).

Definition split_path (p : string) : string * string :=
  let tail := last (split "/" p) "" in
  let head := Py.take (String.length p - String.length tail) p in
  let head := if String.eqb (rstrip_slashes head) "" then head
              else rstrip_slashes head in
  (head, tail).

Definition dirname (p : string) : string := fst (split_path p).

End Posix.

Module Example.

Import FilterModel Regex.

(** [str(o)]; the values have a text form. *)
Definition str_of (o : option obj) : result string :=
  match o with
  | None => Ok "None"
  | Some (OValue v) => Ok (str v)
  | Some _ => Raise (ValueError "no text form")
  end.

Definition field_value (name : string) (kw : Dict.t (option obj))
  : result string :=
  if String.eqb name "" then
    Raise (IndexError "Replacement index 0 out of range for positional args tuple")
  else
    match Dict.get kw name with
    | Some o => str_of o
    | None => Raise (KeyError name)
    end.

(** [template.format] with keyword arguments, for templates whose fields are
    plain names: [{name}], with [{{] and [}}] for the braces.  [field] is the
    name being read, if any. *)
Fixpoint format_from (s : string) (field : option string)
    (kw : Dict.t (option obj)) : result string :=
  match s with
  | EmptyString =>
      match field with
      | None => Ok ""
      | Some _ => Raise (ValueError "expected '}' before end of string")
      end
  | String c r =>
      match field with
      | None =>
          if Ascii.eqb c "{" then
            match r with
            | String "{" r' =>
                (out <- format_from r' None kw ;; Ok (String "{" out))%res
            | _ => format_from r (Some "") kw
            end
          else if Ascii.eqb c "}" then
            match r with
            | String "}" r' =>
                (out <- format_from r' None kw ;; Ok (String "}" out))%res
            | _ => Raise (ValueError "Single '}' encountered in format string")
            end
          else (out <- format_from r None kw ;; Ok (String c out))%res
      | Some nm =>
          if Ascii.eqb c "}" then
            (v <- field_value nm kw ;;
             out <- format_from r None kw ;;
             Ok (v ++ out))%res
          else format_from r (Some (nm ++ String c "")) kw
      end
  end.

Definition format (template : string) (kw : Dict.t (option obj))
  : result string := format_from template None kw.

Definition design_regex : Regex.pattern :=
  [Plain (Text "pfsDesign-0x"); Named "pfsDesignId" [Chars Hex 16];
   Plain (Text ".fits")].

Definition config_name : Regex.pattern :=
  [Plain (Text "pfsConfig-0x"); Named "pfsDesignId" [Chars Hex 16];
   Plain (Text "-"); Named "visit" [Chars Digit 6]; Plain (Text ".fits")].

Definition config_path : Regex.pattern :=
  Named "date" [Chars Digit 4; Text "-"; Chars Digit 2; Text "-"; Chars Digit 2]
  :: Plain (Text "/") :: config_name.

Definition single_regex : Regex.pattern :=
  [Plain (Text "pfsSingle-"); Named "catId" [Chars Digit 5]; Plain (Text "-");
   Named "tract" [Chars Digit 5]; Plain (Text "-");
   Named "patch" [Chars Digit 1; Text ","; Chars Digit 1]; Plain (Text "-");
   Named "objId" [Chars Hex 16]; Plain (Text "-");
   Named "visit" [Chars Digit 6]; Plain (Text ".fits")].

(** The design files under [/data]: two well-formed names and one that the
    glob expression admits and the regular expression does not. *)
Definition design_files : list string :=
  ["/data/pfsDesign/pfsDesign-0x000000000000002a.fits";
   "/data/pfsDesign/pfsDesign-0x2a.fits";
   "/data/pfsDesign/pfsDesign-0x000000000000002b.fits"].

(** The configuration files under [/data], of visits 99, 100, 105 and 106. *)
Definition config_files : list string :=
  ["/data/pfsConfig/2024-05-01/pfsConfig-0x000000000000002a-000099.fits";
   "/data/pfsConfig/2024-05-01/pfsConfig-0x000000000000002a-000100.fits";
   "/data/pfsConfig/2024-05-02/pfsConfig-0x000000000000002a-000105.fits";
   "/data/pfsConfig/2024-05-02/pfsConfig-0x000000000000002b-000106.fits"].

(** A second tree, [/scratch]: a design file whose identifier has a letter
    that is no hexadecimal digit, and a configuration file in a directory
    named after a date that does not exist. *)
Definition scratch_design_files : list string :=
  ["/scratch/pfsDesign/pfsDesign-0x0000000000000g2a.fits";
   "/scratch/pfsDesign/pfsDesign-0x000000000000002a.fits"].

Definition scratch_config_files : list string :=
  ["/scratch/pfsConfig/2024-13-45/pfsConfig-0x000000000000002a-000100.fits";
   "/scratch/pfsConfig/2024-05-01/pfsConfig-0x000000000000002a-000100.fits"].

(** What [glob] lists for the expressions that queries on these trees lead
    to. *)
Definition listing (pattern : string) : list string :=
  if String.eqb pattern "/data/pfsDesign/pfsDesign-0x[0-9a-f]*.fits"
  then design_files
  else if String.eqb pattern
            "/data/pfsDesign/pfsDesign-0x000000000000002a.fits"
  then ["/data/pfsDesign/pfsDesign-0x000000000000002a.fits"]
  else if String.eqb pattern
            "/data/pfsConfig/????-??-??/pfsConfig-0x[0-9a-f]*-[0-9]*.fits"
  then config_files
  else if String.eqb pattern "/scratch/pfsDesign/pfsDesign-0x[0-9a-f]*.fits"
  then scratch_design_files
  else if String.eqb pattern
            "/scratch/pfsConfig/????-??-??/pfsConfig-0x[0-9a-f]*-[0-9]*.fits"
  then scratch_config_files
  else [].

(** The platform, with the environment variables left open. *)
Definition platform_with (environ : Dict.t string) : Platform obj := {|
  regex := Regex.pattern;
  re_search := Regex.search;
  os_sep := "/"%char;
  os_path_join := Posix.join_all;
  os_path_abspath := Posix.absolute "/home/user";
  os_path_split := Posix.split_path;
  os_path_dirname := Posix.dirname;
  str_format := format;
  fs_glob := listing;
  os_environ := environ
|}.

#[export] Instance platform : Platform obj :=
  platform_with
    [("GAPIPE_DATADIR", "/data"); ("GAPIPE_RERUNDIR", "rerun/run1")].

#[export] Instance constants : ConstantsT obj := {
  PFSDESIGN_DIR_GLOB := "pfsDesign";
  PFSDESIGN_DIR_FORMAT := "pfsDesign";
  PFSDESIGN_FILENAME_GLOB := "pfsDesign-0x{pfsDesignId}.fits";
  PFSDESIGN_FILENAME_REGEX := design_regex;
  PFSCONFIG_DIR_GLOB := "pfsConfig/{date}/";
  PFSCONFIG_DIR_FORMAT := "pfsConfig/{date}/";
  PFSCONFIG_FILENAME_GLOB := "pfsConfig-0x{pfsDesignId}-{visit}.fits";
  PFSCONFIG_FILENAME_REGEX := config_name;
  PFSCONFIG_PATH_REGEX := config_path;
  PFSSINGLE_DIR_GLOB := "pfsSingle/{catId}/{tract}/{patch}";
  PFSSINGLE_DIR_FORMAT := "pfsSingle/{catId}/{tract}/{patch}";
  PFSSINGLE_FILENAME_GLOB := "pfsSingle-{catId}-{tract}-{patch}-{objId}-{visit}.fits";
  PFSSINGLE_FILENAME_REGEX := single_regex
}.

(** Readers that answer with the name of what they were asked for. *)
#[export] Instance datamodel : Datamodel obj := {
  product := string;
  PfsDesign_read := fun _ dir => Ok ("PfsDesign in " ++ dir);
  PfsConfig_read := fun _ _ dir => Ok ("PfsConfig in " ++ dir);
  PfsSingle_read := fun _ dir => Ok ("PfsSingle in " ++ dir)
}.

Definition methods : list string :=
  ["get_datadir"; "get_rerundir";
   "parse_pfsDesign"; "find_pfsDesign"; "locate_pfsDesign"; "load_pfsDesign";
   "parse_pfsConfig"; "find_pfsConfig"; "locate_pfsConfig"; "load_pfsConfig";
   "find_pfsArm"; "find_pfsMerged";
   "parse_pfsSingle"; "find_pfsSingle"; "locate_pfsSingle"; "load_pfsSingle";
   "find_pfsObject"].

#[export] Instance instance_attrs : InstanceAttrs obj := {
  other_attr := fun k =>
    if contains methods k then Some (Some (OMethod k)) else None
}.

(** [FileSystemConnector()], then the same with its visit filter given the
    range 100 to 105 ([connector.visit.values = (100, 105)]). *)
Definition connector : FileSystemConnector := __init__ None None None.

Definition connector_visits : FileSystemConnector :=
  {| __datadir := __datadir connector;
     __rerundir := __rerundir connector;
     __pfsDesignId := __pfsDesignId connector;
     __catId := __catId connector;
     __tract := __tract connector;
     __patch := __patch connector;
     __objId := __objId connector;
     __visit := mkFilter IntVariant (Some "visit") "{:06d}"
                  (Range (VInt 100) (VInt 105));
     __date := __date connector |}.

(** [FileSystemConnector()] where neither [GAPIPE_DATADIR] nor
    [GAPIPE_RERUNDIR] is set. *)
Definition connector_unset : FileSystemConnector :=
  @__init__ _ _ _ (platform_with []) None None None.

(** The arguments of the searches for design files under [/data] and under
    [/scratch], and the glob expressions they lead to. *)
Definition design_patterns : list string :=
  ["/data"; "pfsDesign"; "pfsDesign-0x{pfsDesignId}.fits"].

Definition design_glob : string :=
  "/data/pfsDesign/pfsDesign-0x[0-9a-f]*.fits".

Definition scratch_patterns : list string :=
  ["/scratch"; "pfsDesign"; "pfsDesign-0x{pfsDesignId}.fits"].

Definition scratch_glob : string :=
  "/scratch/pfsDesign/pfsDesign-0x[0-9a-f]*.fits".

Definition design_fields : Params := __get_pfsDesign_identity_fields.

Definition config_fields : Params := __get_pfsConfig_identity_fields.

(** [pfsDesign-0x(?P<pfsDesignId>.{16})\.fits\Z]: sixteen characters of
    any kind for the identifier. *)
Definition loose_design_regex : Regex.pattern :=
  [Plain (Text "pfsDesign-0x"); Named "pfsDesignId" [Chars AnyChar 16];
   Plain (Text ".fits")].

(** The query [visit=(100, 105)]. *)
Definition visits_100_105 : Kwargs :=
  [("visit", Some (OTuple (VInt 100) (VInt 105)))].

(** The arguments of the search for configuration files under [/data]. *)
Definition config_patterns : list string :=
  ["/data"; "pfsConfig/{date}/"; "pfsConfig-0x{pfsDesignId}-{visit}.fits"].

Definition config_glob : string :=
  "/data/pfsConfig/????-??-??/pfsConfig-0x[0-9a-f]*-[0-9]*.fits".

(** Some of the files, by name. *)
Definition design_2a : string :=
  "/data/pfsDesign/pfsDesign-0x000000000000002a.fits".
Definition design_2b : string :=
  "/data/pfsDesign/pfsDesign-0x000000000000002b.fits".
Definition design_short : string := "/data/pfsDesign/pfsDesign-0x2a.fits".
Definition scratch_bad : string :=
  "/scratch/pfsDesign/pfsDesign-0x0000000000000g2a.fits".
Definition scratch_good : string :=
  "/scratch/pfsDesign/pfsDesign-0x000000000000002a.fits".
Definition visit_100 : string :=
  "/data/pfsConfig/2024-05-01/pfsConfig-0x000000000000002a-000100.fits".
Definition visit_105 : string :=
  "/data/pfsConfig/2024-05-02/pfsConfig-0x000000000000002a-000105.fits".

(** What the search for the visits 100 to 105 returns. *)
Definition visits_found : list string * Ids :=
  ([visit_100; visit_105],
   [("pfsDesignId", [Some (OValue (VInt 42)); Some (OValue (VInt 42))]);
    ("visit", [Some (OValue (VInt 100)); Some (OValue (VInt 105))]);
    ("date", [Some (OValue (VDate 2024 5 1)); Some (OValue (VDate 2024 5 2))])]).

(** A visit filter with the range 100 to 105, and the filters of other
    query modes. *)
Definition visit_range : Filter :=
  mkFilter IntVariant (Some "visit") "{:06d}" (Range (VInt 100) (VInt 105)).
Definition visit_any : Filter :=
  mkFilter IntVariant (Some "visit") "{:06d}" Unconstrained.
Definition visit_one : Filter :=
  mkFilter IntVariant (Some "visit") "{:06d}" (Single (VInt 100)).
Definition visit_set : Filter :=
  mkFilter IntVariant (Some "visit") "{:06d}" (OneOf [VInt 99; VInt 100]).

(** The query [pfsDesignId=42]. *)
Definition design_42 : Kwargs := [("pfsDesignId", Some (OValue (VInt 42)))].

(** Overrides for a search of configuration files: no visit given, and the
    design 42. *)
Definition overrides : Kwargs :=
  [("visit", None); ("pfsDesignId", Some (OValue (VInt 42)))].

End Example.

(** ** What a call found, and what it did on the way *)

Section Outcomes.

Context {Filter obj : Type}.
Context {FO : FilterOps Filter obj} {PF : Platform obj}.
Context {CS : ConstantsT obj} {DM : Datamodel obj} {IA : InstanceAttrs obj}.

(** [path], with the record [identity], is the one candidate of a query
    that passes the filters. *)
Definition located (self : FileSystemConnector) (patterns : list string)
    (params : Params) (kwargs : Kwargs) (regex_ : regex) (path : string)
    (identity : Identity) : Prop :=
  exists params' pattern,
    update_params self params kwargs = Ok params'
    /\ glob_expression patterns params' = Ok pattern
    /\ filter (keeps params' regex_) (fs_glob pattern) = [path]
    /\ passes params' regex_ path
    /\ forall k f, In (k, f) params' ->
         exists v, Dict.get identity k = Some v
                   /\ parsed_from regex_ k f path v.

End Outcomes.

(** What [get_datadir] and [get_rerundir] add to the trace: nothing, or one
    warning. *)
Definition at_most_a_warning (tail : list event) : Prop :=
  tail = [] \/ exists message, tail = [LogWarning message].

Definition is_warning (ev : event) : Prop :=
  exists message, ev = LogWarning message.

(** The outcome of a loader that does not search: an exception with the
    trace as it was, or the trace with one more event, the call of the
    reader. *)
Definition reads_at_most_once {A} (product_ : string) (w : list event)
    (out : result A * list event) : Prop :=
  (exists e, out = (Raise e, w))
  \/ (exists dir, snd out = (w ++ [Read product_ dir])%list).

(** The outcome of a search: some warnings, then an exception, or then the
    one call of [glob] and nothing after it. *)
Definition searches_at_most_once {A} (w : list event)
    (out : result A * list event) : Prop :=
  exists warnings,
    Forall is_warning warnings
    /\ ((exists e, out = (Raise e, (w ++ warnings)%list))
        \/ (exists pattern,
              snd out = (w ++ warnings ++ [Glob pattern])%list)).

(** [datadir if datadir is not None else fallback], as [__init__] has it. *)
Definition or_else {A} (x fallback : option A) : option A :=
  match x with
  | Some _ => x
  | None => fallback
  end.

(** * Command-line scripts

    [python/pfs/ga/pipeline/scripts/script.py], class [Script].  The
    [ArgumentParser] is the list of the arguments added to it; what it makes
    of the command line is a parameter of [execute]. *)

Module ScriptModel.

(** The values that parsed arguments take. *)
Inductive arg_value : Type :=
| ANone
| ABool (b : bool)
| AInt (n : Z)
| AText (s : string).

(** One call of [add_argument]: the flags, and the keyword arguments. *)
Record argument : Type := {
  arg_flags : list string;
  arg_options : Dict.t arg_value
}.

Record Script : Type := {
  __debug : arg_value;
  __loglevel : Z;
  __parser : list argument;
  __args : option (Dict.t arg_value)    (* no such attribute before
                                           [__parse_args] *)
}.

Definition logging_INFO : Z := 20.

(** [Script()]. *)
Definition new_script : Script :=
  {| __debug := ABool false;
     __loglevel := logging_INFO;
     __parser := [];
     __args := None |}.

Definition debug (self : Script) : arg_value := __debug self.
Definition loglevel (self : Script) : Z := __loglevel self.

Definition is_None (v : arg_value) : bool :=
  match v with ANone => true | _ => false end.

(** [v == ''] *)
Definition is_empty_text (v : arg_value) : bool :=
  match v with AText EmptyString => true | _ => false end.

Definition no_args : exn :=
  AttributeError "'Script' object has no attribute '_Script__args'".

Definition _add_arg (self : Script) (flags : list string)
    (options : Dict.t arg_value) : Script :=
  {| __debug := __debug self;
     __loglevel := __loglevel self;
     __parser := (__parser self
                  ++ [{| arg_flags := flags; arg_options := options |}])%list;
     __args := __args self |}.

Definition _get_arg (self : Script) (name : string)
    (args : option (Dict.t arg_value)) (default : arg_value)
  : result arg_value :=
  (args <- match args with
           | Some a => Ok a
           | None => match __args self with
                     | Some a => Ok a
                     | None => Raise no_args
                     end
           end ;;
   if Dict.mem args name then
     (v <- Dict.item args name ;;
      if negb (is_None v) && negb (is_empty_text v) then Ok v
      else Ok default)
   else Ok default)%res.

Definition _add_args (self : Script) : Script :=
  _add_arg self ["--debug"]
    [("action", AText "store_true"); ("help", AText "Enable debug mode")].




Section Execute.

(** [ArgumentParser.parse_args], of the arguments added and of the command
    line: the [__dict__] of the namespace, or [None] when it ends the
    process. *)
Variable parse_args : list argument -> option (Dict.t arg_value).

(** What [self.run] is in the class of [self]. *)
Variable self_run : Script -> result unit * Script.



End Execute.

End ScriptModel.

(** ** A second tree

    Under [/data], a rerun with one single-object file; under [/archive],
    a design directory whose only file has a name that the glob expression
    admits and the regular expression does not. *)

Module Reruns.

Import FilterModel Regex Example.

Definition single_file : string :=
  "/data/rerun/run1/pfsSingle/00001/00001/1,1/pfsSingle-00001-00001-1,1-000000000000002a-000100.fits".

Definition single_glob : string :=
  "/data/rerun/run1/pfsSingle/[0-9]*/[0-9]*/*/pfsSingle-[0-9]*-[0-9]*-*-[0-9a-f]*-[0-9]*.fits".

Definition archive_patterns : list string :=
  ["/archive"; "pfsDesign"; "pfsDesign-0x{pfsDesignId}.fits"].

Definition archive_glob : string :=
  "/archive/pfsDesign/pfsDesign-0x[0-9a-f]*.fits".

Definition archive_files : list string :=
  ["/archive/pfsDesign/pfsDesign-0x2a.fits"].

Definition rerun_listing (pattern : string) : list string :=
  if String.eqb pattern single_glob then [single_file]
  else if String.eqb pattern archive_glob then archive_files
  else if String.eqb pattern visit_100 then [visit_100]
  else listing pattern.

Definition rerun_platform : Platform obj := {|
  regex := Regex.pattern;
  re_search := Regex.search;
  os_sep := "/"%char;
  os_path_join := Posix.join_all;
  os_path_abspath := Posix.absolute "/home/user";
  os_path_split := Posix.split_path;
  os_path_dirname := Posix.dirname;
  str_format := format;
  fs_glob := rerun_listing;
  os_environ := [("GAPIPE_DATADIR", "/data"); ("GAPIPE_RERUNDIR", "rerun/run1")]
|}.

Definition rerun_constants : @ConstantsT obj rerun_platform :=
  @Build_ConstantsT obj rerun_platform
    "pfsDesign" "pfsDesign" "pfsDesign-0x{pfsDesignId}.fits" design_regex
    "pfsConfig/{date}/" "pfsConfig/{date}/"
    "pfsConfig-0x{pfsDesignId}-{visit}.fits" config_name config_path
    "pfsSingle/{catId}/{tract}/{patch}" "pfsSingle/{catId}/{tract}/{patch}"
    "pfsSingle-{catId}-{tract}-{patch}-{objId}-{visit}.fits" single_regex.

(** [FileSystemConnector()] on this tree. *)
Definition rerun_connector : FileSystemConnector :=
  @__init__ _ _ _ rerun_platform None None None.

(** What the single-object file says of itself. *)
Definition single_identity : Identity :=
  [("catId", Some (OValue (VInt 1)));
   ("tract", Some (OValue (VInt 1)));
   ("patch", Some (OValue (VStr "1,1")));
   ("objId", Some (OValue (VInt 42)));
   ("visit", Some (OValue (VInt 100)))].

(** The record of the design 42, and that of the visit 100. *)
Definition identity_42 : Identity := [("pfsDesignId", Some (OValue (VInt 42)))].

Definition identity_100 : Identity :=
  [("pfsDesignId", Some (OValue (VInt 42)));
   ("visit", Some (OValue (VInt 100)));
   ("date", Some (OValue (VDate 2024 5 1)))].

(** The query for the visit 100 alone, as a range. *)
Definition visit_100_only : Kwargs :=
  [("visit", Some (OTuple (VInt 100) (VInt 100)))].

(** A query with a keyword that names no filter. *)
Definition design_42_in_red : Kwargs :=
  [("colour", Some (OValue (VStr "red")));
   ("pfsDesignId", Some (OValue (VInt 42)))].

(** A path that says nothing of where the data is. *)
Definition stray_path : string := "/tmp/file.fits".

(** The design 42 under another directory. *)
Definition design_2a_elsewhere : string :=
  "/elsewhere/pfsDesign-0x000000000000002a.fits".

End Reruns.

(** ** Scripts to run *)

Module ScriptExample.

Import ScriptModel.




(** A script after [execute] with [--debug]. *)
Definition debugged : Script :=
  {| __debug := ABool true;
     __loglevel := logging_INFO;
     __parser := __parser (_add_args new_script);
     __args := Some [("debug", ABool true)] |}.

End ScriptExample.

(** * Properties *)

(** ** Hexadecimal text and back *)

Module PyFacts.

Import Py.

Ltac each_digit d :=
  let H := fresh "H" in
  assert (H : d = 0 \/ d = 1 \/ d = 2 \/ d = 3 \/ d = 4 \/ d = 5 \/ d = 6
              \/ d = 7 \/ d = 8 \/ d = 9 \/ d = 10 \/ d = 11 \/ d = 12
              \/ d = 13 \/ d = 14 \/ d = 15) by (unfold is_digit16 in *; lia);
  repeat (destruct H as [H | H]); subst d.

Lemma digit_val_char (d : Z) :
  is_digit16 d -> digit_val 16 (digit_char d) = Some d.
Proof. intros Hd. each_digit d; reflexivity. Qed.

Lemma lstrip_char (d : Z) (r : string) :
  is_digit16 d -> lstrip (String (digit_char d) r) = String (digit_char d) r.
Proof. intros Hd. each_digit d; reflexivity. Qed.

Lemma int_sign_char (d : Z) (r : string) :
  is_digit16 d ->
  int_sign (String (digit_char d) r) = (false, String (digit_char d) r).
Proof. intros Hd. each_digit d; reflexivity. Qed.

Lemma int_prefix_chars (ds : list Z) :
  Forall is_digit16 ds ->
  int_prefix 16 (string_of_digits ds) = string_of_digits ds.
Proof.
  intros Hds. destruct Hds as [| d0 ds0 Hd0 Hds0]; [reflexivity |].
  destruct Hds0 as [| d1 ds1 Hd1 _].
  - each_digit d0; reflexivity.
  - each_digit d0; try reflexivity.
    each_digit d1; reflexivity.
Qed.

Lemma int_body_digits (ds : list Z) :
  Forall is_digit16 ds ->
  forall acc, int_body 16 (string_of_digits ds) acc
              = Some (horner 16 ds acc, EmptyString).
Proof.
  induction 1 as [| d ds Hd _ IH]; intros acc; [reflexivity |].
  unfold string_of_digits in *. cbn [map string_of_list_ascii int_body].
  rewrite (digit_val_char d Hd). apply IH.
Qed.

Lemma int_of_str_digits (d : Z) (ds : list Z) :
  Forall is_digit16 (d :: ds) ->
  int_of_str 16 (string_of_digits (d :: ds)) = Ok (horner 16 (d :: ds) 0).
Proof.
  intros Hall. pose proof Hall as Hall'.
  inversion Hall' as [| ? ? Hd Hds]; subst.
  unfold int_of_str.
  change (string_of_digits (d :: ds))
    with (String (digit_char d) (string_of_digits ds)) at 1.
  rewrite (lstrip_char d _ Hd), (int_sign_char d _ Hd).
  change (String (digit_char d) (string_of_digits ds))
    with (string_of_digits (d :: ds)).
  rewrite (int_prefix_chars _ Hall).
  change (string_of_digits (d :: ds))
    with (String (digit_char d) (string_of_digits ds)).
  cbv beta iota.
  rewrite (digit_val_char d Hd), (int_body_digits ds Hds).
  cbn [all_space horner fold_left]. reflexivity.
Qed.

Lemma horner_app (base : Z) (l1 l2 : list Z) (acc : Z) :
  horner base (l1 ++ l2) acc = horner base l2 (horner base l1 acc).
Proof. unfold horner. apply fold_left_app. Qed.

Lemma horner_zeros (base : Z) (n : nat) : horner base (repeat 0 n) 0 = 0.
Proof. induction n as [| n IH]; [reflexivity |]. cbn. exact IH. Qed.

(** The digits of a number: each below the base, and the number again when
    read from the left. *)
Lemma digits_spec (fuel : nat) :
  forall v, 0 <= v < 16 ^ Z.of_nat fuel ->
    (0 < fuel)%nat ->
    Forall is_digit16 (digits 16 fuel v)
    /\ horner 16 (digits 16 fuel v) 0 = v
    /\ digits 16 fuel v <> [].
Proof.
  induction fuel as [| f IH]; intros v Hv Hpos; [lia |].
  cbn [digits]. destruct (v <? 16) eqn:Hlt.
  - apply Z.ltb_lt in Hlt. split; [| split].
    + constructor; [unfold is_digit16; lia | constructor].
    + cbn. lia.
    + discriminate.
  - apply Z.ltb_ge in Hlt.
    assert (Hf : (0 < f)%nat).
    { destruct f; [cbn in Hv; lia | lia]. }
    assert (Hq : 0 <= v / 16 < 16 ^ Z.of_nat f).
    { split; [apply Z.div_pos; lia |].
      apply Z.div_lt_upper_bound; [lia |].
      rewrite Nat2Z.inj_succ, Z.pow_succ_r in Hv; lia. }
    destruct (IH (v / 16) Hq Hf) as (Hall & Hval & Hne).
    split; [| split].
    + apply Forall_app. split; [exact Hall |].
      constructor; [| constructor].
      unfold is_digit16. apply Z.mod_pos_bound. lia.
    + rewrite horner_app, Hval. cbn.
      pose proof (Z.div_mod v 16). lia.
    + intros Habs. apply app_eq_nil in Habs. destruct Habs; discriminate.
Qed.

Lemma digits_length (fuel : nat) :
  forall v n, 0 <= v < 16 ^ Z.of_nat n -> (0 < n)%nat ->
    (List.length (digits 16 fuel v) <= n)%nat.
Proof.
  induction fuel as [| f IH]; intros v n Hv Hn; [cbn; lia |].
  cbn [digits]. destruct (v <? 16) eqn:Hlt; [cbn; lia |].
  apply Z.ltb_ge in Hlt.
  destruct n as [| n]; [lia |].
  destruct n as [| n].
  - cbn in Hv. lia.
  - rewrite length_app. cbn [List.length].
    assert (Hq : 0 <= v / 16 < 16 ^ Z.of_nat (S n)).
    { split; [apply Z.div_pos; lia |].
      apply Z.div_lt_upper_bound; [lia |].
      rewrite (Nat2Z.inj_succ (S n)), Z.pow_succ_r in Hv; lia. }
    specialize (IH (v / 16) (S n) Hq ltac:(lia)). lia.
Qed.

Lemma to_digits_spec (v : Z) :
  0 <= v ->
  Forall is_digit16 (to_digits 16 v)
  /\ horner 16 (to_digits 16 v) 0 = v
  /\ to_digits 16 v <> [].
Proof.
  intros Hv. unfold to_digits. apply digits_spec; [| lia].
  split; [exact Hv |].
  rewrite Nat2Z.inj_succ, Z2Nat.id by apply Z.log2_nonneg.
  destruct (Z.eq_dec v 0) as [-> | Hne]; [cbn; lia |].
  assert (Hpos : 0 < v) by lia.
  pose proof (Z.log2_spec v Hpos) as [_ Hup].
  eapply Z.lt_le_trans; [exact Hup |].
  change 16 with (2 ^ 4).
  rewrite <- Z.pow_mul_r by (pose proof (Z.log2_nonneg v); lia).
  apply Z.pow_le_mono_r; pose proof (Z.log2_nonneg v); lia.
Qed.

(** [int(format(v, '0Nx'), 16) == v] for a non-negative [v], whatever the
    width. *)
Lemma int_format_zero (width : nat) (v : Z) :
  0 <= v -> int (Some (format_zero 16 width v)) 16 = Ok v.
Proof.
  intros Hv. unfold int, format_zero.
  assert (Hneg : (v <? 0) = false) by (apply Z.ltb_ge; lia).
  rewrite Hneg, Z.abs_eq by exact Hv.
  cbn [String.length Nat.sub append].
  destruct (to_digits_spec v Hv) as (Hall & Hval & Hne).
  set (pad := (width - 0 - List.length (to_digits 16 v))%nat).
  assert (Hall' : Forall is_digit16 (repeat 0 pad ++ to_digits 16 v)).
  { apply Forall_app. split; [| exact Hall].
    apply Forall_forall. intros x Hx. apply repeat_spec in Hx. subst x.
    unfold is_digit16. lia. }
  destruct (repeat 0 pad ++ to_digits 16 v)%list as [| d ds] eqn:Heq.
  - apply app_eq_nil in Heq. destruct Heq as [_ Heq]. contradiction.
  - rewrite (int_of_str_digits d ds Hall'), <- Heq, horner_app, horner_zeros.
    now rewrite Hval.
Qed.

Lemma length_string_of_digits (ds : list Z) :
  String.length (string_of_digits ds) = List.length ds.
Proof.
  unfold string_of_digits. induction ds as [| d ds IH]; [reflexivity |].
  cbn. now rewrite IH.
Qed.

(** A number of at most [width] digits is printed on exactly [width]
    characters. *)
Lemma length_format_zero (width : nat) (v : Z) :
  (0 < width)%nat -> 0 <= v < 16 ^ Z.of_nat width ->
  String.length (format_zero 16 width v) = width.
Proof.
  intros Hw Hv. unfold format_zero.
  assert (Hneg : (v <? 0) = false) by (apply Z.ltb_ge; lia).
  rewrite Hneg, Z.abs_eq by lia.
  cbn [String.length Nat.sub append].
  rewrite length_string_of_digits, length_app, repeat_length.
  pose proof (digits_length (S (Z.to_nat (Z.log2 v))) v width Hv Hw).
  unfold to_digits. lia.
Qed.

End PyFacts.

(** ** Dictionaries *)

Module DictFacts.

Section Facts.

Context {V : Type}.
Implicit Types (d : Dict.t V) (k : string) (v : V).

Lemma get_set_same d k v : Dict.get (Dict.set d k v) k = Some v.
Proof.
  induction d as [| [k' v'] d IH]; cbn.
  - now rewrite String.eqb_refl.
  - destruct (String.eqb k' k) eqn:E; cbn; rewrite E; [reflexivity | exact IH].
Qed.

Lemma get_set_other d k k' v :
  k' <> k -> Dict.get (Dict.set d k v) k' = Dict.get d k'.
Proof.
  intros Hne. induction d as [| [k0 v0] d IH]; cbn.
  - destruct (String.eqb k k') eqn:E; [| reflexivity].
    apply String.eqb_eq in E. congruence.
  - destruct (String.eqb k0 k) eqn:E; cbn.
    + apply String.eqb_eq in E. subst k0.
      destruct (String.eqb k k') eqn:E'; [| reflexivity].
      apply String.eqb_eq in E'. congruence.
    + now rewrite IH.
Qed.

Lemma get_in d k v : Dict.get d k = Some v -> In (k, v) d.
Proof.
  induction d as [| [k' v'] d IH]; cbn; [discriminate |].
  destruct (String.eqb k' k) eqn:E.
  - apply String.eqb_eq in E. intros [= ->]. subst. now left.
  - intros H. right. now apply IH.
Qed.

Lemma in_keys d k v : In (k, v) d -> In k (Dict.keys d).
Proof. intros H. apply (in_map fst) in H. exact H. Qed.

Lemma keys_get d k : In k (Dict.keys d) -> exists v, Dict.get d k = Some v.
Proof.
  induction d as [| [k' v'] d IH]; cbn; [contradiction |].
  intros [-> | H].
  - rewrite String.eqb_refl. eauto.
  - destruct (String.eqb k' k); eauto.
Qed.

Lemma get_keys d k v : Dict.get d k = Some v -> In k (Dict.keys d).
Proof. intros H. eapply in_keys, get_in, H. Qed.

Lemma get_none d k : ~ In k (Dict.keys d) -> Dict.get d k = None.
Proof.
  intros Hn. destruct (Dict.get d k) eqn:E; [| reflexivity].
  exfalso. eapply Hn, get_keys, E.
Qed.

(** With distinct keys an entry is what [get] finds. *)
Lemma in_get d k v :
  NoDup (Dict.keys d) -> In (k, v) d -> Dict.get d k = Some v.
Proof.
  induction d as [| [k' v'] d IH]; cbn; [contradiction |].
  intros Hnd [[= -> ->] | Hin].
  - now rewrite String.eqb_refl.
  - inversion Hnd as [| ? ? Hnotin Hnd']; subst.
    destruct (String.eqb k' k) eqn:E.
    + apply String.eqb_eq in E. subst k'.
      exfalso. eapply Hnotin, in_keys, Hin.
    + now apply IH.
Qed.

(** Assigning to a key that is present keeps the keys, in their order. *)
Lemma keys_set d k v :
  In k (Dict.keys d) -> Dict.keys (Dict.set d k v) = Dict.keys d.
Proof.
  induction d as [| [k' v'] d IH]; cbn; [contradiction |].
  intros Hin. destruct (String.eqb k' k) eqn:E; cbn; [reflexivity |].
  f_equal. apply IH. destruct Hin as [-> | Hin]; [| exact Hin].
  rewrite String.eqb_refl in E. discriminate.
Qed.

Lemma item_ok d k v : Dict.item d k = Ok v <-> Dict.get d k = Some v.
Proof.
  unfold Dict.item. destruct (Dict.get d k); split; congruence.
Qed.

Lemma mem_true d k : Dict.mem d k = true <-> In k (Dict.keys d).
Proof.
  unfold Dict.mem. split.
  - destruct (Dict.get d k) eqn:E; [| discriminate].
    intros _. eapply get_keys, E.
  - intros H. apply keys_get in H. destruct H as [v ->]. reflexivity.
Qed.

End Facts.

Lemma keys_init {A} (keys : list string) (a : A) :
  Dict.keys (map (fun k => (k, a)) keys) = keys.
Proof.
  unfold Dict.keys. rewrite map_map. cbn. apply map_id.
Qed.

Lemma get_init {A} (keys : list string) (a : A) (k : string) :
  In k keys -> Dict.get (map (fun k => (k, a)) keys) k = Some a.
Proof.
  induction keys as [| k' keys IH]; cbn; [contradiction |].
  intros [-> | H].
  - now rewrite String.eqb_refl.
  - destruct (String.eqb k' k); auto.
Qed.

End DictFacts.

(** ** The loops of discovery *)

Section DiscoveryFacts.

Import DictFacts.

Context {Filter obj : Type}.
Context {FO : FilterOps Filter obj} {PF : Platform obj}.
Context {CS : ConstantsT obj} {DM : Datamodel obj} {IA : InstanceAttrs obj}.

Local Abbreviation Params := (@Params Filter).
Local Abbreviation Identity := (@Identity obj).
Local Abbreviation Ids := (@Ids obj).
Local Abbreviation Kwargs := (@Kwargs obj).
Local Abbreviation Match := (Dict.t (option string)).

Lemma keeps_passes (params : Params) (regex_ : regex) (path : string) :
  keeps params regex_ path = true <-> passes params regex_ path.
Proof.
  unfold keeps, passes. destruct (re_search regex_ path) as [m |].
  - rewrite forallb_forall. split.
    + intros H. exists m. split; [reflexivity |]. intros k f Hin.
      specialize (H (k, f) Hin). unfold accepts in H. cbn in H.
      destruct (parsed m k f) as [v | e]; [eauto | discriminate].
    + intros (m' & [= <-] & H) [k f] Hin.
      destruct (H k f Hin) as (v & Hp & Hm).
      unfold accepts. cbn. now rewrite Hp.
  - split; [discriminate | intros (m & Hm & _); discriminate].
Qed.

Lemma can_parse_parses (params : Params) (regex_ : regex) (path : string) :
  can_parse params regex_ path = true -> parses params regex_ path.
Proof.
  unfold can_parse, parses. intros H m Hm k f Hin. rewrite Hm in H.
  rewrite forallb_forall in H. specialize (H (k, f) Hin). cbn in H.
  destruct (parsed m k f) as [v |]; [eauto | discriminate].
Qed.

(** The loop over the filters: the result for items whose keys are
    distinct and present in [values]. *)
Lemma match_filters_spec (m : Match) :
  forall (items : Params) (values : Identity) (good : bool),
    incl (Dict.keys items) (Dict.keys values) ->
    NoDup (Dict.keys items) ->
    match match_filters m items values good with
    | Ok (values', good') =>
        Dict.keys values' = Dict.keys values
        /\ (forall k f, In (k, f) items ->
              exists v, parsed m k f = Ok v /\ Dict.get values' k = Some v)
        /\ (forall k, ~ In k (Dict.keys items) ->
              Dict.get values' k = Dict.get values k)
        /\ good' = good && forallb (accepts m) items
    | Raise e => exists k f, In (k, f) items /\ parsed m k f = Raise e
    end.
Proof.
  induction items as [| [k f] items IH]; intros values good Hincl Hnd;
    cbn [match_filters].
  - repeat split; [intros k f [] | now rewrite andb_true_r].
  - assert (Hk : In k (Dict.keys values)) by (apply Hincl; now left).
    inversion Hnd as [| ? ? Hnotin Hnd']; subst.
    destruct (group m k) as [g | e] eqn:Hg; cbn [rbind].
    2:{ exists k, f. split; [now left |]. unfold parsed. now rewrite Hg. }
    destruct (parse_value f g) as [v | e] eqn:Hp; cbn [rbind].
    2:{ exists k, f. split; [now left |]. unfold parsed. rewrite Hg. exact Hp. }
    assert (Hpk : parsed m k f = Ok v) by (unfold parsed; rewrite Hg; exact Hp).
    unfold Dict.item. rewrite get_set_same. cbn [rbind].
    specialize (IH (Dict.set values k v) (good && match_ f v)).
    rewrite (keys_set values k v Hk) in IH.
    specialize (IH (fun x Hx => Hincl x (or_intror Hx)) Hnd').
    destruct (match_filters m items (Dict.set values k v) (good && match_ f v))
      as [[values' good'] | e].
    + destruct IH as (Hkeys & Hv & Hun & Hgood).
      split; [exact Hkeys |]. split; [| split].
      * intros k0 f0 [[= <- <-] | Hin]; [| now apply Hv].
        exists v. split; [exact Hpk |].
        rewrite (Hun k Hnotin). apply get_set_same.
      * intros k0 Hk0. rewrite Hun by (intros H; apply Hk0; now right).
        apply get_set_other. intros ->. apply Hk0. now left.
      * rewrite Hgood. cbn [forallb]. unfold accepts at 2. cbn [fst snd].
        rewrite Hpk. now rewrite andb_assoc.
    + destruct IH as (k0 & f0 & Hin & He). exists k0, f0. split; [now right | exact He].
Qed.

(** Appending a row of values to the identifier lists. *)
Lemma append_ids_spec :
  forall (items : Identity) (ids : Ids),
    incl (Dict.keys items) (Dict.keys ids) ->
    NoDup (Dict.keys items) ->
    exists ids',
      append_ids ids items = Ok ids'
      /\ Dict.keys ids' = Dict.keys ids
      /\ (forall k v, In (k, v) items ->
            exists l, Dict.get ids k = Some l
                      /\ Dict.get ids' k = Some (l ++ [v])%list)
      /\ (forall k, ~ In k (Dict.keys items) ->
            Dict.get ids' k = Dict.get ids k).
Proof.
  induction items as [| [k v] items IH]; intros ids Hincl Hnd;
    cbn [append_ids].
  - exists ids. repeat split. intros k v [].
  - assert (Hk : In k (Dict.keys ids)) by (apply Hincl; now left).
    inversion Hnd as [| ? ? Hnotin Hnd']; subst.
    destruct (keys_get ids k Hk) as [l Hl].
    unfold Dict.item. rewrite Hl. cbn [rbind].
    specialize (IH (Dict.set ids k (l ++ [v])%list)).
    rewrite (keys_set ids k _ Hk) in IH.
    destruct (IH (fun x Hx => Hincl x (or_intror Hx)) Hnd')
      as (ids' & Happ & Hkeys & Hin & Hout).
    exists ids'. split; [exact Happ |]. split; [exact Hkeys |]. split.
    + intros k0 v0 [[= <- <-] | Hin0].
      * exists l. split; [exact Hl |].
        rewrite (Hout k Hnotin). apply get_set_same.
      * destruct (Hin k0 v0 Hin0) as (l0 & Hl0 & Hl0').
        exists l0. split; [| exact Hl0'].
        rewrite get_set_other in Hl0; [exact Hl0 |].
        intros ->. apply Hnotin. eapply in_keys, Hin0.
    + intros k0 Hk0. rewrite Hout by (intros H; apply Hk0; now right).
      apply get_set_other. intros ->. apply Hk0. now left.
Qed.

(** The loop over the candidates, from any state that is aligned. *)
Lemma scan_paths_spec (params : Params) (regex_ : regex) :
  NoDup (Dict.keys params) ->
  forall (paths : list string) (ids : Ids) (values : Identity)
         (filenames : list string),
    aligned params regex_ filenames ids ->
    Dict.keys values = Dict.keys params ->
    match scan_paths params regex_ paths ids values filenames with
    | Ok (files, ids') =>
        aligned params regex_ files ids'
        /\ files = (filenames ++ filter (keeps params regex_) paths)%list
        /\ Forall (parses params regex_) paths
    | Raise e => first_failure params regex_ paths e
    end.
Proof.
  intros Hnd. induction paths as [| path paths IH];
    intros ids values filenames Hal Hvk; cbn [scan_paths].
  - split; [exact Hal |]. split; [now rewrite app_nil_r | constructor].
  - destruct (re_search regex_ path) as [m |] eqn:Hm.
    + pose proof (match_filters_spec m params values true) as Hmf.
      rewrite Hvk in Hmf. specialize (Hmf (incl_refl _) Hnd).
      destruct (match_filters m params values true) as [[values' good] | e];
        cbn [rbind].
      * destruct Hmf as (Hkeys & Hv & _ & Hgood). cbn [andb] in Hgood.
        assert (Hparses : parses params regex_ path).
        { intros m' Hm' k f Hin. rewrite Hm in Hm'. injection Hm' as <-.
          destruct (Hv k f Hin) as (v & Hp & _). eauto. }
        assert (Hkeep : keeps params regex_ path = good).
        { unfold keeps. rewrite Hm. now symmetry. }
        destruct good.
        -- destruct Hal as (Hik & Hcols).
           destruct (append_ids_spec values' ids) as (ids1 & Happ & Hk1 & Hin1 & _).
           { rewrite Hkeys, Hik. apply incl_refl. }
           { now rewrite Hkeys. }
           rewrite Happ. cbn [rbind].
           specialize (IH ids1 values' (filenames ++ [path])%list).
           assert (Hal1 : aligned params regex_ (filenames ++ [path])%list ids1).
           { split; [now rewrite Hk1 |]. intros k f Hin.
             destruct (Hcols k f Hin) as (l & Hl & Hf2).
             destruct (Hv k f Hin) as (v & Hp & Hget).
             destruct (Hin1 k v (get_in _ _ _ Hget)) as (l' & Hl' & Hl1).
             rewrite Hl in Hl'. injection Hl' as <-.
             exists (l ++ [v])%list. split; [exact Hl1 |].
             apply Forall2_app; [exact Hf2 |].
             constructor; [| constructor]. exists m. now split. }
           specialize (IH Hal1 Hkeys).
           destruct (scan_paths params regex_ paths ids1 values'
                       (filenames ++ [path])%list) as [[files ids'] | e].
           ++ destruct IH as (Hal' & Hfiles & Hall).
              split; [exact Hal' |]. split; [| now constructor].
              cbn [filter]. rewrite Hkeep, Hfiles, <- app_assoc. reflexivity.
           ++ destruct IH as (b & p & a & -> & Hb & Hfail).
              exists (path :: b), p, a. now repeat split; [constructor |].
        -- specialize (IH ids values' filenames Hal Hkeys).
           destruct (scan_paths params regex_ paths ids values' filenames)
             as [[files ids'] | e].
           ++ destruct IH as (Hal' & Hfiles & Hall).
              split; [exact Hal' |]. split; [| now constructor].
              cbn [filter]. now rewrite Hkeep.
           ++ destruct IH as (b & p & a & -> & Hb & Hfail).
              exists (path :: b), p, a. now repeat split; [constructor |].
      * destruct Hmf as (k & f & Hin & He).
        exists [], path, paths. split; [reflexivity |]. split; [constructor |].
        exists m, k, f. now repeat split.
    + specialize (IH ids values filenames Hal Hvk).
      assert (Hparses : parses params regex_ path).
      { intros m Hm'. rewrite Hm in Hm'. discriminate. }
      assert (Hkeep : keeps params regex_ path = false).
      { unfold keeps. now rewrite Hm. }
      destruct (scan_paths params regex_ paths ids values filenames)
        as [[files ids'] | e].
      * destruct IH as (Hal' & Hfiles & Hall).
        split; [exact Hal' |]. split; [| now constructor].
        cbn [filter]. now rewrite Hkeep.
      * destruct IH as (b & p & a & -> & Hb & Hfail).
        exists (path :: b), p, a. now repeat split; [constructor |].
Qed.

Lemma match_candidates_spec (params : Params) (regex_ : regex)
    (paths : list string) :
  NoDup (Dict.keys params) ->
  match match_candidates params regex_ paths with
  | Ok (files, ids) =>
      aligned params regex_ files ids
      /\ files = filter (keeps params regex_) paths
      /\ Forall (parses params regex_) paths
  | Raise e => first_failure params regex_ paths e
  end.
Proof.
  intros Hnd. unfold match_candidates.
  apply (scan_paths_spec params regex_ Hnd paths _ _ []).
  - split; [apply keys_init |]. intros k f Hin.
    exists []. split; [| constructor].
    apply get_init. eapply in_keys, Hin.
  - apply keys_init.
Qed.

(** A failure to parse is what makes the loop raise, and it does. *)
Lemma match_candidates_ok (params : Params) (regex_ : regex)
    (paths : list string) :
  NoDup (Dict.keys params) ->
  Forall (parses params regex_) paths ->
  exists r, match_candidates params regex_ paths = Ok r.
Proof.
  intros Hnd Hall. pose proof (match_candidates_spec params regex_ paths Hnd) as H.
  destruct (match_candidates params regex_ paths) as [r | e]; [eauto |].
  destruct H as (before & path & after & -> & _ & m & k & f & Hm & Hkf & He).
  rewrite Forall_forall in Hall.
  destruct (Hall path (in_elt path before after) m Hm k f Hkf) as (v & Hv).
  congruence.
Qed.

(** A candidate that the regular expression does not match leaves no
    trace: the loop runs as if the candidate were not there. *)
Lemma scan_paths_drop (params : Params) (regex_ : regex) (path : string) :
  re_search regex_ path = None ->
  forall (before after : list string) (ids : Ids) (values : Identity)
         (filenames : list string),
    scan_paths params regex_ (before ++ path :: after) ids values filenames
    = scan_paths params regex_ (before ++ after) ids values filenames.
Proof.
  intros Hm. induction before as [| p before IH];
    intros after ids values filenames; cbn [app scan_paths].
  - now rewrite Hm.
  - destruct (re_search regex_ p); [| apply IH].
    destruct (match_filters _ params values true) as [[values' good] | e];
      cbn [rbind]; [| reflexivity].
    destruct good; [| apply IH].
    destruct (append_ids ids values'); cbn [rbind]; [apply IH | reflexivity].
Qed.

(** *** The update of the queries *)

Lemma assign_values_spec (params params' : Params) (k : string)
    (v : option obj) :
  assign_values params k v = Ok params' ->
  exists f f',
    Dict.get params k = Some f /\ set_values f v = Ok f'
    /\ params' = Dict.set params k f'.
Proof.
  unfold assign_values, Dict.item.
  destruct (Dict.get params k) as [f |]; cbn [rbind]; [| discriminate].
  destruct (set_values f v) as [f' |] eqn:Hs; cbn [rbind]; [| discriminate].
  intros [= <-]. eauto.
Qed.

Lemma update_param_spec (self : FileSystemConnector) (params params' : Params)
    (k : string) (v : option obj) :
  update_param self params k v = Ok params' ->
  Dict.keys params' = Dict.keys params
  /\ (forall k', k' <> k -> Dict.get params' k' = Dict.get params k')
  /\ (forall f, Dict.get params k = Some f ->
        exists f', Dict.get params' k = Some f' /\ turn self k v f f').
Proof.
  unfold update_param, turn.
  destruct (Dict.mem params k) eqn:Hmem.
  2:{ intros [= <-]. repeat split. intros f Hf.
      unfold Dict.mem in Hmem. rewrite Hf in Hmem. discriminate. }
  apply mem_true in Hmem.
  assert (Hassign : forall a, assign_values params k a = Ok params' ->
            Dict.keys params' = Dict.keys params
            /\ (forall k', k' <> k -> Dict.get params' k' = Dict.get params k')
            /\ (forall f, Dict.get params k = Some f ->
                  exists f', Dict.get params' k = Some f'
                             /\ set_values f a = Ok f')).
  { intros a Ha. apply assign_values_spec in Ha.
    destruct Ha as (f & f' & Hf & Hs & ->).
    split; [now apply keys_set |]. split.
    - intros k' Hne. now apply get_set_other.
    - intros f0 Hf0. rewrite Hf in Hf0. injection Hf0 as <-.
      exists f'. split; [apply get_set_same | exact Hs]. }
  destruct v as [x |].
  - apply Hassign.
  - destruct (getattr_ self k) as [a |]; [apply Hassign |].
    intros [= <-]. repeat split. eauto.
Qed.

Lemma update_params_keys (self : FileSystemConnector) (kwargs : Kwargs) :
  forall params params' : Params,
    update_params self params kwargs = Ok params' ->
    Dict.keys params' = Dict.keys params.
Proof.
  induction kwargs as [| [k v] kwargs IH]; intros params params';
    cbn [update_params].
  - now intros [= <-].
  - destruct (update_param self params k v) as [params1 |] eqn:H1;
      cbn [rbind]; [| discriminate].
    intros H. apply IH in H. apply update_param_spec in H1.
    destruct H1 as (Hk & _). congruence.
Qed.

Lemma update_params_spec (self : FileSystemConnector) (kwargs : Kwargs) :
  NoDup (Dict.keys kwargs) ->
  forall params params' : Params,
    update_params self params kwargs = Ok params' ->
    forall k f, Dict.get params k = Some f ->
      exists f', Dict.get params' k = Some f' /\ updated self kwargs k f f'.
Proof.
  induction kwargs as [| [k0 v0] kwargs IH]; intros Hnd params params';
    cbn [update_params].
  - intros [= <-] k f Hf. exists f. split; [exact Hf | reflexivity].
  - inversion Hnd as [| ? ? Hnotin Hnd']; subst.
    destruct (update_param self params k0 v0) as [params1 |] eqn:H1;
      cbn [rbind]; [| discriminate].
    intros Hrest k f Hf.
    destruct (update_param_spec _ _ _ _ _ H1) as (_ & Hother & Hsame).
    unfold updated. cbn [Dict.get].
    destruct (String.eqb k0 k) eqn:E.
    + apply String.eqb_eq in E. subst k0.
      destruct (Hsame f Hf) as (f1 & Hf1 & Hturn).
      destruct (IH Hnd' _ _ Hrest k f1 Hf1) as (f' & Hf' & Hupd).
      unfold updated in Hupd. rewrite (get_none kwargs k Hnotin) in Hupd.
      subst f'. exists f1. split; [exact Hf' |].
      unfold turn in Hturn. destruct v0; exact Hturn.
    + assert (Hne : k <> k0).
      { intros ->. rewrite String.eqb_refl in E. discriminate. }
      rewrite <- (Hother k Hne) in Hf.
      exact (IH Hnd' _ _ Hrest k f Hf).
Qed.

(** The update loop ends without an exception when, for each filter, the
    one assignment that the loop makes to it does. *)
Lemma update_params_total (self : FileSystemConnector) (kwargs : Kwargs) :
  NoDup (Dict.keys kwargs) ->
  forall params : Params,
    (forall k f, Dict.get params k = Some f ->
       exists f', updated self kwargs k f f') ->
    exists params', update_params self params kwargs = Ok params'.
Proof.
  induction kwargs as [| [k0 v0] kwargs IH]; intros Hnd params Hset;
    cbn [update_params]; [eauto |].
  inversion Hnd as [| ? ? Hnotin Hnd']; subst.
  assert (H1 : exists params1, update_param self params k0 v0 = Ok params1).
  { unfold update_param.
    destruct (Dict.mem params k0) eqn:Hmem; [| eauto].
    apply mem_true, keys_get in Hmem. destruct Hmem as [f Hf].
    destruct (Hset k0 f Hf) as (f' & Hupd).
    unfold updated in Hupd. cbn [Dict.get] in Hupd.
    rewrite String.eqb_refl in Hupd.
    unfold assign_values, Dict.item. rewrite Hf. cbn [rbind].
    destruct v0 as [x |].
    - rewrite Hupd. cbn [rbind]. eauto.
    - destruct (getattr_ self k0) as [a |]; [| eauto].
      rewrite Hupd. cbn [rbind]. eauto. }
  destruct H1 as [params1 H1]. rewrite H1. cbn [rbind].
  destruct (update_param_spec _ _ _ _ _ H1) as (_ & Hother & _).
  apply IH; [exact Hnd' |]. intros k f1 Hf1.
  destruct (String.eqb k0 k) eqn:E.
  - apply String.eqb_eq in E. subst k0. exists f1.
    unfold updated. now rewrite (get_none kwargs k Hnotin).
  - assert (Hne : k <> k0).
    { intros ->. rewrite String.eqb_refl in E. discriminate. }
    rewrite (Hother k Hne) in Hf1.
    destruct (Hset k f1 Hf1) as (f' & Hupd). exists f'.
    unfold updated in *. cbn [Dict.get] in Hupd. now rewrite E in Hupd.
Qed.

(** *** The whole of discovery *)

Lemma find_run (self : FileSystemConnector) (patterns : list string)
    (params : Params) (kwargs : Kwargs) (regex_ : regex) (w : list event) :
  __find_files_and_match_params self patterns params kwargs regex_ w
  = match update_params self params kwargs with
    | Raise e => (Raise e, w)
    | Ok params' =>
        match glob_expression patterns params' with
        | Raise e => (Raise e, w)
        | Ok pattern =>
            (match_candidates params' regex_ (fs_glob pattern),
             (w ++ [Glob pattern])%list)
        end
    end.
Proof.
  unfold __find_files_and_match_params, bind, lift, glob, emit, ret.
  destruct (update_params self params kwargs) as [params' |]; [| reflexivity].
  destruct (glob_expression patterns params') as [pattern |]; reflexivity.
Qed.

(** A successful discovery, taken apart. *)
Lemma find_ok (self : FileSystemConnector) (patterns : list string)
    (params : Params) (kwargs : Kwargs) (regex_ : regex) (w w' : list event)
    (files : list string) (ids : Ids) :
  NoDup (Dict.keys params) ->
  __find_files_and_match_params self patterns params kwargs regex_ w
  = (Ok (files, ids), w') ->
  exists params' pattern,
    update_params self params kwargs = Ok params'
    /\ glob_expression patterns params' = Ok pattern
    /\ Dict.keys params' = Dict.keys params
    /\ w' = (w ++ [Glob pattern])%list
    /\ aligned params' regex_ files ids
    /\ files = filter (keeps params' regex_) (fs_glob pattern).
Proof.
  intros Hnd. rewrite find_run.
  destruct (update_params self params kwargs) as [params' |] eqn:Hu;
    [| discriminate].
  destruct (glob_expression patterns params') as [pattern |] eqn:Hg;
    [| discriminate].
  pose proof (update_params_keys _ _ _ _ Hu) as Hk.
  pose proof (match_candidates_spec params' regex_ (fs_glob pattern)) as Hs.
  rewrite Hk in Hs. specialize (Hs Hnd).
  intros [= Hr <-]. rewrite Hr in Hs. destruct Hs as (Hal & Hf & _).
  exists params', pattern. repeat split; try assumption; apply Hal.
Qed.

Lemma Forall2_nth_error {A B} (R : A -> B -> Prop) (l1 : list A)
    (l2 : list B) :
  Forall2 R l1 l2 ->
  forall i a, nth_error l1 i = Some a ->
    exists b, nth_error l2 i = Some b /\ R a b.
Proof.
  induction 1 as [| a0 b0 l1 l2 Hab _ IH]; intros i a.
  - destruct i; discriminate.
  - destruct i as [| i]; cbn.
    + intros [= <-]. eauto.
    + apply IH.
Qed.

(** *** Parsing a file name, and the single file *)

Lemma parse_groups_spec (m : Match) :
  forall (params : Params) (identity : Identity),
    parse_groups m params = Ok identity <->
    Forall2 (fun kf kv => fst kv = fst kf
                          /\ parsed m (fst kf) (snd kf) = Ok (snd kv))
            params identity.
Proof.
  induction params as [| [k f] params IH]; intros identity;
    cbn [parse_groups].
  - split; [intros [= <-]; constructor | intros H; inversion H; reflexivity].
  - unfold parsed at 1. cbn [fst snd].
    split.
    + destruct (group m k) as [g |] eqn:Hg; cbn [rbind]; [| discriminate].
      destruct (parse_value f g) as [v |] eqn:Hp; cbn [rbind]; [| discriminate].
      destruct (parse_groups m params) as [vs |] eqn:Hvs; cbn [rbind];
        [| discriminate].
      intros [= <-]. constructor.
      * cbn. split; [reflexivity |]. unfold parsed. now rewrite Hg.
      * now apply IH.
    + intros H. inversion H as [| ? [k' v] ? vs [Hk Hp] Hrest]; subst.
      cbn in Hk, Hp. subst k'. unfold parsed in Hp.
      destruct (group m k) as [g |]; cbn [rbind] in *; [| discriminate].
      rewrite Hp. cbn [rbind].
      apply IH in Hrest. rewrite Hrest. reflexivity.
Qed.

Lemma parse_groups_total (m : Match) (params : Params) :
  (forall k f, In (k, f) params -> exists v, parsed m k f = Ok v) ->
  exists identity, parse_groups m params = Ok identity.
Proof.
  induction params as [| [k f] params IH]; intros H; cbn [parse_groups];
    [eauto |].
  destruct (H k f (or_introl eq_refl)) as (v & Hv). unfold parsed in Hv.
  destruct (group m k) as [g |]; cbn [rbind] in *; [| discriminate].
  rewrite Hv. cbn [rbind].
  destruct IH as (vs & ->); [intros k0 f0 Hin; apply H; now right |].
  cbn [rbind]. eauto.
Qed.

Lemma first_of_each_spec :
  forall ids : Ids,
    (forall k l, In (k, l) ids -> List.length l = 1%nat) ->
    exists identity : Identity,
      first_of_each ids = Ok identity
      /\ Forall2 (fun kl kv => fst kv = fst kl /\ snd kl = [snd kv])
                 ids identity.
Proof.
  induction ids as [| [k l] ids IH]; intros H; cbn [first_of_each].
  - exists []. split; [reflexivity | constructor].
  - pose proof (H k l (or_introl eq_refl)) as Hl.
    destruct l as [| x [| y l]]; try discriminate. cbn [first rbind].
    destruct IH as (xs & -> & Hxs); [intros k0 l0 Hin; apply (H k0); now right |].
    cbn [rbind]. exists ((k, x) :: xs). split; [reflexivity |].
    constructor; [now split | exact Hxs].
Qed.

Lemma collapsed_get (ids : Ids) (identity : Identity) :
  Forall2 (fun kl kv => fst kv = fst kl /\ snd kl = [snd kv]) ids identity ->
  forall k l, Dict.get ids k = Some l ->
    exists v, Dict.get identity k = Some v /\ l = [v].
Proof.
  induction 1 as [| [k0 l0] [k1 v1] ids identity [Hk Hl] _ IH]; intros k l;
    cbn [Dict.get]; [discriminate |].
  cbn in Hk, Hl. subst k1 l0.
  destruct (String.eqb k0 k); [| apply IH].
  intros [= <-]. eauto.
Qed.

Lemma ensure_both_or_neither (filename : option string)
    (identity : option Identity) :
  is_not_None filename = is_not_None identity ->
  __ensure_one_param (load_args filename identity)
  = Raise (ValueError only_one).
Proof.
  destruct filename, identity; cbn; try discriminate; reflexivity.
Qed.

Lemma ensure_exactly_one (filename : option string)
    (identity : option Identity) :
  is_not_None filename <> is_not_None identity ->
  __ensure_one_param (load_args filename identity) = Ok tt.
Proof.
  destruct filename, identity; cbn; try congruence; reflexivity.
Qed.

End DiscoveryFacts.

(** ** The connector, claim by claim *)

Section ConnectorClaims.

Import DictFacts.

Context {Filter obj : Type}.
Context {FO : FilterOps Filter obj} {PF : Platform obj}.
Context {CS : ConstantsT obj} {DM : Datamodel obj} {IA : InstanceAttrs obj}.

Local Abbreviation Params := (@Params Filter).
Local Abbreviation Identity := (@Identity obj).
Local Abbreviation Ids := (@Ids obj).
Local Abbreviation Kwargs := (@Kwargs obj).

(** C1.  Discovery keeps a candidate of the glob expansion exactly when the
    regular expression matches it and every filter's [match] is true of the
    value parsed from its group: the list of files returned is the list of
    candidates, in order, filtered by that test, so every file returned
    satisfies all the filters.  A candidate that the regular expression does
    not match is dropped without error: the loop runs as it does without
    that candidate.  The query is well formed (the updates of the filters and
    the glob expression succeed); discovery then returns whenever the
    candidates that match the regular expression can be parsed. *)
Theorem discovery_keeps_the_passing_candidates
    (self : FileSystemConnector) (patterns : list string) (params : Params)
    (kwargs : Kwargs) (regex_ : regex) (w : list event)
    (params' : Params) (pattern : string) :
  NoDup (Dict.keys params) ->
  update_params self params kwargs = Ok params' ->
  glob_expression patterns params' = Ok pattern ->
  let candidates := fs_glob pattern in
  let kept := filter (keeps params' regex_) candidates in
  (Forall (parses params' regex_) candidates ->
   exists ids,
     __find_files_and_match_params self patterns params kwargs regex_ w
     = (Ok (kept, ids), (w ++ [Glob pattern])%list))
  /\ (forall files ids w',
        __find_files_and_match_params self patterns params kwargs regex_ w
        = (Ok (files, ids), w') -> files = kept)
  /\ (forall path,
        In path kept <-> In path candidates /\ passes params' regex_ path)
  /\ (forall path before after,
        re_search regex_ path = None ->
        match_candidates params' regex_ (before ++ path :: after)
        = match_candidates params' regex_ (before ++ after)).
Proof.
  intros Hnd Hu Hg candidates kept.
  assert (Hnd' : NoDup (Dict.keys params')).
  { now rewrite (update_params_keys _ _ _ _ Hu). }
  pose proof (match_candidates_spec params' regex_ candidates Hnd') as Hs.
  assert (Hrun := find_run self patterns params kwargs regex_ w).
  rewrite Hu, Hg in Hrun. fold candidates in Hrun.
  split; [| split; [| split]].
  - intros Hall.
    destruct (match_candidates_ok params' regex_ candidates Hnd' Hall)
      as ([files ids] & Hok).
    rewrite Hok in Hs. destruct Hs as (_ & -> & _).
    exists ids. now rewrite Hrun, Hok.
  - intros files ids w' Hfind. rewrite Hrun in Hfind.
    injection Hfind as Hok _. rewrite Hok in Hs. now destruct Hs as (_ & -> & _).
  - intros path. unfold kept. rewrite filter_In, keeps_passes. reflexivity.
  - intros path before after Hm. unfold match_candidates.
    now apply scan_paths_drop.
Qed.

(** C2 (as amended).  Discovery does not catch a failure to parse.  When a
    candidate matches the regular expression and some filter fails to parse
    its group, discovery raises and returns no result; what it raises is the
    failure of a filter on the first candidate, in the order of the glob
    expansion, that cannot be parsed.  Discovery returns a result when every
    candidate that matches the regular expression can be parsed by every
    filter. *)
Theorem parse_failure_aborts_discovery
    (self : FileSystemConnector) (patterns : list string) (params : Params)
    (kwargs : Kwargs) (regex_ : regex) (w : list event)
    (params' : Params) (pattern : string) :
  NoDup (Dict.keys params) ->
  update_params self params kwargs = Ok params' ->
  glob_expression patterns params' = Ok pattern ->
  let candidates := fs_glob pattern in
  let out :=
    fst (__find_files_and_match_params self patterns params kwargs regex_ w) in
  (forall path e,
      In path candidates -> fails_to_parse params' regex_ path e ->
      exists before path' after e',
        candidates = (before ++ path' :: after)%list
        /\ Forall (parses params' regex_) before
        /\ fails_to_parse params' regex_ path' e'
        /\ out = Raise e')
  /\ (Forall (parses params' regex_) candidates -> exists r, out = Ok r).
Proof.
  intros Hnd Hu Hg candidates out.
  assert (Hnd' : NoDup (Dict.keys params')).
  { now rewrite (update_params_keys _ _ _ _ Hu). }
  pose proof (match_candidates_spec params' regex_ candidates Hnd') as Hs.
  assert (Hout : out = match_candidates params' regex_ candidates).
  { unfold out. rewrite find_run, Hu, Hg. reflexivity. }
  rewrite Hout. split.
  - intros path e Hin (m & k & f & Hm & Hkf & He).
    destruct (match_candidates params' regex_ candidates) as [[files ids] | e'].
    + destruct Hs as (_ & _ & Hall). rewrite Forall_forall in Hall.
      destruct (Hall path Hin m Hm k f Hkf) as (v & Hv). congruence.
    + destruct Hs as (before & path' & after & Heq & Hb & Hfail).
      exists before, path', after, e'. now repeat split.
  - intros Hall. now apply match_candidates_ok.
Qed.

(** C8.  In the result of discovery the identifier record has exactly the
    names of the filters as its keys; each of its lists has the length of the
    list of files; and at every index the list under a name holds the value
    that the filter of that name parses from the file at that index. *)
Theorem discovery_result_is_aligned
    (self : FileSystemConnector) (patterns : list string) (params : Params)
    (kwargs : Kwargs) (regex_ : regex) (w w' : list event)
    (files : list string) (ids : Ids) :
  NoDup (Dict.keys params) ->
  __find_files_and_match_params self patterns params kwargs regex_ w
  = (Ok (files, ids), w') ->
  exists params',
    update_params self params kwargs = Ok params'
    /\ Dict.keys ids = Dict.keys params
    /\ Dict.keys params' = Dict.keys params
    /\ forall k l, In (k, l) ids ->
         List.length l = List.length files
         /\ exists f,
              In (k, f) params'
              /\ forall i path, nth_error files i = Some path ->
                   exists v, nth_error l i = Some v
                             /\ parsed_from regex_ k f path v.
Proof.
  intros Hnd Hfind.
  destruct (find_ok _ _ _ _ _ _ _ _ _ Hnd Hfind)
    as (params' & pattern & Hu & _ & Hk & _ & (Hik & Hcols) & _).
  exists params'. split; [exact Hu |]. split; [congruence |].
  split; [exact Hk |]. intros k l Hin.
  assert (Hget : Dict.get ids k = Some l).
  { apply in_get; [| exact Hin]. now rewrite Hik, Hk. }
  assert (Hkp : In k (Dict.keys params')).
  { rewrite <- Hik. eapply in_keys, Hin. }
  destruct (keys_get params' k Hkp) as (f & Hf). apply get_in in Hf.
  destruct (Hcols k f Hf) as (l' & Hl' & Hf2).
  rewrite Hget in Hl'. injection Hl' as <-.
  split; [symmetry; eapply Forall2_length, Hf2 |].
  exists f. split; [exact Hf |]. intros i path Hi.
  exact (Forall2_nth_error _ _ _ Hf2 i path Hi).
Qed.

(** C9.  In the set-up of a query, for every filter name: an override that
    is not [None] is assigned to the filter's [values]; for an override that
    is [None] the filter is assigned the attribute of that name of the
    connector instance (its default filter) when the instance has one, and is
    left as it is otherwise; a name without an override leaves the filter as
    it is.  The set-up ends without an exception when the assignment made
    to each filter does.  The attributes in question are the filters that
    the instance holds under its properties. *)
Theorem query_setup_by_override
    (self : FileSystemConnector) (params : Params) (kwargs : Kwargs) :
  NoDup (Dict.keys kwargs) ->
  (forall params',
      update_params self params kwargs = Ok params' ->
      Dict.keys params' = Dict.keys params
      /\ forall k f, Dict.get params k = Some f ->
           exists f',
             Dict.get params' k = Some f'
             /\ match Dict.get kwargs k with
                | Some (Some v) => set_values f (Some v) = Ok f'
                | Some None =>
                    match getattr_ self k with
                    | Some default => set_values f default = Ok f'
                    | None => f' = f
                    end
                | None => f' = f
                end)
  /\ ((forall k f, Dict.get params k = Some f ->
         exists f', updated self kwargs k f f') ->
      exists params', update_params self params kwargs = Ok params')
  /\ (getattr_ self "pfsDesignId" = Some (Some (filter_obj (__pfsDesignId self)))
      /\ getattr_ self "catId" = Some (Some (filter_obj (__catId self)))
      /\ getattr_ self "tract" = Some (Some (filter_obj (__tract self)))
      /\ getattr_ self "patch" = Some (__patch self)
      /\ getattr_ self "objId" = Some (Some (filter_obj (__objId self)))
      /\ getattr_ self "visit" = Some (Some (filter_obj (__visit self)))).
Proof.
  intros Hnd. split; [| split].
  - intros params' Hu. split; [eapply update_params_keys, Hu |].
    intros k f Hf.
    exact (update_params_spec self kwargs Hnd params params' Hu k f Hf).
  - intros Hset. now apply update_params_total.
  - repeat split.
Qed.

(** C3 (as amended).  [__get_single_file]: no file raises
    [FileNotFoundError] with the message "No file found matching the
    query."; two files or more raise an exception of the same class,
    [FileNotFoundError], told apart by its message "Multiple files found
    matching the query.", and none of the files is picked; exactly one file,
    as a result of discovery, returns the file and its identity record: the
    one element of each list, which is the value that the filter of that
    name parses from the file. *)
Theorem single_file_or_error (files : list string) (ids : Ids) :
  (files = [] ->
   __get_single_file files ids
   = Raise (FileNotFoundError "No file found matching the query."))
  /\ ((2 <= List.length files)%nat ->
      __get_single_file files ids
      = Raise (FileNotFoundError "Multiple files found matching the query."))
  /\ (forall path,
        files = [path] ->
        forall (self : FileSystemConnector) (patterns : list string)
               (params : Params) (kwargs : Kwargs) (regex_ : regex)
               (w w' : list event),
          NoDup (Dict.keys params) ->
          __find_files_and_match_params self patterns params kwargs regex_ w
          = (Ok (files, ids), w') ->
          exists identity params',
            __get_single_file files ids = Ok (path, identity)
            /\ Forall2 (fun kl kv => fst kv = fst kl /\ snd kl = [snd kv])
                       ids identity
            /\ update_params self params kwargs = Ok params'
            /\ forall k f, In (k, f) params' ->
                 exists v, Dict.get identity k = Some v
                           /\ parsed_from regex_ k f path v).
Proof.
  split; [| split].
  - intros ->. reflexivity.
  - intros Hlen. unfold __get_single_file.
    destruct files as [| a [| b files]]; cbn in Hlen; try lia. reflexivity.
  - intros path -> self patterns params kwargs regex_ w w' Hnd Hfind.
    destruct (find_ok _ _ _ _ _ _ _ _ _ Hnd Hfind)
      as (params' & pattern & Hu & _ & Hk & _ & (Hik & Hcols) & _).
    assert (Hone : forall k l, In (k, l) ids -> List.length l = 1%nat).
    { intros k l Hin.
      assert (Hget : Dict.get ids k = Some l).
      { apply in_get; [| exact Hin]. now rewrite Hik, Hk. }
      assert (Hkp : In k (Dict.keys params')).
      { rewrite <- Hik. eapply in_keys, Hin. }
      destruct (keys_get params' k Hkp) as (f & Hf). apply get_in in Hf.
      destruct (Hcols k f Hf) as (l' & Hl' & Hf2).
      rewrite Hget in Hl'. injection Hl' as <-.
      apply Forall2_length in Hf2. cbn in Hf2. now symmetry. }
    destruct (first_of_each_spec ids Hone) as (identity & Hid & H2).
    exists identity, params'.
    unfold __get_single_file.
    cbn [List.length Nat.eqb Nat.ltb Nat.leb first rbind].
    rewrite Hid. cbn [rbind].
    split; [reflexivity |]. split; [exact H2 |]. split; [exact Hu |].
    intros k f Hf. destruct (Hcols k f Hf) as (l & Hl & Hf2).
    destruct (collapsed_get ids identity H2 k l Hl) as (v & Hv & ->).
    exists v. split; [exact Hv |].
    inversion Hf2 as [| ? ? ? ? Hp _]; subst. exact Hp.
Qed.

(** C4.  A loader ([load_pfsDesign], [load_pfsConfig], [load_pfsSingle])
    called with both of [filename] and [identity], or with neither, raises
    the [ValueError] of [__ensure_one_param] and leaves the trace as it
    was: nothing was logged and the file system was not touched.  Called
    with exactly one of them, the check raises nothing. *)
Theorem load_takes_exactly_one
    (self : FileSystemConnector) (filename : option string)
    (identity : option Identity) (w : list event) :
  (is_not_None filename = is_not_None identity ->
   load_pfsDesign self filename identity w = (Raise (ValueError only_one), w)
   /\ load_pfsConfig self filename identity w = (Raise (ValueError only_one), w)
   /\ load_pfsSingle self filename identity w = (Raise (ValueError only_one), w))
  /\ (is_not_None filename <> is_not_None identity ->
      __ensure_one_param (load_args filename identity) = Ok tt).
Proof.
  split.
  - intros H. apply ensure_both_or_neither in H.
    unfold load_pfsDesign, load_pfsConfig, load_pfsSingle, bind, lift.
    rewrite !H. repeat split.
  - apply ensure_exactly_one.
Qed.

(** C7.  [__parse_filename_params]: when the regular expression does not
    match the path, the call raises [ValueError] ("Filename does not match
    expected format") if [required] is true, and logs a warning and returns
    [None] if it is false; when it matches, the call returns the record that
    holds, under the name of each filter, what that filter's [parse_value]
    makes of the group of that name (the filters being able to parse their
    groups), and logs nothing. *)
Theorem parse_filename_params_cases
    (path : string) (params : Params) (regex_ : regex) (w : list event) :
  (re_search regex_ path = None ->
   __parse_filename_params path params regex_ true w
   = (Raise (ValueError (format_mismatch path)), w)
   /\ __parse_filename_params path params regex_ false w
      = (Ok None, (w ++ [LogWarning (format_mismatch path)])%list))
  /\ (forall m required,
        re_search regex_ path = Some m ->
        (forall k f, In (k, f) params -> exists v, parsed m k f = Ok v) ->
        exists identity,
          __parse_filename_params path params regex_ required w
          = (Ok (Some identity), w)
          /\ Forall2 (fun kf kv =>
                        fst kv = fst kf
                        /\ (g <- group m (fst kf) ;; parse_value (snd kf) g)%res
                           = Ok (snd kv))
                     params identity).
Proof.
  split.
  - intros Hm. unfold __parse_filename_params. rewrite Hm. now split.
  - intros m required Hm Hall. unfold __parse_filename_params. rewrite Hm.
    destruct (parse_groups_total m params Hall) as (identity & Hid).
    exists identity. unfold bind, lift, ret. rewrite Hid.
    split; [reflexivity |]. now apply parse_groups_spec.
Qed.

(** C10 (as amended).  On a connector whose data directory is set,
    [get_datadir] without a reference path returns the absolute path of that
    directory whatever [required] is, raises nothing and logs nothing: the
    flag is consulted only when a reference path is given. *)
Theorem get_datadir_without_reference
    (self : @FileSystemConnector Filter obj) (required : bool)
    (w : list event)
    (datadir : string) :
  __datadir self = Some datadir ->
  get_datadir self None required w = (Ok (os_path_abspath datadir), w).
Proof.
  intros H. unfold get_datadir, bind, ret, lift, abspath. cbn. now rewrite H.
Qed.

End ConnectorClaims.

(** ** The filters, claim by claim *)

Section FilterClaims.

Import FilterModel.

Lemma value_eqb_eq (a b : value) : value_eqb a b = true <-> a = b.
Proof.
  destruct a, b; cbn; try (split; [discriminate | intros [=]]).
  - rewrite Z.eqb_eq. split; congruence.
  - rewrite String.eqb_eq. split; congruence.
  - rewrite !andb_true_iff, !Z.eqb_eq. split.
    + intros [[-> ->] ->]. reflexivity.
    + intros [= -> -> ->]. auto.
Qed.

(** C5.  The hexadecimal filter with the format ['{:016x}']: a
    non-negative integer below [16^16] is formatted on sixteen characters,
    and parsing them in base 16 ([_parse_value], and [parse_value] through
    it) gives the integer back. *)
Theorem hex_filter_round_trip (name : option string) (v : Z) :
  0 <= v < 16 ^ 16 ->
  let f := HexIDFilter name (Some "{:016x}") in
  exists s,
    format_value f (VInt v) = Ok s
    /\ String.length s = 16%nat
    /\ _parse_value (Some s) = Ok v
    /\ parse_value_ f (Some s) = Ok (Some (OValue (VInt v))).
Proof.
  intros Hv f. exists (Py.format_zero 16 16 v).
  assert (Hparse : _parse_value (Some (Py.format_zero 16 16 v)) = Ok v).
  { unfold _parse_value. apply PyFacts.int_format_zero. lia. }
  split; [reflexivity |]. split; [| split].
  - apply PyFacts.length_format_zero; [lia | exact Hv].
  - exact Hparse.
  - unfold parse_value_. cbn [variant_of f HexIDFilter].
    rewrite Hparse. reflexivity.
Qed.

(** C6.  [match] by query mode: a filter without a constraint accepts every
    value; under a single-value query it accepts exactly that value; under a
    set query exactly the members of the set; under a range query exactly
    the values between the two bounds, the bounds included.  So the range
    query [visit=(100, 105)] accepts the visits 100 and 105 and rejects 99
    and 106. *)
Theorem match_by_query_mode (f : Filter) (v : value) :
  (values f = Unconstrained -> matches f (Some (OValue v)) = true)
  /\ (forall x, values f = Single x ->
        (matches f (Some (OValue v)) = true <-> v = x))
  /\ (forall vs, values f = OneOf vs ->
        (matches f (Some (OValue v)) = true <-> In v vs))
  /\ (forall lo hi, values f = Range lo hi ->
        (matches f (Some (OValue v)) = true
         <-> value_leb lo v = true /\ value_leb v hi = true))
  /\ (forall lo hi x, values f = Range (VInt lo) (VInt hi) -> v = VInt x ->
        (matches f (Some (OValue v)) = true <-> lo <= x <= hi))
  /\ (values f = Range (VInt 100) (VInt 105) ->
      matches f (Some (OValue (VInt 100))) = true
      /\ matches f (Some (OValue (VInt 105))) = true
      /\ matches f (Some (OValue (VInt 99))) = false
      /\ matches f (Some (OValue (VInt 106))) = false).
Proof.
  unfold matches.
  split; [now intros -> |].
  split; [intros x ->; cbn; apply value_eqb_eq |].
  split.
  { intros vs ->. cbn. rewrite existsb_exists. split.
    - intros (x & Hin & Hx). apply value_eqb_eq in Hx. now subst.
    - intros Hin. exists v. split; [exact Hin | now apply value_eqb_eq]. }
  split; [intros lo hi ->; cbn; apply andb_true_iff |].
  split.
  { intros lo hi x -> ->. cbn. rewrite andb_true_iff, !Z.leb_le. reflexivity. }
  intros ->. repeat split.
Qed.

End FilterClaims.

(** ** The statements at work on the example trees *)

Section Runs.

Import FilterModel Example.

Ltac distinct_keys :=
  repeat (constructor; [cbn; intuition discriminate |]); constructor.

Ltac all_parse :=
  repeat constructor; apply can_parse_parses; vm_compute; reflexivity.

(** The search for design files under [/data]: the two well-formed names
    are returned, the short one is not. *)
Lemma discovery_keeps_the_passing_candidates_witness :
  NoDup (Dict.keys design_fields)
  /\ update_params connector design_fields [] = Ok design_fields
  /\ glob_expression design_patterns design_fields = Ok design_glob
  /\ Forall (parses design_fields design_regex) (fs_glob design_glob)
  /\ exists ids,
       __find_files_and_match_params connector design_patterns design_fields
         [] design_regex []
       = (Ok ([design_2a; design_2b], ids), [Glob design_glob]).
Proof.
  assert (Hnd : NoDup (Dict.keys design_fields)) by distinct_keys.
  assert (Hu : update_params connector design_fields [] = Ok design_fields)
    by reflexivity.
  assert (Hg : glob_expression design_patterns design_fields = Ok design_glob)
    by reflexivity.
  assert (Hp : Forall (parses design_fields design_regex) (fs_glob design_glob))
    by all_parse.
  repeat (split; [assumption |]).
  destruct (discovery_keeps_the_passing_candidates (PF := platform)
              connector design_patterns design_fields [] design_regex []
              design_fields design_glob Hnd Hu Hg) as (Hret & _).
  exact (Hret Hp).
Defined.

(** C2, the claim as it stands, refuted.  Under [/scratch] the glob
    expression admits two design files.  The identifier of the first has a
    letter that [int(_, 16)] rejects; the second is well formed and passes
    the filter.  The search, with a regular expression that takes any
    sixteen characters for the identifier, does not drop the first and
    return the second: it raises the [ValueError] of [int]. *)
Lemma parse_failure_escapes_discovery :
  fs_glob scratch_glob = [scratch_bad; scratch_good]
  /\ fails_to_parse design_fields loose_design_regex scratch_bad
       (Py.invalid_literal 16 "0000000000000g2a")
  /\ passes design_fields loose_design_regex scratch_good
  /\ __find_files_and_match_params connector scratch_patterns design_fields
       [] loose_design_regex []
     = (Raise (Py.invalid_literal 16 "0000000000000g2a"), [Glob scratch_glob]).
Proof.
  split; [reflexivity |]. split; [| split; [| reflexivity]].
  - exists [("pfsDesignId", Some "0000000000000g2a")], "pfsDesignId",
      (HexIDFilter (Some "pfsDesignId") (Some "{:016x}")).
    repeat split. now left.
  - apply keeps_passes. reflexivity.
Qed.

(** The same at the level of [find_pfsConfig], with the regular expression
    of the configuration files: a directory named after a date that does not
    exist makes the search raise. *)
Lemma malformed_date_aborts_find_pfsConfig :
  find_pfsConfig connector (Some "/scratch/pfsConfig") [] []
  = (Raise (ParseError "not a date"),
     [Glob "/scratch/pfsConfig/????-??-??/pfsConfig-0x[0-9a-f]*-[0-9]*.fits"]).
Proof. reflexivity. Qed.

Lemma parse_failure_aborts_discovery_witness :
  NoDup (Dict.keys design_fields)
  /\ update_params connector design_fields [] = Ok design_fields
  /\ glob_expression scratch_patterns design_fields = Ok scratch_glob
  /\ In scratch_bad (fs_glob scratch_glob)
  /\ fails_to_parse design_fields loose_design_regex scratch_bad
       (Py.invalid_literal 16 "0000000000000g2a")
  /\ (exists before path' after e',
        fs_glob scratch_glob = (before ++ path' :: after)%list
        /\ Forall (parses design_fields loose_design_regex) before
        /\ fails_to_parse design_fields loose_design_regex path' e'
        /\ fst (__find_files_and_match_params connector scratch_patterns
                  design_fields [] loose_design_regex [])
           = Raise e')
  /\ glob_expression design_patterns design_fields = Ok design_glob
  /\ Forall (parses design_fields design_regex) (fs_glob design_glob)
  /\ (exists r,
        fst (__find_files_and_match_params connector design_patterns
               design_fields [] design_regex [])
        = Ok r).
Proof.
  assert (Hnd : NoDup (Dict.keys design_fields)) by distinct_keys.
  assert (Hu : update_params connector design_fields [] = Ok design_fields)
    by reflexivity.
  assert (Hg : glob_expression scratch_patterns design_fields = Ok scratch_glob)
    by reflexivity.
  assert (Hin : In scratch_bad (fs_glob scratch_glob)) by (now left).
  assert (Hfail : fails_to_parse design_fields loose_design_regex scratch_bad
                    (Py.invalid_literal 16 "0000000000000g2a")).
  { exists [("pfsDesignId", Some "0000000000000g2a")], "pfsDesignId",
      (HexIDFilter (Some "pfsDesignId") (Some "{:016x}")).
    repeat split. now left. }
  assert (Hg' : glob_expression design_patterns design_fields = Ok design_glob)
    by reflexivity.
  assert (Hp : Forall (parses design_fields design_regex) (fs_glob design_glob))
    by all_parse.
  repeat (split; [assumption |]).
  split; [| repeat (split; [assumption |])].
  - exact (proj1 (parse_failure_aborts_discovery (PF := platform)
                    connector scratch_patterns design_fields []
                    loose_design_regex [] design_fields scratch_glob
                    Hnd Hu Hg)
                 scratch_bad _ Hin Hfail).
  - exact (proj2 (parse_failure_aborts_discovery (PF := platform)
                    connector design_patterns design_fields []
                    design_regex [] design_fields design_glob
                    Hnd Hu Hg')
                 Hp).
Defined.

(** The search for the visits 100 to 105 among the configuration files. *)
Lemma discovery_result_is_aligned_witness :
  NoDup (Dict.keys config_fields)
  /\ __find_files_and_match_params connector config_patterns config_fields
       visits_100_105 config_path []
     = (Ok visits_found, [Glob config_glob])
  /\ exists params',
       update_params connector config_fields visits_100_105 = Ok params'
       /\ Dict.keys (snd visits_found) = Dict.keys config_fields
       /\ Dict.keys params' = Dict.keys config_fields
       /\ forall k l, In (k, l) (snd visits_found) ->
            List.length l = List.length (fst visits_found)
            /\ exists f,
                 In (k, f) params'
                 /\ forall i path, nth_error (fst visits_found) i = Some path ->
                      exists v, nth_error l i = Some v
                                /\ parsed_from config_path k f path v.
Proof.
  assert (Hnd : NoDup (Dict.keys config_fields)) by distinct_keys.
  assert (Hfind :
            __find_files_and_match_params connector config_patterns
              config_fields visits_100_105 config_path []
            = (Ok visits_found, [Glob config_glob])) by reflexivity.
  split; [exact Hnd |]. split; [exact Hfind |].
  exact (discovery_result_is_aligned (PF := platform)
           connector config_patterns config_fields visits_100_105 config_path
           [] [Glob config_glob] (fst visits_found) (snd visits_found)
           Hnd Hfind).
Defined.

(** The set-up of a query on a connector whose visit filter has the range
    100 to 105: no visit given, the design 42. *)
Lemma query_setup_by_override_witness :
  NoDup (Dict.keys overrides)
  /\ (forall params',
        update_params connector_visits config_fields overrides = Ok params' ->
        Dict.keys params' = Dict.keys config_fields
        /\ forall k f, Dict.get config_fields k = Some f ->
             exists f',
               Dict.get params' k = Some f'
               /\ match Dict.get overrides k with
                  | Some (Some v) => set_values f (Some v) = Ok f'
                  | Some None =>
                      match getattr_ connector_visits k with
                      | Some default => set_values f default = Ok f'
                      | None => f' = f
                      end
                  | None => f' = f
                  end)
  /\ (forall k f, Dict.get config_fields k = Some f ->
        exists f', updated connector_visits overrides k f f')
  /\ exists params',
       update_params connector_visits config_fields overrides = Ok params'.
Proof.
  assert (Hnd : NoDup (Dict.keys overrides)) by distinct_keys.
  assert (Hset : forall k f, Dict.get config_fields k = Some f ->
                   exists f', updated connector_visits overrides k f f').
  { intros k f. unfold updated. cbn [Dict.get overrides config_fields
      __get_pfsConfig_identity_fields].
    destruct (String.eqb "pfsDesignId" k) eqn:E1.
    { apply String.eqb_eq in E1. subst k. intros [= <-]. eexists. reflexivity. }
    destruct (String.eqb "visit" k) eqn:E2.
    { apply String.eqb_eq in E2. subst k. intros [= <-]. eexists. reflexivity. }
    destruct (String.eqb "date" k) eqn:E3; [| discriminate].
    apply String.eqb_eq in E3. subst k. intros [= <-]. eexists. reflexivity. }
  pose proof (query_setup_by_override
                connector_visits config_fields overrides Hnd) as (H1 & H2 & _).
  split; [exact Hnd |]. split; [exact H1 |]. split; [exact Hset |].
  exact (H2 Hset).
Defined.

(** No file; the two files of the search for the visits 100 to 105; the
    one file of the search for the design 42. *)
Lemma single_file_or_error_witness :
  __get_single_file [] (snd visits_found)
  = Raise (FileNotFoundError "No file found matching the query.")
  /\ (2 <= List.length (fst visits_found))%nat
  /\ __get_single_file (fst visits_found) (snd visits_found)
     = Raise (FileNotFoundError "Multiple files found matching the query.")
  /\ NoDup (Dict.keys design_fields)
  /\ __find_files_and_match_params connector design_patterns design_fields
       design_42 design_regex []
     = (Ok ([design_2a], [("pfsDesignId", [Some (OValue (VInt 42))])]),
        [Glob design_2a])
  /\ exists identity params',
       __get_single_file [design_2a]
         [("pfsDesignId", [Some (OValue (VInt 42))])]
       = Ok (design_2a, identity)
       /\ Forall2 (fun kl kv => fst kv = fst kl /\ snd kl = [snd kv])
                  [("pfsDesignId", [Some (OValue (VInt 42))])] identity
       /\ update_params connector design_fields design_42 = Ok params'
       /\ forall k f, In (k, f) params' ->
            exists v, Dict.get identity k = Some v
                      /\ parsed_from design_regex k f design_2a v.
Proof.
  assert (H2 : (2 <= List.length (fst visits_found))%nat) by (cbn; lia).
  assert (Hnd : NoDup (Dict.keys design_fields)) by distinct_keys.
  assert (Hfind :
            __find_files_and_match_params connector design_patterns
              design_fields design_42 design_regex []
            = (Ok ([design_2a], [("pfsDesignId", [Some (OValue (VInt 42))])]),
               [Glob design_2a])) by reflexivity.
  split.
  { exact (proj1 (single_file_or_error (PF := platform) []
                    (snd visits_found)) eq_refl). }
  split; [exact H2 |]. split.
  { exact (proj1 (proj2 (single_file_or_error (PF := platform)
                           (fst visits_found) (snd visits_found))) H2). }
  split; [exact Hnd |]. split; [exact Hfind |].
  exact (proj2 (proj2 (single_file_or_error (PF := platform) [design_2a]
                         [("pfsDesignId", [Some (OValue (VInt 42))])]))
               design_2a eq_refl connector design_patterns design_fields
               design_42 design_regex [] [Glob design_2a] Hnd Hfind).
Defined.

(** C3, the claim as it stands, refuted.  Locating the design 7, of which
    there is no file, and locating a design without a constraint, of which
    there are two, raise exceptions of one and the same class: a handler
    cannot tell the ambiguous result from the missing file by the kind of
    the error. *)
Lemma ambiguous_and_missing_raise_the_same_class :
  exists missing ambiguous,
    fst (locate_pfsDesign connector None
           [("pfsDesignId", Some (OValue (VInt 7)))] [])
    = Raise missing
    /\ fst (locate_pfsDesign connector None [] []) = Raise ambiguous
    /\ class_of ambiguous = class_of missing.
Proof.
  exists (FileNotFoundError "No file found matching the query."),
    (FileNotFoundError "Multiple files found matching the query.").
  repeat split.
Qed.

(** A loader called with nothing, with both arguments, and with one. *)
Lemma load_takes_exactly_one_witness :
  (load_pfsDesign connector None None [] = (Raise (ValueError only_one), [])
   /\ load_pfsConfig connector None None [] = (Raise (ValueError only_one), [])
   /\ load_pfsSingle connector None None [] = (Raise (ValueError only_one), []))
  /\ (load_pfsDesign connector (Some design_2a)
        (Some [("pfsDesignId", Some (OValue (VInt 42)))]) []
      = (Raise (ValueError only_one), [])
      /\ load_pfsConfig connector (Some design_2a)
           (Some [("pfsDesignId", Some (OValue (VInt 42)))]) []
         = (Raise (ValueError only_one), [])
      /\ load_pfsSingle connector (Some design_2a)
           (Some [("pfsDesignId", Some (OValue (VInt 42)))]) []
         = (Raise (ValueError only_one), []))
  /\ __ensure_one_param (load_args (Some design_2a) (@None (@Identity obj)))
     = Ok tt
  /\ __ensure_one_param
       (load_args None (Some [("pfsDesignId", Some (OValue (VInt 42)))]))
     = Ok tt.
Proof.
  split.
  { exact (proj1 (load_takes_exactly_one (PF := platform) connector None None [])
                 eq_refl). }
  split.
  { exact (proj1 (load_takes_exactly_one (PF := platform) connector
                    (Some design_2a)
                    (Some [("pfsDesignId", Some (OValue (VInt 42)))]) [])
                 eq_refl). }
  split.
  - apply (proj2 (load_takes_exactly_one (PF := platform) connector
                    (Some design_2a) None [])).
    discriminate.
  - apply (proj2 (load_takes_exactly_one (PF := platform) connector None
                    (Some [("pfsDesignId", Some (OValue (VInt 42)))]) [])).
    discriminate.
Defined.

(** The identifier 42. *)
Lemma hex_filter_round_trip_witness :
  0 <= 42 < 16 ^ 16
  /\ exists s,
       format_value (HexIDFilter (Some "pfsDesignId") (Some "{:016x}"))
         (VInt 42) = Ok s
       /\ String.length s = 16%nat
       /\ _parse_value (Some s) = Ok 42
       /\ parse_value_ (HexIDFilter (Some "pfsDesignId") (Some "{:016x}"))
            (Some s) = Ok (Some (OValue (VInt 42))).
Proof.
  assert (H : 0 <= 42 < 16 ^ 16) by (split; [discriminate | reflexivity]).
  split; [exact H |].
  exact (hex_filter_round_trip (Some "pfsDesignId") 42 H).
Defined.

(** The visit 100 under the four query modes. *)
Lemma match_by_query_mode_witness :
  matches visit_any (Some (OValue (VInt 100))) = true
  /\ (matches visit_one (Some (OValue (VInt 100))) = true <-> VInt 100 = VInt 100)
  /\ (matches visit_set (Some (OValue (VInt 100))) = true
      <-> In (VInt 100) [VInt 99; VInt 100])
  /\ (matches visit_range (Some (OValue (VInt 100))) = true
      <-> value_leb (VInt 100) (VInt 100) = true
          /\ value_leb (VInt 100) (VInt 105) = true)
  /\ (matches visit_range (Some (OValue (VInt 100))) = true <-> 100 <= 100 <= 105)
  /\ (matches visit_range (Some (OValue (VInt 100))) = true
      /\ matches visit_range (Some (OValue (VInt 105))) = true
      /\ matches visit_range (Some (OValue (VInt 99))) = false
      /\ matches visit_range (Some (OValue (VInt 106))) = false).
Proof.
  destruct (match_by_query_mode visit_any (VInt 100)) as (H1 & _).
  destruct (match_by_query_mode visit_one (VInt 100)) as (_ & H2 & _).
  destruct (match_by_query_mode visit_set (VInt 100)) as (_ & _ & H3 & _).
  destruct (match_by_query_mode visit_range (VInt 100))
    as (_ & _ & _ & H4 & H5 & H6).
  split; [exact (H1 eq_refl) |]. split; [exact (H2 _ eq_refl) |].
  split; [exact (H3 _ eq_refl) |]. split; [exact (H4 _ _ eq_refl) |].
  split; [exact (H5 _ _ _ eq_refl eq_refl) | exact (H6 eq_refl)].
Defined.

(** A name that is no design file, and the name of the design 42. *)
Lemma parse_filename_params_cases_witness :
  re_search design_regex "README" = None
  /\ (__parse_filename_params "README" design_fields design_regex true []
      = (Raise (ValueError (format_mismatch "README")), [])
      /\ __parse_filename_params "README" design_fields design_regex false []
         = (Ok None, [LogWarning (format_mismatch "README")]))
  /\ re_search design_regex "pfsDesign-0x000000000000002a.fits"
     = Some [("pfsDesignId", Some "000000000000002a")]
  /\ (forall k f, In (k, f) design_fields ->
        exists v, parsed [("pfsDesignId", Some "000000000000002a")] k f = Ok v)
  /\ exists identity,
       __parse_filename_params "pfsDesign-0x000000000000002a.fits"
         design_fields design_regex true []
       = (Ok (Some identity), [])
       /\ Forall2 (fun kf kv =>
                     fst kv = fst kf
                     /\ (g <- group [("pfsDesignId", Some "000000000000002a")]
                                    (fst kf) ;;
                         parse_value (snd kf) g)%res
                        = Ok (snd kv))
                  design_fields identity.
Proof.
  assert (H0 : re_search design_regex "README" = None) by reflexivity.
  assert (H1 : re_search design_regex "pfsDesign-0x000000000000002a.fits"
               = Some [("pfsDesignId", Some "000000000000002a")])
    by reflexivity.
  assert (H2 : forall k f, In (k, f) design_fields ->
             exists v,
               parsed [("pfsDesignId", Some "000000000000002a")] k f = Ok v).
  { intros k f [[= <- <-] | []]. eexists. reflexivity. }
  split; [exact H0 |]. split.
  { exact (proj1 (parse_filename_params_cases (PF := platform) "README"
                    design_fields design_regex []) H0). }
  split; [exact H1 |]. split; [exact H2 |].
  exact (proj2 (parse_filename_params_cases (PF := platform)
                  "pfsDesign-0x000000000000002a.fits" design_fields
                  design_regex [])
               _ true H1 H2).
Defined.

(** The connector of the example, whose data directory is [/data]. *)
Lemma get_datadir_without_reference_witness :
  __datadir connector = Some "/data"
  /\ get_datadir connector None true [] = (Ok "/data", [])
  /\ get_datadir connector None false [] = (Ok "/data", []).
Proof.
  assert (H : __datadir connector = Some "/data") by reflexivity.
  split; [exact H |]. split.
  - exact (get_datadir_without_reference (PF := platform) connector true []
             "/data" H).
  - exact (get_datadir_without_reference (PF := platform) connector false []
             "/data" H).
Defined.

(** C10, the claim as it stands, refuted.  A connector made where
    [GAPIPE_DATADIR] is not set has no data directory, and [get_datadir]
    without a reference path raises [TypeError] on it, whatever [required]
    is. *)
Lemma get_datadir_raises_without_data_directory :
  __datadir connector_unset = None
  /\ @get_datadir _ _ (platform_with []) connector_unset None true []
     = (Raise (TypeError
                 "expected str, bytes or os.PathLike object, not NoneType"),
        [])
  /\ @get_datadir _ _ (platform_with []) connector_unset None false []
     = (Raise (TypeError
                 "expected str, bytes or os.PathLike object, not NoneType"),
        []).
Proof. repeat split. Qed.

End Runs.

(** * More of the connector

    ** Text and lists *)

Module StrFacts.

Lemma split_not_nil (sep : ascii) (s : string) : split sep s <> [].
Proof.
  destruct s as [| c r]; cbn; [discriminate |].
  destruct (Ascii.eqb c sep); [discriminate |].
  destruct (split sep r); discriminate.
Qed.

Lemma concat_cons (sep x : string) (l : list string) :
  l <> [] -> String.concat sep (x :: l) = x ++ sep ++ String.concat sep l.
Proof. destruct l; [congruence | reflexivity]. Qed.

Lemma join_split (sep : ascii) (s : string) :
  join (String sep "") (split sep s) = s.
Proof.
  unfold join. induction s as [| c r IH]; [reflexivity |].
  cbn [split]. destruct (Ascii.eqb c sep) eqn:E.
  - apply Ascii.eqb_eq in E. subst c.
    rewrite concat_cons by apply split_not_nil. cbn. now rewrite IH.
  - pose proof (split_not_nil sep r) as Hne.
    destruct (split sep r) as [| h t]; [congruence |].
    destruct t as [| h' t'].
    + cbn in *. now rewrite IH.
    + rewrite concat_cons by discriminate.
      rewrite concat_cons in IH by discriminate.
      cbn [append] in *. now rewrite IH.
Qed.

Lemma append_assoc (a b c : string) : (a ++ b) ++ c = a ++ b ++ c.
Proof. induction a as [| x a IH]; cbn; [reflexivity | now rewrite IH]. Qed.

Lemma join_app (sep : string) (l1 l2 : list string) :
  l1 <> [] -> l2 <> [] ->
  join sep (l1 ++ l2) = join sep l1 ++ sep ++ join sep l2.
Proof.
  unfold join. intros H1 H2. induction l1 as [| x l1 IH]; [congruence |].
  destruct l1 as [| y l1].
  - cbn [app]. now rewrite concat_cons.
  - change ((x :: y :: l1) ++ l2)%list with (x :: (y :: l1) ++ l2)%list.
    rewrite concat_cons by discriminate.
    rewrite IH by discriminate.
    rewrite (concat_cons sep x (y :: l1)) by discriminate.
    now rewrite !append_assoc.
Qed.

(** Where [l.index(x)] points: at the first [x] of [l]. *)
Lemma index_spec (l : list string) (x : string) :
  contains l x = true ->
  exists before after,
    l = (before ++ x :: after)%list
    /\ ~ In x before
    /\ index l x = Z.of_nat (List.length before).
Proof.
  unfold contains. induction l as [| y l IH]; cbn [existsb index];
    [discriminate |].
  destruct (String.eqb y x) eqn:E.
  - apply String.eqb_eq in E. subst y. intros _.
    exists [], l. repeat split. intros [].
  - rewrite String.eqb_sym in E. rewrite E. cbn [orb].
    rewrite String.eqb_sym in E.
    intros H. destruct (IH H) as (b & a & -> & Hn & Hi).
    exists (y :: b), a. split; [reflexivity |]. split.
    + intros [-> | Hin]; [now rewrite String.eqb_refl in E | contradiction].
    + rewrite Hi. cbn [List.length]. lia.
Qed.

Lemma contains_false (l : list string) (x : string) :
  contains l x = false <-> ~ In x l.
Proof.
  unfold contains. split.
  - intros H Hin. assert (existsb (String.eqb x) l = true).
    { apply existsb_exists. exists x. split; [exact Hin | apply String.eqb_refl]. }
    congruence.
  - intros H. destruct (existsb (String.eqb x) l) eqn:E; [| reflexivity].
    apply existsb_exists in E. destruct E as (y & Hin & Hy).
    apply String.eqb_eq in Hy. subst y. contradiction.
Qed.

Lemma slice_to_before {A} (before after : list A) :
  slice_to (before ++ after) (Z.of_nat (List.length before)) = before.
Proof.
  unfold slice_to. rewrite Nat2Z.id.
  rewrite firstn_app, firstn_all, Nat.sub_diag. cbn. apply app_nil_r.
Qed.

End StrFacts.

(** ** Directories inferred from a reference path *)

Section LocationFacts.

Import StrFacts.

Context {Filter obj : Type}.
Context {FO : FilterOps Filter obj} {PF : Platform obj}.

Local Abbreviation Connector := (@FileSystemConnector Filter obj).
Local Abbreviation sep := (String os_sep "").

Lemma contains_true (l : list string) (x : string) :
  contains l x = true <-> In x l.
Proof.
  destruct (contains l x) eqn:E.
  - split; [intros _ | reflexivity].
    destruct (in_dec string_dec x l) as [H | H]; [exact H |].
    apply contains_false in H. congruence.
  - apply contains_false in E. split; [discriminate | contradiction].
Qed.

(** The text of a path around its first segment named [x]. *)
Lemma around_segment (p x : string) (before after : list string) :
  split os_sep p = (before ++ x :: after)%list ->
  (before <> [] -> p = join sep before ++ sep ++ join sep (x :: after))
  /\ (before = [] -> p = join sep (x :: after)).
Proof.
  intros Hs. pose proof (join_split os_sep p) as Hj. rewrite Hs in Hj.
  split.
  - intros Hne. rewrite <- Hj at 1. apply join_app; [exact Hne | discriminate].
  - intros ->. now rewrite <- Hj at 1.
Qed.

(** The end of [get_datadir] and of [get_rerundir] when a segment was
    found. *)
Lemma found_segment (dirs : list string) (x : string)
    (fallback : M string) (w : list event) :
  contains dirs x = true ->
  exists before after,
    dirs = (before ++ x :: after)%list
    /\ ~ In x before
    /\ index dirs x <> -1
    /\ (if negb (index dirs x =? -1) then
          lift (abspath (Some (join sep (slice_to dirs (index dirs x)))))
        else fallback) w
       = (Ok (os_path_abspath (join sep before)), w).
Proof.
  intros Hc. destruct (index_spec dirs x Hc) as (before & after & -> & Hn & Hi).
  exists before, after. split; [reflexivity |]. split; [exact Hn |].
  assert (Hne : index (before ++ x :: after) x <> -1) by lia.
  split; [exact Hne |].
  apply Z.eqb_neq in Hne. rewrite Hne. cbn [negb].
  rewrite Hi, slice_to_before. reflexivity.
Qed.

(** X1.  [get_datadir] with a reference path that has a segment named
    [rerun], or else [pfsConfig], or else [pfsDesign] (in this order of
    preference): the call returns the absolute path of what precedes the
    first such segment in the path, whatever [required] is and whatever the
    data directory of the connector is; it raises nothing and logs
    nothing.  The path is that prefix, the separator and the rest. *)
Theorem get_datadir_from_reference
    (self : Connector) (p : string) (required : bool) (w : list event)
    (anchor : string) :
  let dirs := split os_sep p in
  anchor = "rerun"
  \/ (anchor = "pfsConfig" /\ ~ In "rerun" dirs)
  \/ (anchor = "pfsDesign" /\ ~ In "rerun" dirs /\ ~ In "pfsConfig" dirs) ->
  In anchor dirs ->
  exists before after,
    dirs = (before ++ anchor :: after)%list
    /\ ~ In anchor before
    /\ get_datadir self (Some p) required w
       = (Ok (os_path_abspath (join sep before)), w)
    /\ (before <> [] ->
        p = join sep before ++ sep ++ join sep (anchor :: after))
    /\ (before = [] -> p = join sep (anchor :: after)).
Proof.
  intros dirs Hcase Hin. apply contains_true in Hin.
  destruct (found_segment dirs anchor (lift (abspath (__datadir self))) w Hin)
    as (before & after & Hd & Hn & _ & Hend).
  exists before, after. split; [exact Hd |]. split; [exact Hn |].
  split; [| now apply around_segment].
  unfold get_datadir, bind, ret. fold dirs.
  destruct Hcase as [-> | [(-> & H1) | (-> & H1 & H2)]].
  - rewrite Hin. exact Hend.
  - apply contains_false in H1. rewrite H1, Hin. exact Hend.
  - apply contains_false in H1. apply contains_false in H2.
    rewrite H1, H2, Hin. exact Hend.
Qed.

(** Without a segment to go by, and not required: one warning, then what
    the call makes of the data directory of the connector. *)
Lemma get_datadir_unanchored (self : Connector) (p : string)
    (w : list event) :
  let dirs := split os_sep p in
  ~ In "rerun" dirs -> ~ In "pfsConfig" dirs -> ~ In "pfsDesign" dirs ->
  get_datadir self (Some p) false w
  = (abspath (__datadir self),
     (w ++ [LogWarning
              "Data directory cannot be inferred from reference path."])%list).
Proof.
  intros dirs H1 H2 H3.
  apply contains_false in H1. apply contains_false in H2.
  apply contains_false in H3.
  unfold get_datadir, bind, ret, __throw_or_warn, raise, emit, lift.
  fold dirs. rewrite H1, H2, H3. reflexivity.
Qed.

(** X2.  [get_datadir] with a reference path that has no segment named
    [rerun], [pfsConfig] or [pfsDesign]: with [required] the call raises
    [ValueError] and logs nothing; without it the call logs one warning and
    answers as it does without a reference path, from the data directory of
    the connector. *)
Theorem get_datadir_without_anchor
    (self : Connector) (p : string) (w : list event) :
  let dirs := split os_sep p in
  let message := "Data directory cannot be inferred from reference path." in
  ~ In "rerun" dirs -> ~ In "pfsConfig" dirs -> ~ In "pfsDesign" dirs ->
  get_datadir self (Some p) true w = (Raise (ValueError message), w)
  /\ get_datadir self (Some p) false w
     = (fst (get_datadir self None false w), (w ++ [LogWarning message])%list)
  /\ fst (get_datadir self None false w) = abspath (__datadir self).
Proof.
  intros dirs message H1 H2 H3. split; [| split; [| reflexivity]].
  - apply contains_false in H1. apply contains_false in H2.
    apply contains_false in H3.
    unfold get_datadir, bind, ret, __throw_or_warn, raise, emit, lift.
    fold dirs. rewrite H1, H2, H3. reflexivity.
  - now rewrite (get_datadir_unanchored self p w H1 H2 H3).
Qed.

End LocationFacts.

Section RerunFacts.

Import StrFacts.

Context {Filter obj : Type}.
Context {FO : FilterOps Filter obj} {PF : Platform obj}.

Local Abbreviation Connector := (@FileSystemConnector Filter obj).
Local Abbreviation sep := (String os_sep "").

Lemma first_product_found (dirs earlier later : list string) (x : string) :
  Forall (fun y => ~ In y dirs) earlier ->
  In x dirs ->
  first_product (earlier ++ x :: later) dirs = index dirs x.
Proof.
  intros Hall Hin. induction Hall as [| y earlier Hy _ IH]; cbn.
  - apply contains_true in Hin. now rewrite Hin.
  - apply contains_false in Hy. now rewrite Hy.
Qed.


(** X3.  [get_rerundir] with a reference path that has a segment named
    after a product: the products are tried in the order [pfsArm],
    [pfsMerged], [pfsSingle], [pfsObject], [pfsGAObject], and for the first
    that names a segment the call returns the absolute path of what
    precedes the first such segment, whatever [required] is and whatever
    the directories of the connector are; it raises nothing and logs
    nothing. *)
Theorem get_rerundir_from_reference
    (self : Connector) (p : string) (required : bool) (w : list event)
    (earlier later : list string) (product_ : string) :
  let dirs := split os_sep p in
  ["pfsArm"; "pfsMerged"; "pfsSingle"; "pfsObject"; "pfsGAObject"]
  = (earlier ++ product_ :: later)%list ->
  Forall (fun y => ~ In y dirs) earlier ->
  In product_ dirs ->
  exists before after,
    dirs = (before ++ product_ :: after)%list
    /\ ~ In product_ before
    /\ get_rerundir self (Some p) required w
       = (Ok (os_path_abspath (join sep before)), w)
    /\ (before <> [] ->
        p = join sep before ++ sep ++ join sep (product_ :: after))
    /\ (before = [] -> p = join sep (product_ :: after)).
Proof.
  intros dirs Hlist Hearlier Hin.
  pose proof (first_product_found dirs earlier later product_ Hearlier Hin)
    as Hfp.
  apply contains_true in Hin.
  destruct (found_segment dirs product_
              (p0 <- lift (path_join_opt [__datadir self; __rerundir self]) ;;
               lift (abspath (Some p0)))%conn w Hin)
    as (before & after & Hd & Hn & Hne & Hend).
  exists before, after. split; [exact Hd |]. split; [exact Hn |].
  split; [| now apply around_segment].
  unfold get_rerundir. fold dirs. rewrite Hlist, Hfp.
  apply Z.eqb_neq in Hne. unfold bind at 1. rewrite Hne. unfold ret at 1.
  rewrite Hne in Hend. rewrite Hne. exact Hend.
Qed.


End RerunFacts.

(** ** Queries *)

Section QueryFacts.

Import DictFacts StrFacts.

Context {Filter obj : Type}.
Context {FO : FilterOps Filter obj} {PF : Platform obj}.
Context {CS : ConstantsT obj} {DM : Datamodel obj} {IA : InstanceAttrs obj}.

Local Abbreviation Connector := (@FileSystemConnector Filter obj).
Local Abbreviation Params := (@Params Filter).
Local Abbreviation Identity := (@Identity obj).
Local Abbreviation Ids := (@Ids obj).
Local Abbreviation Kwargs := (@Kwargs obj).

Lemma mem_by_keys {A B} (d1 : Dict.t A) (d2 : Dict.t B) (k : string) :
  Dict.keys d1 = Dict.keys d2 -> Dict.mem d1 k = Dict.mem d2 k.
Proof.
  intros H. destruct (Dict.mem d2 k) eqn:E.
  - apply mem_true. rewrite H. now apply mem_true.
  - destruct (Dict.mem d1 k) eqn:E1; [| reflexivity].
    apply mem_true in E1. rewrite H in E1. apply mem_true in E1. congruence.
Qed.

Lemma update_params_known (self : Connector) (kwargs : Kwargs) :
  forall params : Params,
    update_params self params kwargs
    = update_params self params
        (filter (fun kv => Dict.mem params (fst kv)) kwargs).
Proof.
  induction kwargs as [| [k v] kwargs IH]; intros params; [reflexivity |].
  cbn [filter fst]. destruct (Dict.mem params k) eqn:Hmem.
  - cbn [update_params].
    destruct (update_param self params k v) as [params1 |] eqn:H1;
      cbn [rbind]; [| reflexivity].
    rewrite IH. f_equal. apply filter_ext. intros [k' v'].
    apply mem_by_keys. now apply update_param_spec in H1.
  - cbn [update_params]. unfold update_param. rewrite Hmem. cbn [rbind].
    apply IH.
Qed.

Lemma update_params_skip (self : Connector) (k : string) (v : option obj)
    (before after : Kwargs) (params : Params) :
  Dict.mem params k = false ->
  update_params self params (before ++ (k, v) :: after)%list
  = update_params self params (before ++ after)%list.
Proof.
  intros Hmem. rewrite update_params_known.
  rewrite (update_params_known self (before ++ after)%list).
  rewrite !filter_app. cbn [filter fst]. now rewrite Hmem.
Qed.

(** X5.  In the set-up of a query, a keyword argument whose name is not
    one of the filters is ignored: discovery with the keyword arguments is
    discovery with those of them that name a filter, and it is unchanged
    when an argument that names no filter is left out; no error is raised
    for it. *)
Theorem unknown_keywords_are_ignored
    (self : Connector) (patterns : list string) (params : Params)
    (regex_ : regex) (w : list event) (kwargs : Kwargs) :
  __find_files_and_match_params self patterns params kwargs regex_ w
  = __find_files_and_match_params self patterns params
      (filter (fun kv => Dict.mem params (fst kv)) kwargs) regex_ w
  /\ forall before after k v,
       kwargs = (before ++ (k, v) :: after)%list ->
       Dict.mem params k = false ->
       __find_files_and_match_params self patterns params kwargs regex_ w
       = __find_files_and_match_params self patterns params
           (before ++ after)%list regex_ w.
Proof.
  split.
  - rewrite !find_run. now rewrite <- update_params_known.
  - intros before after k v -> Hmem. rewrite !find_run.
    now rewrite (update_params_skip self k v before after params Hmem).
Qed.

Lemma scan_paths_unmatched (params : Params) (regex_ : regex)
    (paths : list string) :
  Forall (fun path => re_search regex_ path = None) paths ->
  forall (ids : Ids) (values : Identity) (filenames : list string),
    scan_paths params regex_ paths ids values filenames = Ok (filenames, ids).
Proof.
  induction 1 as [| path paths Hm _ IH]; intros ids values filenames;
    cbn [scan_paths]; [reflexivity |].
  rewrite Hm. apply IH.
Qed.

(** X6.  When the regular expression matches none of the candidates of the
    glob expansion (so also when there is no candidate), discovery returns
    no file and, under every filter name, the empty list; it raises
    nothing, and has called [glob] once.  [__get_single_file] on that
    result raises [FileNotFoundError]. *)
Theorem discovery_of_nothing
    (self : Connector) (patterns : list string) (params params' : Params)
    (kwargs : Kwargs) (regex_ : regex) (w : list event) (pattern : string) :
  update_params self params kwargs = Ok params' ->
  glob_expression patterns params' = Ok pattern ->
  Forall (fun path => re_search regex_ path = None) (fs_glob pattern) ->
  let empty := map (fun k => (k, @nil (option obj))) (Dict.keys params) in
  __find_files_and_match_params self patterns params kwargs regex_ w
  = (Ok ([], empty), (w ++ [Glob pattern])%list)
  /\ __get_single_file [] empty
     = Raise (FileNotFoundError "No file found matching the query.").
Proof.
  intros Hu Hg Hnone empty. split; [| reflexivity].
  rewrite find_run, Hu, Hg. unfold match_candidates.
  rewrite (scan_paths_unmatched _ _ _ Hnone).
  unfold empty. now rewrite (update_params_keys _ _ _ _ Hu).
Qed.

(** What [get_datadir] adds to the trace: nothing, or one warning. *)
Lemma get_datadir_trace (self : Connector) (reference_path : option string)
    (required : bool) (w : list event) :
  exists tail,
    snd (get_datadir self reference_path required w) = (w ++ tail)%list
    /\ at_most_a_warning tail.
Proof.
  unfold get_datadir, bind, ret, lift, __throw_or_warn, raise, emit.
  destruct reference_path as [p |].
  - destruct (contains _ "rerun"); [exists []; rewrite app_nil_r; cbn;
      destruct (negb _); split; (reflexivity || now left) |].
    destruct (contains _ "pfsConfig"); [exists []; rewrite app_nil_r; cbn;
      destruct (negb _); split; (reflexivity || now left) |].
    destruct (contains _ "pfsDesign"); [exists []; rewrite app_nil_r; cbn;
      destruct (negb _); split; (reflexivity || now left) |].
    destruct required; cbn.
    + exists []. rewrite app_nil_r. split; [reflexivity | now left].
    + eexists. split; [reflexivity |]. right. eauto.
  - exists []. rewrite app_nil_r. cbn. split; [reflexivity | now left].
Qed.

Lemma get_datadir_none (self : Connector) (required : bool) (w : list event) :
  get_datadir self None required w = (abspath (__datadir self), w).
Proof. reflexivity. Qed.

End QueryFacts.

Section LocateFacts.

Import DictFacts StrFacts.

Context {Filter obj : Type}.
Context {FO : FilterOps Filter obj} {PF : Platform obj}.
Context {CS : ConstantsT obj} {DM : Datamodel obj} {IA : InstanceAttrs obj}.

Local Abbreviation Connector := (@FileSystemConnector Filter obj).
Local Abbreviation Params := (@Params Filter).
Local Abbreviation Identity := (@Identity obj).
Local Abbreviation Ids := (@Ids obj).
Local Abbreviation Kwargs := (@Kwargs obj).

Ltac distinct_names :=
  repeat (constructor; [cbn; intuition discriminate |]); constructor.

Lemma first_of_each_get :
  forall (ids : Ids) (identity : Identity),
    first_of_each ids = Ok identity ->
    forall k l, Dict.get ids k = Some l ->
      exists v rest, l = v :: rest /\ Dict.get identity k = Some v.
Proof.
  induction ids as [| [k0 l0] ids IH]; intros identity; cbn [first_of_each].
  - intros _ k l. discriminate.
  - destruct l0 as [| x rest0]; cbn [first rbind]; [discriminate |].
    destruct (first_of_each ids) as [xs |]; cbn [rbind]; [| discriminate].
    intros [= <-] k l. cbn [Dict.get].
    destruct (String.eqb k0 k); [| now apply IH].
    intros [= <-]. eauto.
Qed.

Lemma located_by_find (self : Connector) (patterns : list string)
    (params : Params) (kwargs : Kwargs) (regex_ : regex)
    (w w1 : list event) (files : list string) (ids : Ids) (path : string)
    (identity : Identity) :
  NoDup (Dict.keys params) ->
  __find_files_and_match_params self patterns params kwargs regex_ w
  = (Ok (files, ids), w1) ->
  __get_single_file files ids = Ok (path, identity) ->
  located self patterns params kwargs regex_ path identity.
Proof.
  intros Hnd Hfind Hsingle.
  destruct (find_ok _ _ _ _ _ _ _ _ _ Hnd Hfind)
    as (params' & pattern & Hu & Hg & _ & _ & (_ & Hcols) & Hfiles).
  unfold __get_single_file in Hsingle.
  destruct files as [| a [| b files]]; cbn in Hsingle; try discriminate.
  destruct (first_of_each ids) as [identity' |] eqn:Hid; cbn in Hsingle;
    [| discriminate].
  injection Hsingle as <- <-.
  exists params', pattern. split; [exact Hu |]. split; [exact Hg |].
  split; [now symmetry |]. split.
  - apply keeps_passes.
    assert (Hin : In a (filter (keeps params' regex_) (fs_glob pattern))).
    { rewrite <- Hfiles. now left. }
    apply filter_In in Hin. apply Hin.
  - intros k f Hkf. destruct (Hcols k f Hkf) as (l & Hl & Hf2).
    destruct (first_of_each_get ids identity' Hid k l Hl)
      as (v & rest & -> & Hv).
    exists v. split; [exact Hv |].
    inversion Hf2 as [| ? ? ? ? Hp _]; subst. exact Hp.
Qed.

(** X7.  What [locate_pfsDesign], [locate_pfsConfig] and
    [locate_pfsSingle] return, when they return: the path is the one
    candidate of the glob expansion, under the inferred directories, that
    matches the regular expression and passes the filters as the keyword
    arguments set them, and the record holds under each filter name the
    value that this filter parses from that path. *)
Theorem locate_returns_the_one_match
    (self : Connector) (reference_path : option string) (kwargs : Kwargs)
    (w w' : list event) (path : string) (identity : Identity) :
  (locate_pfsDesign self reference_path kwargs w = (Ok (path, identity), w') ->
   exists datadir w1,
     get_datadir self reference_path false w = (Ok datadir, w1)
     /\ located self [datadir; PFSDESIGN_DIR_GLOB; PFSDESIGN_FILENAME_GLOB]
          __get_pfsDesign_identity_fields kwargs PFSDESIGN_FILENAME_REGEX
          path identity)
  /\ (locate_pfsConfig self reference_path kwargs w
      = (Ok (path, identity), w') ->
      exists datadir w1,
        get_datadir self reference_path false w = (Ok datadir, w1)
        /\ located self [datadir; PFSCONFIG_DIR_GLOB; PFSCONFIG_FILENAME_GLOB]
             __get_pfsConfig_identity_fields kwargs PFSCONFIG_PATH_REGEX
             path identity)
  /\ (locate_pfsSingle self reference_path kwargs w
      = (Ok (path, identity), w') ->
      exists datadir rerundir w1 w2,
        get_datadir self reference_path false w = (Ok datadir, w1)
        /\ get_rerundir self reference_path false w1 = (Ok rerundir, w2)
        /\ located self
             [datadir; rerundir; PFSSINGLE_DIR_GLOB; PFSSINGLE_FILENAME_GLOB]
             __get_identity_fields_pfsSingle kwargs PFSSINGLE_FILENAME_REGEX
             path identity).
Proof.
  split; [| split].
  - unfold locate_pfsDesign, find_pfsDesign, bind at 1 2.
    destruct (get_datadir self reference_path false w) as [[datadir |] w1];
      [| discriminate].
    destruct (__find_files_and_match_params _ _ _ _ _ w1)
      as [[[files ids] |] w2] eqn:Hfind; [| discriminate].
    unfold lift. intros [= Hs _]. exists datadir, w1. split; [reflexivity |].
    eapply located_by_find; [| exact Hfind | exact Hs]. distinct_names.
  - unfold locate_pfsConfig, find_pfsConfig, bind at 1 2.
    destruct (get_datadir self reference_path false w) as [[datadir |] w1];
      [| discriminate].
    destruct (__find_files_and_match_params _ _ _ _ _ w1)
      as [[[files ids] |] w2] eqn:Hfind; [| discriminate].
    unfold lift. intros [= Hs _]. exists datadir, w1. split; [reflexivity |].
    eapply located_by_find; [| exact Hfind | exact Hs]. distinct_names.
  - unfold locate_pfsSingle, find_pfsSingle, bind at 1 2.
    destruct (get_datadir self reference_path false w) as [[datadir |] w1];
      [| discriminate].
    unfold bind at 1.
    destruct (get_rerundir self reference_path false w1)
      as [[rerundir |] w2] eqn:Hrerun; [| discriminate].
    destruct (__find_files_and_match_params _ _ _ _ _ w2)
      as [[[files ids] |] w3] eqn:Hfind; [| discriminate].
    unfold lift. intros [= Hs _]. exists datadir, rerundir, w1, w2.
    split; [reflexivity |]. split; [exact Hrerun |].
    eapply located_by_find; [| exact Hfind | exact Hs]. distinct_names.
Qed.

(** X8.  A reference path without a segment named [rerun], [pfsConfig] or
    [pfsDesign] does not make the searches for design and configuration
    files fail: each of [find_pfsDesign], [find_pfsConfig],
    [locate_pfsDesign] and [locate_pfsConfig] logs one warning and then
    goes on as it does without a reference path. *)
Theorem reference_without_anchor_only_warns
    (self : Connector) (p : string) (kwargs : Kwargs) (w : list event) :
  let dirs := split os_sep p in
  let warned :=
    (w ++ [LogWarning
             "Data directory cannot be inferred from reference path."])%list in
  ~ In "rerun" dirs -> ~ In "pfsConfig" dirs -> ~ In "pfsDesign" dirs ->
  find_pfsDesign self (Some p) kwargs w = find_pfsDesign self None kwargs warned
  /\ find_pfsConfig self (Some p) kwargs w
     = find_pfsConfig self None kwargs warned
  /\ locate_pfsDesign self (Some p) kwargs w
     = locate_pfsDesign self None kwargs warned
  /\ locate_pfsConfig self (Some p) kwargs w
     = locate_pfsConfig self None kwargs warned.
Proof.
  intros dirs warned H1 H2 H3.
  assert (Hsame : get_datadir self (Some p) false w
                  = get_datadir self None false warned).
  { now rewrite (get_datadir_unanchored self p w H1 H2 H3). }
  unfold locate_pfsDesign, locate_pfsConfig, find_pfsDesign, find_pfsConfig.
  unfold bind. rewrite Hsame. repeat split.
Qed.

End LocateFacts.

(** ** Parsing names, loading *)

Section ParseFacts.

Import DictFacts StrFacts.

Context {Filter obj : Type}.
Context {FO : FilterOps Filter obj} {PF : Platform obj}.
Context {CS : ConstantsT obj} {DM : Datamodel obj} {IA : InstanceAttrs obj}.

Local Abbreviation Connector := (@FileSystemConnector Filter obj).
Local Abbreviation Params := (@Params Filter).
Local Abbreviation Identity := (@Identity obj).
Local Abbreviation Ids := (@Ids obj).
Local Abbreviation Kwargs := (@Kwargs obj).

Lemma parse_groups_keys (m : Dict.t (option string)) :
  forall (params : Params) (identity : Identity),
    parse_groups m params = Ok identity ->
    Dict.keys identity = Dict.keys params.
Proof.
  intros params identity H. apply parse_groups_spec in H.
  induction H as [| [k f] [k' v] params identity [Hk _] _ IH];
    [reflexivity |].
  unfold Dict.keys in *. cbn in *. congruence.
Qed.

(** A required parse: a record with the names of the filters, or
    [ValueError]; nothing is logged. *)
Lemma required_parse (path : string) (params : Params) (regex_ : regex)
    (w : list event) :
  (forall r w',
      __parse_filename_params path params regex_ true w = (Ok r, w') ->
      w' = w
      /\ exists m identity,
           re_search regex_ path = Some m
           /\ parse_groups m params = Ok identity
           /\ r = Some identity
           /\ Dict.keys identity = Dict.keys params)
  /\ (re_search regex_ path = None ->
      __parse_filename_params path params regex_ true w
      = (Raise (ValueError (format_mismatch path)), w))
  /\ snd (__parse_filename_params path params regex_ true w) = w.
Proof.
  unfold __parse_filename_params, bind, lift, ret, __throw_or_warn, raise.
  destruct (re_search regex_ path) as [m |].
  - destruct (parse_groups m params) as [identity |] eqn:Hp.
    + split; [| split; [discriminate | reflexivity]].
      intros r w' [= <- <-]. split; [reflexivity |].
      exists m, identity.
      repeat split; [exact Hp | now apply parse_groups_keys in Hp].
    + split; [discriminate |]. split; [discriminate | reflexivity].
  - split; [discriminate |]. split; reflexivity.
Qed.

(** X9.  [parse_pfsDesign], [parse_pfsConfig] and [parse_pfsSingle] return
    a record or raise: when they return, nothing was logged and the result
    is not [None] but a record, whose names are [pfsDesignId] for a design file, [pfsDesignId] and
    [visit] for a configuration file given by its name alone, these and
    [date] for one given with a directory, and [catId], [tract], [patch],
    [objId], [visit] for a single-object file.  When the regular
    expression does not match (the file name, or for a configuration file
    with a directory the whole path), they raise [ValueError]. *)
Theorem parse_gives_a_record_or_raises (path : string) (w : list event) :
  let basename := snd (os_path_split path) in
  let dir := fst (os_path_split path) in
  (forall r w',
      parse_pfsDesign path w = (Ok r, w') ->
      w' = w
      /\ exists identity,
           r = Some identity /\ Dict.keys identity = ["pfsDesignId"])
  /\ (forall r w',
        parse_pfsConfig path w = (Ok r, w') ->
        w' = w
        /\ exists identity,
             r = Some identity
             /\ Dict.keys identity
                = if String.eqb dir "" then ["pfsDesignId"; "visit"]
                  else ["pfsDesignId"; "visit"; "date"])
  /\ (forall r w',
        parse_pfsSingle path w = (Ok r, w') ->
        w' = w
        /\ exists identity,
             r = Some identity
             /\ Dict.keys identity
                = ["catId"; "tract"; "patch"; "objId"; "visit"])
  /\ (re_search PFSDESIGN_FILENAME_REGEX basename = None ->
      parse_pfsDesign path w
      = (Raise (ValueError (format_mismatch basename)), w))
  /\ (re_search PFSSINGLE_FILENAME_REGEX basename = None ->
      parse_pfsSingle path w
      = (Raise (ValueError (format_mismatch basename)), w))
  /\ (dir = "" -> re_search PFSCONFIG_FILENAME_REGEX basename = None ->
      parse_pfsConfig path w
      = (Raise (ValueError (format_mismatch basename)), w))
  /\ (dir <> "" -> re_search PFSCONFIG_PATH_REGEX path = None ->
      parse_pfsConfig path w
      = (Raise (ValueError (format_mismatch path)), w)).
Proof.
  intros basename dir.
  unfold parse_pfsDesign, parse_pfsConfig, parse_pfsSingle.
  subst basename dir. destruct (os_path_split path) as [dir basename].
  cbn [fst snd].
  assert (Hrecord :
            forall p (params : Params) (regex_ : regex) r w',
              __parse_filename_params p params regex_ true w = (Ok r, w') ->
              w' = w
              /\ exists identity,
                   r = Some identity
                   /\ Dict.keys identity = Dict.keys params).
  { intros p params regex_ r w' H. apply required_parse in H.
    destruct H as (Hw & m & identity & _ & _ & Hr & Hk). eauto. }
  split; [| split; [| split; [| split; [| split; [| split]]]]].
  - intros r w' H. now apply Hrecord in H.
  - intros r w' H. destruct (String.eqb dir ""); cbn [negb] in H;
      now apply Hrecord in H.
  - intros r w' H. now apply Hrecord in H.
  - apply required_parse.
  - apply required_parse.
  - intros -> Hm. cbn. now apply required_parse.
  - intros Hd Hm. apply String.eqb_neq in Hd. rewrite Hd. cbn.
    now apply required_parse.
Qed.

End ParseFacts.

Section LoadFacts.

Import DictFacts StrFacts.

Context {Filter obj : Type}.
Context {FO : FilterOps Filter obj} {PF : Platform obj}.
Context {CS : ConstantsT obj} {DM : Datamodel obj} {IA : InstanceAttrs obj}.

Local Abbreviation Connector := (@FileSystemConnector Filter obj).
Local Abbreviation Params := (@Params Filter).
Local Abbreviation Identity := (@Identity obj).
Local Abbreviation Ids := (@Ids obj).
Local Abbreviation Kwargs := (@Kwargs obj).

Ltac unfold_loader :=
  unfold load_pfsDesign, load_pfsSingle, load_pfsConfig,
    __parse_filename_params, __throw_or_warn, get_datadir,
    bind, lift, ret, emit, raise.

Ltac by_cases :=
  repeat match goal with
         | |- context [match ?x with _ => _ end] =>
             lazymatch x with
             | context [match _ with _ => _ end] => fail
             | _ => destruct x eqn:?
             end
         end.

Ltac outcome :=
  first [ left; eexists; reflexivity
        | right; eexists; reflexivity ].

(** X10.  [load_pfsDesign] and [load_pfsSingle], and [load_pfsConfig]
    given an identity, do not search the file system and do not log: they
    end in an exception with the trace as it was, or with the trace
    extended by exactly one event, the call of the reader of the
    product. *)
Theorem loaders_do_not_search
    (self : Connector) (filename : option string) (identity : option Identity)
    (w : list event) :
  reads_at_most_once "PfsDesign" w (load_pfsDesign self filename identity w)
  /\ reads_at_most_once "PfsSingle" w (load_pfsSingle self filename identity w)
  /\ (filename = None ->
      reads_at_most_once "PfsConfig" w
        (load_pfsConfig self filename identity w)).
Proof.
  unfold reads_at_most_once. split; [| split].
  - unfold_loader. by_cases; cbn; outcome.
  - unfold_loader. by_cases; cbn; outcome.
  - intros ->. unfold_loader. cbn. by_cases; cbn; outcome.
Qed.

End LoadFacts.

(** ** The trace of a search *)

Section SearchFacts.

Import DictFacts StrFacts.

Context {Filter obj : Type}.
Context {FO : FilterOps Filter obj} {PF : Platform obj}.
Context {CS : ConstantsT obj} {DM : Datamodel obj} {IA : InstanceAttrs obj}.

Local Abbreviation Connector := (@FileSystemConnector Filter obj).
Local Abbreviation Params := (@Params Filter).
Local Abbreviation Identity := (@Identity obj).
Local Abbreviation Ids := (@Ids obj).
Local Abbreviation Kwargs := (@Kwargs obj).

(** X11.  [load_pfsDesign] given a file name uses the last component of
    the name only: the directory part is ignored (two names with the same
    last component give the same call), the design is read from the data
    directory of the connector as it is for the identity parsed from that
    component, and a component that the regular expression does not match
    raises [ValueError] before anything is read. *)
Theorem load_pfsDesign_by_filename
    (self : Connector) (filename : string) (w : list event) :
  let basename := snd (os_path_split filename) in
  (forall other,
      snd (os_path_split other) = basename ->
      load_pfsDesign self (Some other) None w
      = load_pfsDesign self (Some filename) None w)
  /\ (forall identity,
        __parse_filename_params basename [("pfsDesignId", HexFilter None None)]
          PFSDESIGN_FILENAME_REGEX true w
        = (Ok (Some identity), w) ->
        load_pfsDesign self (Some filename) None w
        = load_pfsDesign self None (Some identity) w)
  /\ (re_search PFSDESIGN_FILENAME_REGEX basename = None ->
      load_pfsDesign self (Some filename) None w
      = (Raise (ValueError (format_mismatch basename)), w)).
Proof.
  intros basename. subst basename. split; [| split].
  - intros other Hb. unfold load_pfsDesign.
    destruct (os_path_split other) as [d1 b1].
    destruct (os_path_split filename) as [d2 b2].
    cbn in Hb. now subst b1.
  - intros identity Hp. unfold load_pfsDesign.
    destruct (os_path_split filename) as [d b]. cbn [snd] in Hp.
    unfold bind at 1 2. unfold lift at 1. cbn.
    rewrite Hp. reflexivity.
  - intros Hm. unfold load_pfsDesign.
    destruct (os_path_split filename) as [d b]. cbn [snd] in *.
    unfold bind at 1 2. unfold lift at 1. cbn.
    unfold __parse_filename_params. rewrite Hm. reflexivity.
Qed.

Lemma warning_or_nothing (tail : list event) :
  at_most_a_warning tail -> Forall is_warning tail.
Proof.
  intros [-> | (message & ->)]; repeat constructor. now exists message.
Qed.

Lemma get_rerundir_trace (self : Connector) (reference_path : option string)
    (required : bool) (w : list event) :
  exists tail,
    snd (get_rerundir self reference_path required w) = (w ++ tail)%list
    /\ at_most_a_warning tail.
Proof.
  unfold get_rerundir, bind, ret, lift, __throw_or_warn, raise, emit.
  destruct reference_path as [p |].
  - generalize (first_product
                  ["pfsArm"; "pfsMerged"; "pfsSingle"; "pfsObject";
                   "pfsGAObject"] (split os_sep p)).
    intros i. destruct (i =? -1) eqn:E.
    + destruct required; cbn.
      * exists []. rewrite app_nil_r. split; [reflexivity | now left].
      * rewrite E. cbn.
        destruct (path_join_opt _); eexists; (split; [reflexivity |]);
          right; eauto.
    + cbn. rewrite E. cbn. exists []. rewrite app_nil_r.
      split; [reflexivity | now left].
  - cbn. destruct (path_join_opt _); exists []; rewrite app_nil_r;
      (split; [reflexivity | now left]).
Qed.

Lemma find_trace (self : Connector) (patterns : list string) (params : Params)
    (kwargs : Kwargs) (regex_ : regex) (w : list event) :
  let out := __find_files_and_match_params self patterns params kwargs regex_ w in
  (exists e, out = (Raise e, w))
  \/ (exists pattern, snd out = (w ++ [Glob pattern])%list).
Proof.
  intros out. subst out. rewrite find_run.
  destruct (update_params self params kwargs); [| left; eauto].
  destruct (glob_expression patterns _); [| left; eauto].
  right. eexists. reflexivity.
Qed.

(** X12.  Every search ([find_pfsDesign], [find_pfsConfig],
    [find_pfsSingle] and the three [locate_] calls over them) logs
    warnings only before it lists the file system, calls [glob] at most
    once and nothing after it, and reads no product: its trace is the
    given one, then warnings, then either an exception or the one call of
    [glob]. *)
Theorem finders_search_at_most_once
    (self : Connector) (reference_path : option string) (kwargs : Kwargs)
    (w : list event) :
  searches_at_most_once w (find_pfsDesign self reference_path kwargs w)
  /\ searches_at_most_once w (find_pfsConfig self reference_path kwargs w)
  /\ searches_at_most_once w (find_pfsSingle self reference_path kwargs w)
  /\ searches_at_most_once w (locate_pfsDesign self reference_path kwargs w)
  /\ searches_at_most_once w (locate_pfsConfig self reference_path kwargs w)
  /\ searches_at_most_once w (locate_pfsSingle self reference_path kwargs w).
Proof.
  assert (Hlocate :
            forall (m : M (list string * Ids)),
              searches_at_most_once w (m w) ->
              searches_at_most_once w
                (('(files, ids) <- m ;;
                  lift (__get_single_file files ids))%conn w)).
  { intros m (warnings & Hw & H). exists warnings. split; [exact Hw |].
    unfold bind. destruct H as [(e & ->) | (pattern & Hs)]; [left; eauto |].
    destruct (m w) as [[[files ids] | e] w1]; cbn in *; subst w1;
      [right; eauto | right; eauto]. }
  assert (Hfind :
            forall w1 warnings patterns params regex_,
              Forall is_warning warnings -> w1 = (w ++ warnings)%list ->
              searches_at_most_once w
                (__find_files_and_match_params self patterns params kwargs
                   regex_ w1)).
  { intros w1 warnings patterns params regex_ Hw ->. exists warnings.
    split; [exact Hw |].
    destruct (find_trace self patterns params kwargs regex_
                (w ++ warnings)%list)
      as [(e & ->) | (pattern & Hs)]; [left; eauto |].
    right. exists pattern. now rewrite Hs, app_assoc. }
  assert (Hdesign : searches_at_most_once w
                      (find_pfsDesign self reference_path kwargs w)).
  { unfold find_pfsDesign, bind.
    destruct (get_datadir_trace self reference_path false w) as (t1 & H1 & Ht1).
    destruct (get_datadir self reference_path false w) as [[datadir | e] w1];
      cbn in H1; subst w1.
    - apply (Hfind _ t1); [now apply warning_or_nothing | reflexivity].
    - exists t1. split; [now apply warning_or_nothing | left; eauto]. }
  assert (Hconfig : searches_at_most_once w
                      (find_pfsConfig self reference_path kwargs w)).
  { unfold find_pfsConfig, bind.
    destruct (get_datadir_trace self reference_path false w) as (t1 & H1 & Ht1).
    destruct (get_datadir self reference_path false w) as [[datadir | e] w1];
      cbn in H1; subst w1.
    - apply (Hfind _ t1); [now apply warning_or_nothing | reflexivity].
    - exists t1. split; [now apply warning_or_nothing | left; eauto]. }
  assert (Hsingle : searches_at_most_once w
                      (find_pfsSingle self reference_path kwargs w)).
  { unfold find_pfsSingle, bind.
    destruct (get_datadir_trace self reference_path false w) as (t1 & H1 & Ht1).
    destruct (get_datadir self reference_path false w) as [[datadir | e] w1];
      cbn in H1; subst w1.
    - destruct (get_rerundir_trace self reference_path false (w ++ t1)%list)
        as (t2 & H2 & Ht2).
      destruct (get_rerundir self reference_path false (w ++ t1)%list)
        as [[rerundir | e] w2]; cbn in H2; subst w2.
      + apply (Hfind _ (t1 ++ t2)%list);
          [apply Forall_app; split; now apply warning_or_nothing
          | now rewrite app_assoc].
      + exists (t1 ++ t2)%list.
        split; [apply Forall_app; split; now apply warning_or_nothing |].
        left. exists e. now rewrite app_assoc.
    - exists t1. split; [now apply warning_or_nothing | left; eauto]. }
  repeat split; try assumption;
    unfold locate_pfsDesign, locate_pfsConfig, locate_pfsSingle;
    now apply Hlocate.
Qed.

End SearchFacts.

(** ** Loading a configuration by the name of its file *)

Lemma bind_ok {A B} (m : M A) (f : A -> M B) (w w' : list event) (b : B) :
  bind m f w = (Ok b, w') ->
  exists a w1, m w = (Ok a, w1) /\ f a w1 = (Ok b, w').
Proof.
  unfold bind. destruct (m w) as [[a | e] w1]; [eauto | discriminate].
Qed.

Lemma lift_ok {A} (r : result A) (w w' : list event) (a : A) :
  lift r w = (Ok a, w') -> r = Ok a /\ w' = w.
Proof. unfold lift. now intros [= -> ->]. Qed.

Section ConfigFacts.

Import DictFacts StrFacts.

Context {Filter obj : Type}.
Context {FO : FilterOps Filter obj} {PF : Platform obj}.
Context {CS : ConstantsT obj} {DM : Datamodel obj} {IA : InstanceAttrs obj}.

Local Abbreviation Connector := (@FileSystemConnector Filter obj).
Local Abbreviation Identity := (@Identity obj).
Local Abbreviation Kwargs := (@Kwargs obj).

Lemma parse_pfsConfig_trace (path : string) (w : list event) :
  snd (parse_pfsConfig path w) = w.
Proof.
  unfold parse_pfsConfig. destruct (os_path_split path) as [dir basename].
  destruct (negb (String.eqb dir "")); apply required_parse.
Qed.

(** X18.  [load_pfsConfig] given a file name, when it returns: the name was
    parsed (nothing being logged), the file was located with the parsed
    record as the query and the name as the reference path, and the
    configuration was read from the directory of the file that was located;
    the record returned is the one of the located file, not the parsed
    one, and the reader is the last event of the trace. *)
Theorem load_pfsConfig_by_filename
    (self : Connector) (filename : string) (w w' : list event)
    (o : product) (r : option Identity) :
  load_pfsConfig self (Some filename) None w = (Ok (o, r), w') ->
  exists parsed path identity w1 pfsDesignId visit,
    parse_pfsConfig filename w = (Ok (Some parsed), w)
    /\ locate_pfsConfig self (Some filename) parsed w
       = (Ok (path, identity), w1)
    /\ r = Some identity
    /\ attr identity "pfsDesignId" = Ok pfsDesignId
    /\ attr identity "visit" = Ok visit
    /\ PfsConfig_read pfsDesignId visit (os_path_dirname path) = Ok o
    /\ w' = (w1 ++ [Read "PfsConfig" (os_path_dirname path)])%list.
Proof.
  unfold load_pfsConfig. cbn [load_args option_map].
  intros H.
  apply bind_ok in H. destruct H as ([] & w0 & H0 & H).
  apply lift_ok in H0. destruct H0 as (_ & ->).
  apply bind_ok in H. destruct H as ([dir r'] & w2 & Hdir & H).
  apply bind_ok in Hdir. destruct Hdir as (parsed' & w3 & Hparse & Hdir).
  pose proof (parse_pfsConfig_trace filename w) as Ht.
  rewrite Hparse in Ht. cbn in Ht. subst w3.
  apply bind_ok in Hdir. destruct Hdir as (parsed & w3 & Hd & Hdir).
  apply lift_ok in Hd. destruct Hd as (Hd & ->).
  destruct parsed' as [parsed' |]; [| discriminate]. injection Hd as ->.
  apply bind_ok in Hdir.
  destruct Hdir as ([path identity] & w1 & Hlocate & Hdir).
  injection Hdir as <- <- <-.
  apply bind_ok in H. destruct H as (d & w3 & Hd & H).
  apply lift_ok in Hd. destruct Hd as (Hd & ->). injection Hd as <-.
  apply bind_ok in H. destruct H as (pfsDesignId & w3 & Hp & H).
  apply lift_ok in Hp. destruct Hp as (Hp & ->).
  apply bind_ok in H. destruct H as (visit & w3 & Hv & H).
  apply lift_ok in Hv. destruct Hv as (Hv & ->).
  apply bind_ok in H. destruct H as ([] & w3 & He & H).
  injection He as <-.
  apply bind_ok in H. destruct H as (o' & w4 & Hr & H).
  apply lift_ok in Hr. destruct Hr as (Hr & ->).
  injection H as <- <- <-.
  exists parsed, path, identity, w1, pfsDesignId, visit.
  repeat split; assumption.
Qed.

End ConfigFacts.

(** * Hexadecimal identifiers, again *)

Section HexFacts.

Import Py PyFacts FilterModel.

Lemma digits_text (d : Z) (ds : list Z) :
  string_of_digits (d :: ds) = String (digit_char d) (string_of_digits ds).
Proof. reflexivity. Qed.

(** The digits, read after a sign was taken off. *)
Lemma read_digits (neg : bool) (s : string) (d : Z) (ds : list Z) :
  Forall is_digit16 (d :: ds) ->
  match int_prefix 16 (string_of_digits (d :: ds)) with
  | String c r =>
      match digit_val 16 c with
      | Some d0 =>
          match int_body 16 r d0 with
          | Some (n, rest) =>
              if all_space rest then Ok (if neg then - n else n)
              else Raise (invalid_literal 16 s)
          | None => Raise (invalid_literal 16 s)
          end
      | None => Raise (invalid_literal 16 s)
      end
  | EmptyString => Raise (invalid_literal 16 s)
  end = Ok (if neg then - horner 16 (d :: ds) 0 else horner 16 (d :: ds) 0).
Proof.
  intros Hall. inversion Hall as [| ? ? Hd Hds]; subst.
  rewrite (int_prefix_chars _ Hall), digits_text.
  rewrite (digit_val_char d Hd), (int_body_digits ds Hds).
  reflexivity.
Qed.

Lemma int_of_str_minus (d : Z) (ds : list Z) :
  Forall is_digit16 (d :: ds) ->
  int_of_str 16 (String "-" (string_of_digits (d :: ds)))
  = Ok (- horner 16 (d :: ds) 0).
Proof.
  intros Hall. unfold int_of_str.
  change (lstrip (String "-" (string_of_digits (d :: ds))))
    with (String "-" (string_of_digits (d :: ds))).
  change (int_sign (String "-" (string_of_digits (d :: ds))))
    with (true, string_of_digits (d :: ds)).
  cbv beta iota. apply (read_digits true _ d ds Hall).
Qed.

Lemma padded_digits (pad : nat) (v : Z) :
  0 <= v ->
  exists d ds,
    (repeat 0 pad ++ to_digits 16 v)%list = d :: ds
    /\ Forall is_digit16 (d :: ds)
    /\ horner 16 (d :: ds) 0 = v.
Proof.
  intros Hv. destruct (to_digits_spec v Hv) as (Hall & Hval & Hne).
  assert (Hall' : Forall is_digit16 (repeat 0 pad ++ to_digits 16 v)).
  { apply Forall_app. split; [| exact Hall].
    apply Forall_forall. intros x Hx. apply repeat_spec in Hx. subst x.
    unfold is_digit16. lia. }
  assert (Hh : horner 16 (repeat 0 pad ++ to_digits 16 v) 0 = v).
  { now rewrite horner_app, horner_zeros. }
  destruct (repeat 0 pad ++ to_digits 16 v)%list as [| d ds] eqn:Heq.
  - apply app_eq_nil in Heq. destruct Heq as [_ Heq]. contradiction.
  - exists d, ds. repeat split; assumption.
Qed.

(** X13.  [HexIDFilter._parse_value] reads back what Python's zero-padded
    hexadecimal format writes, for every integer and every width: the
    negative ones, written with their sign first, and the ones too large
    for the width, written in full, included. *)
Theorem hex_text_round_trip_for_every_integer (width : nat) (v : Z) :
  _parse_value (Some (format_zero 16 width v)) = Ok v.
Proof.
  destruct (Z.ltb_spec v 0) as [Hneg | Hpos].
  - unfold _parse_value, int, format_zero.
    assert (Hlt : (v <? 0) = true) by (apply Z.ltb_lt; lia).
    rewrite Hlt.
    destruct (padded_digits (width - String.length "-"
                             - List.length (to_digits 16 (Z.abs v))) (Z.abs v))
      as (d & ds & Heq & Hall & Hh); [lia |].
    rewrite Heq. cbn [append].
    rewrite (int_of_str_minus d ds Hall), Hh. f_equal. lia.
  - unfold _parse_value. now apply int_format_zero.
Qed.

Lemma int_prefix_0x (d : Z) (r : string) :
  is_digit16 d ->
  int_prefix 16 (String "0" (String "x" (String (digit_char d) r)))
  = String (digit_char d) r.
Proof. intros Hd. each_digit d; reflexivity. Qed.

(** X14.  A [HexIDFilter] made without a format has the format ['0x{:x}'].
    What this format writes for an integer that is not negative,
    [_parse_value] reads back; what it writes for a negative one (the sign
    comes after the [0x]) makes [_parse_value] raise [ValueError]. *)
Theorem hex_default_format_round_trip (name : option string) (v : Z) :
  let text := "0x" ++ format_zero 16 0 v in
  print_format (HexIDFilter name None) = "0x{:x}"
  /\ (0 <= v -> _parse_value (Some text) = Ok v)
  /\ (v < 0 -> _parse_value (Some text) = Raise (invalid_literal 16 text)).
Proof.
  intros text. split; [reflexivity |]. split.
  - intros Hv. subst text. unfold _parse_value, int, format_zero.
    assert (Hlt : (v <? 0) = false) by (apply Z.ltb_ge; lia).
    rewrite Hlt, Z.abs_eq by exact Hv.
    destruct (padded_digits (0 - String.length ""
                             - List.length (to_digits 16 v)) v Hv)
      as (d & ds & Heq & Hall & Hh).
    rewrite Heq. cbn [append]. unfold int_of_str.
    change (lstrip (String "0" (String "x" (string_of_digits (d :: ds)))))
      with (String "0" (String "x" (string_of_digits (d :: ds)))).
    change (int_sign (String "0" (String "x" (string_of_digits (d :: ds)))))
      with (false, String "0" (String "x" (string_of_digits (d :: ds)))).
    cbv beta iota.
    pose proof (Forall_inv Hall) as Hd.
    pose proof (Forall_inv_tail Hall) as Hds.
    rewrite digits_text, (int_prefix_0x d _ Hd).
    rewrite (digit_val_char d Hd), (int_body_digits ds Hds).
    cbn [all_space]. f_equal. rewrite <- Hh. reflexivity.
  - intros Hv. subst text. unfold _parse_value, int, format_zero.
    assert (Hlt : (v <? 0) = true) by (apply Z.ltb_lt; lia).
    rewrite Hlt. reflexivity.
Qed.

End HexFacts.

(** ** Making a connector *)

Section InitFacts.

Context {Filter obj : Type}.
Context {FO : FilterOps Filter obj} {PF : Platform obj}.

Local Abbreviation Connector := (@FileSystemConnector Filter obj).

(** X15.  [__init__] as a copy.  A copy made with no directory is the
    original; a copy of a copy is one copy, each directory being the last
    one given (the outer one if there is one, else the inner one, else
    that of the original, or without an original that of the
    environment); and the filters of a copy are those of the original.
    Without an original and without an argument, a directory is what the
    environment has under [GAPIPE_DATADIR] or [GAPIPE_RERUNDIR], and
    [None] when the variable is not set. *)
Theorem init_copies_compose
    (datadir rerundir datadir0 rerundir0 : option string)
    (orig : option Connector) (o : Connector) :
  __init__ None None (Some o) = o
  /\ __init__ datadir rerundir (Some (__init__ datadir0 rerundir0 orig))
     = __init__ (or_else datadir datadir0) (or_else rerundir rerundir0) orig
  /\ (let copy := __init__ datadir rerundir (Some o) in
      __datadir copy = or_else datadir (__datadir o)
      /\ __rerundir copy = or_else rerundir (__rerundir o)
      /\ __pfsDesignId copy = __pfsDesignId o
      /\ __catId copy = __catId o
      /\ __tract copy = __tract o
      /\ __patch copy = __patch o
      /\ __objId copy = __objId o
      /\ __visit copy = __visit o
      /\ __date copy = __date o)
  /\ (let fresh := __init__ datadir rerundir None in
      __datadir fresh = or_else datadir (Dict.get os_environ "GAPIPE_DATADIR")
      /\ __rerundir fresh
         = or_else rerundir (Dict.get os_environ "GAPIPE_RERUNDIR")).
Proof.
  assert (Henv : forall key, __get_envvar key = Dict.get os_environ key).
  { intros key. unfold __get_envvar, Dict.mem.
    now destruct (Dict.get os_environ key). }
  split; [now destruct o |]. split; [| split].
  - destruct datadir, rerundir, datadir0, rerundir0, orig; reflexivity.
  - cbn. destruct datadir, rerundir; repeat split.
  - cbn. rewrite !Henv. destruct datadir, rerundir; repeat split.
Qed.

End InitFacts.

(** * Command-line scripts *)

Section ScriptFacts.

Import ScriptModel.


(** X16.  [_get_arg] with a dictionary of arguments never raises, and
    returns the default unless the dictionary has under the name a value
    that is neither [None] nor the empty string, which it then returns:
    a missing name, a [None] and an empty string all give the default,
    and [False] and [0] do not.  Without a dictionary it reads the parsed
    arguments of the script, and raises [AttributeError] when the command
    line has not been parsed yet. *)
Theorem get_arg_default_or_filled (self : Script) (name : string)
    (args : Dict.t arg_value) (default : arg_value) :
  (exists v,
      _get_arg self name (Some args) default = Ok v
      /\ match Dict.get args name with
         | None | Some ANone | Some (AText EmptyString) => v = default
         | Some x => v = x
         end)
  /\ (__args self = None -> _get_arg self name None default = Raise no_args)
  /\ (__args self = Some args ->
      _get_arg self name None default
      = _get_arg self name (Some args) default).
Proof.
  split; [| split].
  - unfold _get_arg, Dict.mem, Dict.item. cbn [rbind].
    destruct (Dict.get args name) as [[| b | n | [| c s]] |]; cbn;
      eexists; split; reflexivity.
  - intros H. unfold _get_arg. now rewrite H.
  - intros H. unfold _get_arg. now rewrite H.
Qed.


End ScriptFacts.

(** * The further properties on the trees of the example *)

Section MoreRuns.

Import FilterModel Example Reruns.

Ltac found := cbn; repeat first [left; reflexivity | right].

Ltac absent := cbn; intuition discriminate.

Ltac none_of := repeat (apply Forall_cons; [absent |]); apply Forall_nil.

(** The single-object file as a reference: the data directory is what
    precedes [rerun]. *)
Lemma get_datadir_from_reference_witness :
  In "rerun" (split "/" single_file)
  /\ exists before after,
       split "/" single_file = (before ++ "rerun" :: after)%list
       /\ ~ In "rerun" before
       /\ get_datadir connector (Some single_file) true []
          = (Ok (os_path_abspath (join "/" before)), [])
       /\ (before <> [] ->
           single_file
           = join "/" before ++ "/" ++ join "/" ("rerun" :: after))
       /\ (before = [] -> single_file = join "/" ("rerun" :: after)).
Proof.
  assert (Hin : In "rerun" (split "/" single_file)) by found.
  split; [exact Hin |].
  exact (get_datadir_from_reference (PF := platform) connector single_file
           true [] "rerun" (or_introl eq_refl) Hin).
Defined.

(** A path under [/tmp] as a reference. *)
Lemma get_datadir_without_anchor_witness :
  ~ In "rerun" (split "/" stray_path)
  /\ ~ In "pfsConfig" (split "/" stray_path)
  /\ ~ In "pfsDesign" (split "/" stray_path)
  /\ get_datadir connector (Some stray_path) true []
     = (Raise (ValueError
                 "Data directory cannot be inferred from reference path."),
        [])
  /\ get_datadir connector (Some stray_path) false []
     = (Ok "/data",
        [LogWarning "Data directory cannot be inferred from reference path."]).
Proof.
  assert (H1 : ~ In "rerun" (split "/" stray_path)) by absent.
  assert (H2 : ~ In "pfsConfig" (split "/" stray_path)) by absent.
  assert (H3 : ~ In "pfsDesign" (split "/" stray_path)) by absent.
  pose proof (get_datadir_without_anchor (PF := platform) connector
                stray_path [] H1 H2 H3) as H.
  cbv zeta in H. destruct H as (Hr & Hw & _).
  repeat (split; [assumption |]). exact Hw.
Defined.

(** The single-object file as a reference: the rerun directory is what
    precedes [pfsSingle]. *)
Lemma get_rerundir_from_reference_witness :
  Forall (fun y => ~ In y (split "/" single_file)) ["pfsArm"; "pfsMerged"]
  /\ In "pfsSingle" (split "/" single_file)
  /\ exists before after,
       split "/" single_file = (before ++ "pfsSingle" :: after)%list
       /\ ~ In "pfsSingle" before
       /\ get_rerundir connector (Some single_file) true []
          = (Ok (os_path_abspath (join "/" before)), [])
       /\ (before <> [] ->
           single_file
           = join "/" before ++ "/" ++ join "/" ("pfsSingle" :: after))
       /\ (before = [] -> single_file = join "/" ("pfsSingle" :: after)).
Proof.
  assert (He : Forall (fun y => ~ In y (split "/" single_file))
                 ["pfsArm"; "pfsMerged"]) by none_of.
  assert (Hin : In "pfsSingle" (split "/" single_file)) by found.
  split; [exact He |]. split; [exact Hin |].
  exact (get_rerundir_from_reference (PF := platform) connector single_file
           true [] ["pfsArm"; "pfsMerged"] ["pfsObject"; "pfsGAObject"]
           "pfsSingle" eq_refl He Hin).
Defined.


(** The query for the design 42 with a colour besides. *)
Lemma unknown_keywords_are_ignored_witness :
  Dict.mem design_fields "colour" = false
  /\ __find_files_and_match_params connector design_patterns design_fields
       design_42_in_red design_regex []
     = __find_files_and_match_params connector design_patterns design_fields
         design_42 design_regex [].
Proof.
  split; [reflexivity |].
  exact (proj2 (unknown_keywords_are_ignored (PF := platform) connector
                  design_patterns design_fields design_regex []
                  design_42_in_red)
               [] design_42 "colour" _ eq_refl eq_refl).
Defined.

(** The design files under [/archive]: one candidate, which the regular
    expression does not match. *)
Lemma discovery_of_nothing_witness :
  update_params rerun_connector design_fields [] = Ok design_fields
  /\ glob_expression (PF := rerun_platform) archive_patterns design_fields
     = Ok archive_glob
  /\ @fs_glob _ rerun_platform archive_glob
     = ["/archive/pfsDesign/pfsDesign-0x2a.fits"]
  /\ Forall (fun path => @re_search _ rerun_platform design_regex path = None)
       (@fs_glob _ rerun_platform archive_glob)
  /\ __find_files_and_match_params (PF := rerun_platform) rerun_connector
       archive_patterns design_fields [] design_regex []
     = (Ok ([], [("pfsDesignId", [])]), [Glob archive_glob])
  /\ __get_single_file (obj := obj) [] [("pfsDesignId", [])]
     = Raise (FileNotFoundError "No file found matching the query.").
Proof.
  assert (Hu : update_params rerun_connector design_fields []
               = Ok design_fields) by reflexivity.
  assert (Hg : glob_expression (PF := rerun_platform) archive_patterns
                 design_fields = Ok archive_glob) by reflexivity.
  assert (Hn : Forall (fun path =>
                         @re_search _ rerun_platform design_regex path = None)
                 (@fs_glob _ rerun_platform archive_glob))
    by (repeat constructor).
  split; [exact Hu |]. split; [exact Hg |]. split; [reflexivity |].
  split; [exact Hn |].
  exact (discovery_of_nothing (PF := rerun_platform) rerun_connector
           archive_patterns design_fields design_fields [] design_regex []
           archive_glob Hu Hg Hn).
Defined.

(** Locating the design 42, the visit 100 and the one single-object
    file. *)
Lemma locate_returns_the_one_match_witness :
  locate_pfsDesign connector None design_42 []
  = (Ok (design_2a, identity_42), [Glob design_2a])
  /\ (exists datadir w1,
        get_datadir connector None false [] = (Ok datadir, w1)
        /\ located connector
             [datadir; PFSDESIGN_DIR_GLOB; PFSDESIGN_FILENAME_GLOB]
             __get_pfsDesign_identity_fields design_42
             PFSDESIGN_FILENAME_REGEX design_2a identity_42)
  /\ locate_pfsConfig connector None visit_100_only []
     = (Ok (visit_100, identity_100), [Glob config_glob])
  /\ (exists datadir w1,
        get_datadir connector None false [] = (Ok datadir, w1)
        /\ located connector
             [datadir; PFSCONFIG_DIR_GLOB; PFSCONFIG_FILENAME_GLOB]
             __get_pfsConfig_identity_fields visit_100_only
             PFSCONFIG_PATH_REGEX visit_100 identity_100)
  /\ locate_pfsSingle (PF := rerun_platform) (CS := rerun_constants)
       rerun_connector None [] []
     = (Ok (single_file, single_identity), [Glob single_glob])
  /\ (exists datadir rerundir w1 w2,
        get_datadir (PF := rerun_platform) rerun_connector None false []
        = (Ok datadir, w1)
        /\ get_rerundir (PF := rerun_platform) rerun_connector None false w1
           = (Ok rerundir, w2)
        /\ located (PF := rerun_platform) rerun_connector
             [datadir; rerundir;
              PFSSINGLE_DIR_GLOB (ConstantsT := rerun_constants);
              PFSSINGLE_FILENAME_GLOB (ConstantsT := rerun_constants)]
             __get_identity_fields_pfsSingle []
             (PFSSINGLE_FILENAME_REGEX (ConstantsT := rerun_constants))
             single_file single_identity).
Proof.
  assert (Hd : locate_pfsDesign connector None design_42 []
               = (Ok (design_2a, identity_42), [Glob design_2a]))
    by reflexivity.
  assert (Hc : locate_pfsConfig connector None visit_100_only []
               = (Ok (visit_100, identity_100), [Glob config_glob]))
    by reflexivity.
  assert (Hs : locate_pfsSingle (PF := rerun_platform)
                 (CS := rerun_constants) rerun_connector None [] []
               = (Ok (single_file, single_identity), [Glob single_glob]))
    by reflexivity.
  split; [exact Hd |]. split.
  { exact (proj1 (locate_returns_the_one_match (PF := platform) connector
                    None design_42 [] [Glob design_2a] design_2a identity_42)
                 Hd). }
  split; [exact Hc |]. split.
  { exact (proj1 (proj2 (locate_returns_the_one_match (PF := platform)
                           connector None visit_100_only [] [Glob config_glob]
                           visit_100 identity_100))
                 Hc). }
  split; [exact Hs |].
  exact (proj2 (proj2 (locate_returns_the_one_match (PF := rerun_platform)
                         (CS := rerun_constants) rerun_connector None []
                         [] [Glob single_glob] single_file single_identity))
               Hs).
Defined.

(** The searches for design and configuration files with a path under
    [/tmp] as a reference. *)
Lemma reference_without_anchor_only_warns_witness :
  ~ In "rerun" (split "/" stray_path)
  /\ ~ In "pfsConfig" (split "/" stray_path)
  /\ ~ In "pfsDesign" (split "/" stray_path)
  /\ find_pfsDesign connector (Some stray_path) [] []
     = find_pfsDesign connector None []
         [LogWarning "Data directory cannot be inferred from reference path."]
  /\ find_pfsConfig connector (Some stray_path) [] []
     = find_pfsConfig connector None []
         [LogWarning "Data directory cannot be inferred from reference path."]
  /\ locate_pfsDesign connector (Some stray_path) [] []
     = locate_pfsDesign connector None []
         [LogWarning "Data directory cannot be inferred from reference path."]
  /\ locate_pfsConfig connector (Some stray_path) [] []
     = locate_pfsConfig connector None []
         [LogWarning "Data directory cannot be inferred from reference path."].
Proof.
  assert (H1 : ~ In "rerun" (split "/" stray_path)) by absent.
  assert (H2 : ~ In "pfsConfig" (split "/" stray_path)) by absent.
  assert (H3 : ~ In "pfsDesign" (split "/" stray_path)) by absent.
  repeat (split; [assumption |]).
  exact (reference_without_anchor_only_warns (PF := platform) connector
           stray_path [] [] H1 H2 H3).
Defined.

(** The names of the design 42, of the visit 100 and of the single-object
    file, and names that are none of these. *)
Lemma parse_gives_a_record_or_raises_witness :
  parse_pfsDesign design_2a [] = (Ok (Some identity_42), [])
  /\ (exists identity,
        Some identity_42 = Some identity
        /\ Dict.keys identity = ["pfsDesignId"])
  /\ parse_pfsConfig visit_100 [] = (Ok (Some identity_100), [])
  /\ (exists identity,
        Some identity_100 = Some identity
        /\ Dict.keys identity = ["pfsDesignId"; "visit"; "date"])
  /\ parse_pfsSingle single_file [] = (Ok (Some single_identity), [])
  /\ (exists identity,
        Some single_identity = Some identity
        /\ Dict.keys identity = ["catId"; "tract"; "patch"; "objId"; "visit"])
  /\ re_search PFSDESIGN_FILENAME_REGEX "README" = None
  /\ parse_pfsDesign "/data/README" []
     = (Raise (ValueError (format_mismatch "README")), [])
  /\ re_search PFSSINGLE_FILENAME_REGEX "README" = None
  /\ parse_pfsSingle "/data/README" []
     = (Raise (ValueError (format_mismatch "README")), [])
  /\ re_search PFSCONFIG_FILENAME_REGEX "README" = None
  /\ parse_pfsConfig "README" []
     = (Raise (ValueError (format_mismatch "README")), [])
  /\ re_search PFSCONFIG_PATH_REGEX "/data/README" = None
  /\ parse_pfsConfig "/data/README" []
     = (Raise (ValueError (format_mismatch "/data/README")), []).
Proof.
  assert (Hd : parse_pfsDesign design_2a [] = (Ok (Some identity_42), []))
    by reflexivity.
  assert (Hc : parse_pfsConfig visit_100 [] = (Ok (Some identity_100), []))
    by reflexivity.
  assert (Hs : parse_pfsSingle single_file []
               = (Ok (Some single_identity), [])) by reflexivity.
  pose proof (parse_gives_a_record_or_raises (PF := platform) design_2a [])
    as H. cbv zeta in H. destruct H as (Kd & _).
  pose proof (parse_gives_a_record_or_raises (PF := platform) visit_100 [])
    as H. cbv zeta in H. destruct H as (_ & Kc & _).
  pose proof (parse_gives_a_record_or_raises (PF := platform) single_file [])
    as H. cbv zeta in H. destruct H as (_ & _ & Ks & _).
  pose proof (parse_gives_a_record_or_raises (PF := platform) "/data/README"
                []) as H.
  cbv zeta in H. destruct H as (_ & _ & _ & Md & Ms & _ & Mp).
  pose proof (parse_gives_a_record_or_raises (PF := platform) "README" [])
    as H. cbv zeta in H. destruct H as (_ & _ & _ & _ & _ & Mc & _).
  split; [exact Hd |]. split; [exact (proj2 (Kd _ _ Hd)) |].
  split; [exact Hc |]. split; [exact (proj2 (Kc _ _ Hc)) |].
  split; [exact Hs |]. split; [exact (proj2 (Ks _ _ Hs)) |].
  split; [reflexivity |]. split; [exact (Md eq_refl) |].
  split; [reflexivity |]. split; [exact (Ms eq_refl) |].
  split; [reflexivity |]. split; [exact (Mc eq_refl eq_refl) |].
  split; [reflexivity |].
  apply Mp; [discriminate | reflexivity].
Defined.

(** Loading the configuration of the visit 100 by its identity. *)
Lemma loaders_do_not_search_witness :
  reads_at_most_once "PfsConfig" []
    (load_pfsConfig connector None (Some identity_100) [])
  /\ snd (load_pfsConfig connector None (Some identity_100) [])
     = [Read "PfsConfig" "/data/pfsConfig/2024-05-01/"].
Proof.
  split; [| reflexivity].
  exact (proj2 (proj2 (loaders_do_not_search (PF := platform) connector None
                         (Some identity_100) []))
               eq_refl).
Defined.

(** Loading the design 42 by the name of its file, by the same name under
    another directory, and by its identity. *)
Lemma load_pfsDesign_by_filename_witness :
  snd (os_path_split design_2a_elsewhere) = snd (os_path_split design_2a)
  /\ load_pfsDesign connector (Some design_2a_elsewhere) None []
     = load_pfsDesign connector (Some design_2a) None []
  /\ __parse_filename_params "pfsDesign-0x000000000000002a.fits"
       [("pfsDesignId", HexFilter None None)] PFSDESIGN_FILENAME_REGEX true []
     = (Ok (Some identity_42), [])
  /\ load_pfsDesign connector (Some design_2a) None []
     = load_pfsDesign connector None (Some identity_42) []
  /\ re_search PFSDESIGN_FILENAME_REGEX "README" = None
  /\ load_pfsDesign connector (Some "/data/README") None []
     = (Raise (ValueError (format_mismatch "README")), []).
Proof.
  pose proof (load_pfsDesign_by_filename (PF := platform) connector design_2a
                []) as H.
  cbv zeta in H. destruct H as (H1 & H2 & _).
  pose proof (load_pfsDesign_by_filename (PF := platform) connector
                "/data/README" []) as H.
  cbv zeta in H. destruct H as (_ & _ & H3).
  split; [reflexivity |]. split; [exact (H1 design_2a_elsewhere eq_refl) |].
  split; [reflexivity |]. split; [exact (H2 identity_42 eq_refl) |].
  split; [reflexivity | exact (H3 eq_refl)].
Defined.

(** Loading the configuration of the visit 100 by the name of its file. *)
Lemma load_pfsConfig_by_filename_witness :
  load_pfsConfig (PF := rerun_platform) (CS := rerun_constants)
    rerun_connector (Some visit_100) None []
  = (Ok ("PfsConfig in /data/pfsConfig/2024-05-01", Some identity_100),
     [Glob visit_100; Read "PfsConfig" "/data/pfsConfig/2024-05-01"])
  /\ exists parsed path identity w1 pfsDesignId visit,
       parse_pfsConfig (PF := rerun_platform) (CS := rerun_constants)
         visit_100 []
       = (Ok (Some parsed), [])
       /\ locate_pfsConfig (PF := rerun_platform) (CS := rerun_constants)
            rerun_connector (Some visit_100) parsed []
          = (Ok (path, identity), w1)
       /\ Some identity_100 = Some identity
       /\ attr identity "pfsDesignId" = Ok pfsDesignId
       /\ attr identity "visit" = Ok visit
       /\ PfsConfig_read pfsDesignId visit
            (@os_path_dirname _ rerun_platform path)
          = Ok "PfsConfig in /data/pfsConfig/2024-05-01"
       /\ [Glob visit_100; Read "PfsConfig" "/data/pfsConfig/2024-05-01"]
          = (w1 ++ [Read "PfsConfig"
                      (@os_path_dirname _ rerun_platform path)])%list.
Proof.
  assert (H : load_pfsConfig (PF := rerun_platform) (CS := rerun_constants)
                rerun_connector (Some visit_100) None []
              = (Ok ("PfsConfig in /data/pfsConfig/2024-05-01",
                     Some identity_100),
                 [Glob visit_100;
                  Read "PfsConfig" "/data/pfsConfig/2024-05-01"]))
    by reflexivity.
  split; [exact H |].
  exact (load_pfsConfig_by_filename (PF := rerun_platform)
           (CS := rerun_constants) rerun_connector visit_100 [] _ _ _ H).
Defined.

(** The numbers 42 and -1 in the default format. *)
Lemma hex_default_format_round_trip_witness :
  0 <= 42
  /\ _parse_value (Some "0x2a") = Ok 42
  /\ -1 < 0
  /\ _parse_value (Some "0x-1") = Raise (Py.invalid_literal 16 "0x-1").
Proof.
  assert (H0 : 0 <= 42) by discriminate.
  assert (H1 : -1 < 0) by reflexivity.
  split; [exact H0 |]. split.
  { exact (proj1 (proj2 (hex_default_format_round_trip None 42)) H0). }
  split; [exact H1 |].
  exact (proj2 (proj2 (hex_default_format_round_trip None (-1))) H1).
Defined.

End MoreRuns.

Section ScriptRuns.

Import ScriptModel ScriptExample.

(** A script before and after [execute]. *)
Lemma get_arg_default_or_filled_witness :
  __args new_script = None
  /\ _get_arg new_script "debug" None (ABool false) = Raise no_args
  /\ __args debugged = Some [("debug", ABool true)]
  /\ _get_arg debugged "debug" None (ABool false)
     = _get_arg debugged "debug" (Some [("debug", ABool true)]) (ABool false).
Proof.
  split; [reflexivity |]. split.
  { exact (proj1 (proj2 (get_arg_default_or_filled new_script "debug" []
                           (ABool false)))
                 eq_refl). }
  split; [reflexivity |].
  exact (proj2 (proj2 (get_arg_default_or_filled debugged "debug"
                         [("debug", ABool true)] (ABool false)))
               eq_refl).
Defined.


End ScriptRuns.
